(** * NIP-47 request handlers: sign_message and multi_pay_keysend

    A shallow embedding of [HandleSignMessageEvent] and
    [HandleMultiPayKeysendEvent] (handle_sign_message_request.go), with the
    relay, the permission policy, the ledger (gorm) and the Lightning
    client kept abstract, and the properties of the request-handling
    engine proved over it.

    - Every call that leaves the handler (permission check, publish,
      ledger write, backend call, analytics log) is recorded as an
      [Event] in a chronological trace, labelled with the goroutine that
      made it.
    - [HandleSignMessageEvent] is sequential and written in a small state
      monad over the [World] (ledger and trace).
    - [HandleMultiPayKeysendEvent] starts one goroutine per batch element
      and joins them with a [sync.WaitGroup]. Each goroutine is a small
      state machine ([Pc]) making one external call per step; a schedule
      (a list of thread ids) picks which thread moves next, so theorems
      that quantify over all schedules hold for every interleaving. *)

From Stdlib Require Import ZArith List String Bool Lia.
From stdpp Require Import base list gmap strings.
Import ListNotations.
Open Scope string_scope.
Open Scope list_scope.

(** ** Data model *)

(** [nostr.Tag] is a list of strings, [nostr.Tags] a list of tags. *)
Definition Tag := list string.
Definition Tags := list Tag.

(** The structs below are declared outside this file; the fields are the
    ones the two handlers read or write. Field names carry a short
    prefix because several structs share [Preimage], [Message], [ID]. *)

Record App := { app_ID : nat; app_NostrPubkey : string }.

Record RequestEvent := { NostrId : string; req_Content : string }.

Record Nip47Request := { Method : string; Params : string }.

Record Nip47Error := { err_Code : string; err_Message : string }.

(** [Nip47Response.Result] is an [interface{}]; the handlers store one of
    two payloads in it. *)
Inductive Nip47Result :=
| Nip47SignMessageResponse (Message Signature : string)
| Nip47PayResponse (Preimage : string).

Record Nip47Response := {
  ResultType : string;
  resp_Error : option Nip47Error;
  resp_Result : option Nip47Result
}.

Record Nip47SignMessageParams := { smp_Message : string }.

Record TLVRecord := { tlv_Type : Z; tlv_Value : string }.

(** [Nip47MultiPayKeysendElement]: [Amount] is an [int64] number of
    millisatoshi. *)
Record Nip47MultiPayKeysendElement := {
  ks_Id : string;
  ks_Pubkey : string;
  ks_Amount : Z;
  ks_Preimage : string;
  ks_TLVRecords : list TLVRecord
}.

Record Nip47MultiPayKeysendParams := {
  Keysends : list Nip47MultiPayKeysendElement
}.

(** [Payment]: [pay_ID] is the primary key gorm assigns on [Create];
    [pay_Amount] is a [uint]; [pay_Preimage] is a [*string]. *)
Record Payment := {
  pay_ID : nat;
  pay_App : App;
  pay_RequestEvent : RequestEvent;
  pay_Amount : Z;
  pay_Preimage : option string
}.

(** Modelled from the spec: the constant [NIP_47_ERROR_INTERNAL] is
    declared outside this file; section 6 of the specification names the
    code [INTERNAL]. *)
Definition NIP_47_ERROR_INTERNAL : string := "INTERNAL".

(** A Go [(value, error)] result. *)
Inductive GoResult (A : Type) :=
| Ok (a : A)
| Err (msg : string).
Arguments Ok {A} a.
Arguments Err {A} msg.

(** ** Integer conversions *)

(** [uint(x)] for an [int64] [x] on a 64-bit target: reduction modulo
    [2^64]. *)
Definition uint (z : Z) : Z := (z mod 2 ^ 64)%Z.

(** Go's [/] on integers truncates toward zero. *)
Definition go_div (a b : Z) : Z := Z.quot a b.

(** ** Threads, events and the world *)

Inductive Tid :=
| TMain
| TGo (i : nat).

Definition Tid_eqb (a b : Tid) : bool :=
  match a, b with
  | TMain, TMain => true
  | TGo i, TGo j => Nat.eqb i j
  | _, _ => false
  end.

(** The second argument of [checkPermission]: [HandleSignMessageEvent]
    passes [requestEvent.NostrId], the batch handler passes
    [requestEvent] itself. *)
Inductive EventRef :=
| ByNostrId (id : string)
| ByEvent (ev : RequestEvent).

Inductive Event :=
| EvCheckPermission (t : Tid) (amount : Z) (resp : option Nip47Response)
| EvPublish (t : Tid) (resp : Nip47Response) (tags : Tags)
| EvSignMessageCall (t : Tid) (message : string)
| EvSignMessageRet (t : Tid) (res : GoResult string)
| EvDbCreate (t : Tid) (p : Payment) (err : option string)
| EvSendKeysendCall (t : Tid) (amount : Z) (pubkey preimage : string)
    (tlv : list TLVRecord)
| EvSendKeysendRet (t : Tid) (res : GoResult string)
| EvDbSave (t : Tid) (p : Payment) (err : option string)
| EvEventLog (t : Tid) (event : string) (error : option string) (amount : Z).

Definition ev_tid (ev : Event) : Tid :=
  match ev with
  | EvCheckPermission t _ _ | EvPublish t _ _ | EvSignMessageCall t _
  | EvSignMessageRet t _ | EvDbCreate t _ _ | EvSendKeysendCall t _ _ _ _
  | EvSendKeysendRet t _ | EvDbSave t _ _ | EvEventLog t _ _ _ => t
  end.

Record World := {
  ledger : list Payment;
  trace : list Event
}.

Definition emit (ev : Event) (w : World) : World :=
  {| ledger := ledger w; trace := trace w ++ [ev] |}.

(** Observations of a trace. *)

Definition events_of (t : Tid) (tr : list Event) : list Event :=
  List.filter (fun ev => Tid_eqb (ev_tid ev) t) tr.

Fixpoint published (tr : list Event) : list (Nip47Response * Tags) :=
  match tr with
  | [] => []
  | EvPublish _ r tags :: tr' => (r, tags) :: published tr'
  | _ :: tr' => published tr'
  end.

Definition is_backend_call (ev : Event) : bool :=
  match ev with
  | EvSignMessageCall _ _ | EvSendKeysendCall _ _ _ _ _ => true
  | _ => false
  end.

Definition is_ledger_write (ev : Event) : bool :=
  match ev with
  | EvDbCreate _ _ _ | EvDbSave _ _ _ => true
  | _ => false
  end.

(** ** The ledger (gorm over the payments table) *)

(** Auto-increment primary key: one more than the largest key in use. *)
Definition next_id (l : list Payment) : nat :=
  S (fold_right Nat.max 0 (map pay_ID l)).

Definition with_ID (p : Payment) (id : nat) : Payment :=
  {| pay_ID := id; pay_App := pay_App p; pay_RequestEvent := pay_RequestEvent p;
     pay_Amount := pay_Amount p; pay_Preimage := pay_Preimage p |}.

Definition with_Preimage (p : Payment) (preimage : string) : Payment :=
  {| pay_ID := pay_ID p; pay_App := pay_App p;
     pay_RequestEvent := pay_RequestEvent p;
     pay_Amount := pay_Amount p; pay_Preimage := Some preimage |}.

(** [db.Save] writes every field of the row with the record's primary
    key, and inserts the record when no row has that key. *)
Definition upsert (p : Payment) (l : list Payment) : list Payment :=
  if existsb (fun r => Nat.eqb (pay_ID r) (pay_ID p)) l
  then map (fun r => if Nat.eqb (pay_ID r) (pay_ID p) then p else r) l
  else l ++ [p].

(** ** A state monad over the world *)

Definition M (A : Type) : Type := World -> A * World.

Definition ret {A} (a : A) : M A := fun w => (a, w).

Definition bind {A B} (m : M A) (k : A -> M B) : M B :=
  fun w => let (a, w') := m w in k a w'.

Notation "x <-- m ;; k" := (bind m (fun x => k))
  (at level 100, m at next level, right associativity).
Notation "m ;;; k" := (bind m (fun _ => k))
  (at level 100, right associativity).

(** ** The service and its collaborators

    None of these functions is defined in this file. Each is a function
    of the world at the moment of the call, so a result may depend on
    anything that happened before (the budget already spent, the calls
    made so far, ...).

    - [checkPermission]: [None] is Go's [nil] (allowed); it reads the
      ledger and writes nothing.
    - [decodeNip47Request]: fills the parameter struct it is given and
      returns [nil] or the response to publish.
    - [json_Unmarshal]: [json.Unmarshal(request.Params, multiPayParams)].
    - [lnClient_SignMessage], [lnClient_SendKeysend]: the backend.
    - [db_Create_Error], [db_Save_Error]: the [Error] field of the
      results of [svc.db.Create] and [svc.db.Save]. *)
Record Service := {
  checkPermission :
    World -> Nip47Request -> EventRef -> App -> Z -> option Nip47Response;
  decodeNip47Request :
    Nip47Request -> RequestEvent -> App ->
    Nip47SignMessageParams * option Nip47Response;
  json_Unmarshal : string -> GoResult Nip47MultiPayKeysendParams;
  lnClient_SignMessage : World -> string -> GoResult string;
  lnClient_SendKeysend :
    World -> Z -> string -> string -> list TLVRecord -> GoResult string;
  db_Create_Error : World -> Payment -> option string;
  db_Save_Error : World -> Payment -> option string
}.

Section Handlers.

Variable svc : Service.

(** ** Primitive operations *)

Definition svc_checkPermission (t : Tid) (request : Nip47Request)
    (ref : EventRef) (app : App) (amount : Z) : M (option Nip47Response) :=
  fun w =>
    let resp := checkPermission svc w request ref app amount in
    (resp, emit (EvCheckPermission t amount resp) w).

Definition publishResponse (t : Tid) (resp : Nip47Response) (tags : Tags)
    : M unit :=
  fun w => (tt, emit (EvPublish t resp tags) w).

Definition SignMessage_call (t : Tid) (message : string) : M unit :=
  fun w => (tt, emit (EvSignMessageCall t message) w).

Definition SignMessage_return (t : Tid) (message : string)
    : M (GoResult string) :=
  fun w =>
    let res := lnClient_SignMessage svc w message in
    (res, emit (EvSignMessageRet t res) w).

Definition SendKeysend_call (t : Tid) (amount : Z) (pubkey preimage : string)
    (tlv : list TLVRecord) : M unit :=
  fun w => (tt, emit (EvSendKeysendCall t amount pubkey preimage tlv) w).

Definition SendKeysend_return (t : Tid) (amount : Z)
    (pubkey preimage : string) (tlv : list TLVRecord)
    : M (GoResult string) :=
  fun w =>
    let res := lnClient_SendKeysend svc w amount pubkey preimage tlv in
    (res, emit (EvSendKeysendRet t res) w).

(** [svc.db.Create(&payment)]: on success the row is inserted and the
    primary key is written back into the struct. *)
Definition db_Create (t : Tid) (payment : Payment)
    : M (Payment * option string) :=
  fun w =>
    match db_Create_Error svc w payment with
    | Some e => ((payment, Some e), emit (EvDbCreate t payment (Some e)) w)
    | None =>
        let payment' := with_ID payment (next_id (ledger w)) in
        ((payment', None),
         {| ledger := ledger w ++ [payment'];
            trace := trace w ++ [EvDbCreate t payment' None] |})
    end.

(** [svc.db.Save(&payment)]: the handler ignores the result. *)
Definition db_Save (t : Tid) (payment : Payment) : M unit :=
  fun w =>
    match db_Save_Error svc w payment with
    | Some e => (tt, emit (EvDbSave t payment (Some e)) w)
    | None =>
        (tt, {| ledger := upsert payment (ledger w);
                trace := trace w ++ [EvDbSave t payment None] |})
    end.

Definition EventLogger_Log (t : Tid) (event : string) (error : option string)
    (amount : Z) : M unit :=
  fun w => (tt, emit (EvEventLog t event error amount) w).

(** ** HandleSignMessageEvent *)

Definition HandleSignMessageEvent (nip47Request : Nip47Request)
    (requestEvent : RequestEvent) (app : App) : M unit :=
  let (signParams, resp) :=
    decodeNip47Request svc nip47Request requestEvent app in
  match resp with
  | Some resp => publishResponse TMain resp []
  | None =>
      resp <-- svc_checkPermission TMain nip47Request
                 (ByNostrId (NostrId requestEvent)) app 0%Z;;
      match resp with
      | Some resp => publishResponse TMain resp []
      | None =>
          SignMessage_call TMain (smp_Message signParams);;;
          res <-- SignMessage_return TMain (smp_Message signParams);;
          match res with
          | Err err =>
              publishResponse TMain
                {| ResultType := Method nip47Request;
                   resp_Error := Some {| err_Code := NIP_47_ERROR_INTERNAL;
                                         err_Message := err |};
                   resp_Result := None |} []
          | Ok signature =>
              publishResponse TMain
                {| ResultType := Method nip47Request;
                   resp_Error := None;
                   resp_Result := Some (Nip47SignMessageResponse
                                          (smp_Message signParams) signature) |}
                []
          end
      end
  end.

(** ** HandleMultiPayKeysendEvent *)

Section MultiPayKeysend.

Variable request : Nip47Request.
Variable requestEvent : RequestEvent.
Variable app : App.

Definition keysendDTagValue (keysendInfo : Nip47MultiPayKeysendElement)
    : string :=
  if String.eqb (ks_Id keysendInfo) "" then ks_Pubkey keysendInfo
  else ks_Id keysendInfo.

Definition dTag (keysendInfo : Nip47MultiPayKeysendElement) : Tag :=
  ["d"; keysendDTagValue keysendInfo].

(** The record built before the insert: no key yet, no preimage. *)
Definition new_payment (keysendInfo : Nip47MultiPayKeysendElement) : Payment :=
  {| pay_ID := 0;
     pay_App := app;
     pay_RequestEvent := requestEvent;
     pay_Amount := uint (go_div (ks_Amount keysendInfo) 1000%Z);
     pay_Preimage := None |}.

Definition internal_error (err : string) : Nip47Response :=
  {| ResultType := Method request;
     resp_Error := Some {| err_Code := NIP_47_ERROR_INTERNAL;
                           err_Message := err |};
     resp_Result := None |}.

Definition pay_response (preimage : string) : Nip47Response :=
  {| ResultType := Method request;
     resp_Error := None;
     resp_Result := Some (Nip47PayResponse preimage) |}.

(** Where a goroutine stands in the body of the [go func]. Each point is
    the next call that leaves the goroutine; the local variables that are
    live there are carried along. *)
Inductive Pc :=
| PcCheckPermission
| PcPublishDenied (resp : Nip47Response)
| PcDbCreate
| PcSendKeysend (payment : Payment)
| PcAwaitKeysend (payment : Payment)
| PcLogFailed (err : string)
| PcPublishFailed (err : string)
| PcDbSave (payment : Payment) (preimage : string)
| PcLogSucceeded (preimage : string)
| PcPublishSucceeded (preimage : string)
| PcDeferDone
| PcExited.

(** One step of the goroutine of element number [i]. After the denial
    is published the body has no [return]: control goes on to the
    insert. The logrus calls write to the local log only and are left
    out. *)
Definition goroutine_step (i : nat)
    (keysendInfo : Nip47MultiPayKeysendElement) (pc : Pc) : M Pc :=
  let t := TGo i in
  match pc with
  | PcCheckPermission =>
      resp <-- svc_checkPermission t request (ByEvent requestEvent) app
                 (ks_Amount keysendInfo);;
      match resp with
      | Some resp => ret (PcPublishDenied resp)
      | None => ret PcDbCreate
      end
  | PcPublishDenied resp =>
      publishResponse t resp [dTag keysendInfo];;;
      ret PcDbCreate
  | PcDbCreate =>
      created <-- db_Create t (new_payment keysendInfo);;
      match snd created with
      | Some _ => ret PcDeferDone
      | None => ret (PcSendKeysend (fst created))
      end
  | PcSendKeysend payment =>
      SendKeysend_call t (ks_Amount keysendInfo) (ks_Pubkey keysendInfo)
        (ks_Preimage keysendInfo) (ks_TLVRecords keysendInfo);;;
      ret (PcAwaitKeysend payment)
  | PcAwaitKeysend payment =>
      res <-- SendKeysend_return t (ks_Amount keysendInfo)
                (ks_Pubkey keysendInfo) (ks_Preimage keysendInfo)
                (ks_TLVRecords keysendInfo);;
      match res with
      | Err err => ret (PcLogFailed err)
      | Ok preimage => ret (PcDbSave payment preimage)
      end
  | PcLogFailed err =>
      EventLogger_Log t "nwc_payment_failed" (Some err)
        (go_div (ks_Amount keysendInfo) 1000%Z);;;
      ret (PcPublishFailed err)
  | PcPublishFailed err =>
      publishResponse t (internal_error err) [dTag keysendInfo];;;
      ret PcDeferDone
  | PcDbSave payment preimage =>
      db_Save t (with_Preimage payment preimage);;;
      ret (PcLogSucceeded preimage)
  | PcLogSucceeded preimage =>
      EventLogger_Log t "nwc_payment_succeeded" None
        (go_div (ks_Amount keysendInfo) 1000%Z);;;
      ret (PcPublishSucceeded preimage)
  | PcPublishSucceeded preimage =>
      publishResponse t (pay_response preimage) [dTag keysendInfo];;;
      ret PcDeferDone
  | PcDeferDone => ret PcExited
  | PcExited => ret PcExited
  end.

Record Goroutine := {
  g_keysendInfo : Nip47MultiPayKeysendElement;
  g_pc : Pc
}.

(** The handler's own goroutine: decoding, the [for] loop that starts the
    workers, [wg.Wait()], and the return with its [err]. *)
Inductive MainPc :=
| MDecode
| MSpawn (rest : list Nip47MultiPayKeysendElement)
| MWait
| MReturned (err : option string).

Record State := {
  world : World;
  main : MainPc;
  goroutines : list Goroutine;
  wg : nat
}.

Definition is_exited (pc : Pc) : bool :=
  match pc with PcExited => true | _ => false end.

Definition is_defer_done (pc : Pc) : bool :=
  match pc with PcDeferDone => true | _ => false end.

(** One step of thread [t]. A thread that cannot move ([wg.Wait()] with a
    positive counter, a goroutine that has exited or was never started)
    leaves the state as it is. *)
Definition step (t : Tid) (st : State) : State :=
  match t with
  | TMain =>
      match main st with
      | MDecode =>
          match json_Unmarshal svc (Params request) with
          | Err err =>
              {| world := world st; main := MReturned (Some err);
                 goroutines := goroutines st; wg := wg st |}
          | Ok multiPayParams =>
              {| world := world st; main := MSpawn (Keysends multiPayParams);
                 goroutines := goroutines st; wg := wg st |}
          end
      | MSpawn (keysendInfo :: rest) =>
          {| world := world st; main := MSpawn rest;
             goroutines := goroutines st ++
               [{| g_keysendInfo := keysendInfo; g_pc := PcCheckPermission |}];
             wg := S (wg st) |}
      | MSpawn [] =>
          {| world := world st; main := MWait;
             goroutines := goroutines st; wg := wg st |}
      | MWait =>
          if Nat.eqb (wg st) 0
          then {| world := world st; main := MReturned None;
                  goroutines := goroutines st; wg := wg st |}
          else st
      | MReturned _ => st
      end
  | TGo i =>
      match goroutines st !! i with
      | None => st
      | Some g =>
          let (pc', w') :=
            goroutine_step i (g_keysendInfo g) (g_pc g) (world st) in
          {| world := w'; main := main st;
             goroutines :=
               <[i := {| g_keysendInfo := g_keysendInfo g; g_pc := pc' |}]>
                 (goroutines st);
             wg := if is_defer_done (g_pc g) then Nat.pred (wg st)
                   else wg st |}
      end
  end.

Definition init (ledger0 : list Payment) : State :=
  {| world := {| ledger := ledger0; trace := [] |};
     main := MDecode; goroutines := []; wg := 0 |}.

(** The handler under schedule [sched], from the ledger [ledger0]. *)
Definition HandleMultiPayKeysendEvent (ledger0 : list Payment)
    (sched : list Tid) : State :=
  fold_left (fun st t => step t st) sched (init ledger0).

(** The schedule that runs the handler's goroutine up to [wg.Wait()],
    then each worker to its end in turn, then the handler again. *)
Definition worker_steps : nat := 9.

Definition sequential_schedule (n : nat) : list Tid :=
  repeat TMain (S (S n)) ++
  flat_map (fun i => repeat (TGo i) worker_steps) (seq 0 n) ++
  [TMain].

End MultiPayKeysend.

End Handlers.

(** ** What a goroutine has done, read off the trace *)

(** The events of thread [t] after its [SendKeysend] call returned. *)
Fixpoint after_return (t : Tid) (tr : list Event) : list Event :=
  match tr with
  | [] => []
  | EvSendKeysendRet t' res :: tr' =>
      if Tid_eqb t' t then tr' else after_return t tr'
  | _ :: tr' => after_return t tr'
  end.

(** The ledger writes thread [t] made after its backend call returned. *)
Definition writes_after_return (t : Tid) (tr : list Event) : list Event :=
  List.filter is_ledger_write (after_return t (events_of t tr)).

Definition is_internal_error (r : Nip47Response) : bool :=
  match resp_Error r with
  | Some e => String.eqb (err_Code e) NIP_47_ERROR_INTERNAL
  | None => false
  end.

Section Shapes.

Variable request : Nip47Request.
Variable requestEvent : RequestEvent.
Variable app : App.

(** [p] is the record element [e] inserts, with the key it was given. *)
Definition created (e : Nip47MultiPayKeysendElement) (p : Payment) : Prop :=
  p = with_ID (new_payment requestEvent app e) (pay_ID p).

(** The permission check of element [e], and the publication of the
    denial when there is one. *)
Definition denial_events (i : nat) (e : Nip47MultiPayKeysendElement)
    (chk : option Nip47Response) : list Event :=
  match chk with
  | None => [EvCheckPermission (TGo i) (ks_Amount e) None]
  | Some r => [EvCheckPermission (TGo i) (ks_Amount e) (Some r);
               EvPublish (TGo i) r [dTag e]]
  end.

Definition call_event (i : nat) (e : Nip47MultiPayKeysendElement) : Event :=
  EvSendKeysendCall (TGo i) (ks_Amount e) (ks_Pubkey e) (ks_Preimage e)
    (ks_TLVRecords e).

(** The three ways the body of the goroutine ends after the check. *)
Inductive Outcome :=
| InsertFailed (err : string)
| BackendFailed (p : Payment) (err : string)
| Paid (p : Payment) (preimage : string) (save_err : option string).

Definition outcome_events (i : nat) (e : Nip47MultiPayKeysendElement)
    (o : Outcome) : list Event :=
  match o with
  | InsertFailed err =>
      [EvDbCreate (TGo i) (new_payment requestEvent app e) (Some err)]
  | BackendFailed p err =>
      [EvDbCreate (TGo i) p None;
       call_event i e;
       EvSendKeysendRet (TGo i) (Err err);
       EvEventLog (TGo i) "nwc_payment_failed" (Some err)
         (go_div (ks_Amount e) 1000%Z);
       EvPublish (TGo i) (internal_error request err) [dTag e]]
  | Paid p preimage save_err =>
      [EvDbCreate (TGo i) p None;
       call_event i e;
       EvSendKeysendRet (TGo i) (Ok preimage);
       EvDbSave (TGo i) (with_Preimage p preimage) save_err;
       EvEventLog (TGo i) "nwc_payment_succeeded" None
         (go_div (ks_Amount e) 1000%Z);
       EvPublish (TGo i) (pay_response request preimage) [dTag e]]
  end.

Definition outcome_ok (e : Nip47MultiPayKeysendElement) (o : Outcome) : Prop :=
  match o with
  | InsertFailed _ => True
  | BackendFailed p _ | Paid p _ _ => created e p
  end.

(** The events of goroutine [i] so far, as its program point dictates. *)
Definition unit_shape (i : nat) (e : Nip47MultiPayKeysendElement) (pc : Pc)
    (evs : list Event) : Prop :=
  match pc with
  | PcCheckPermission => evs = []
  | PcPublishDenied r =>
      evs = [EvCheckPermission (TGo i) (ks_Amount e) (Some r)]
  | PcDbCreate => exists chk, evs = denial_events i e chk
  | PcSendKeysend p =>
      exists chk, created e p /\
        evs = denial_events i e chk ++ [EvDbCreate (TGo i) p None]
  | PcAwaitKeysend p =>
      exists chk, created e p /\
        evs = denial_events i e chk ++
              [EvDbCreate (TGo i) p None; call_event i e]
  | PcLogFailed err =>
      exists chk p, created e p /\
        evs = denial_events i e chk ++
              firstn 3 (outcome_events i e (BackendFailed p err))
  | PcPublishFailed err =>
      exists chk p, created e p /\
        evs = denial_events i e chk ++
              firstn 4 (outcome_events i e (BackendFailed p err))
  | PcDbSave p preimage =>
      exists chk, created e p /\
        evs = denial_events i e chk ++
              firstn 3 (outcome_events i e (Paid p preimage None))
  | PcLogSucceeded preimage =>
      exists chk p save_err, created e p /\
        evs = denial_events i e chk ++
              firstn 4 (outcome_events i e (Paid p preimage save_err))
  | PcPublishSucceeded preimage =>
      exists chk p save_err, created e p /\
        evs = denial_events i e chk ++
              firstn 5 (outcome_events i e (Paid p preimage save_err))
  | PcDeferDone | PcExited =>
      exists chk o, outcome_ok e o /\
        evs = denial_events i e chk ++ outcome_events i e o
  end.

(** Goroutines that have not run their deferred [wg.Done()] yet. *)
Definition live (gs : list Goroutine) : nat :=
  length (List.filter (fun g => negb (is_exited (g_pc g))) gs).

(** An upper bound on the steps a goroutine still takes. *)
Definition rank (pc : Pc) : nat :=
  match pc with
  | PcCheckPermission => 9
  | PcPublishDenied _ => 8
  | PcDbCreate => 7
  | PcSendKeysend _ => 6
  | PcAwaitKeysend _ => 5
  | PcLogFailed _ | PcDbSave _ _ => 4
  | PcPublishFailed _ | PcLogSucceeded _ => 3
  | PcPublishSucceeded _ => 2
  | PcDeferDone => 1
  | PcExited => 0
  end.

Definition rank_at (st : State) (j : nat) : nat :=
  match goroutines st !! j with
  | Some g => rank (g_pc g)
  | None => 0
  end.

(** Each event is preceded by what the code does before it: the insert
    of a pending record before the backend call of the same goroutine,
    the successful return of that call before a record with a preimage
    is saved. *)
Definition precedes_ok (pre : list Event) (ev : Event) : Prop :=
  match ev with
  | EvDbCreate t p None => pay_Preimage p = None
  | EvSendKeysendCall t _ _ _ _ =>
      exists p, In (EvDbCreate t p None) pre /\ pay_Preimage p = None
  | EvDbSave t p _ =>
      forall x, pay_Preimage p = Some x -> In (EvSendKeysendRet t (Ok x)) pre
  | _ => True
  end.

Definition ordered (tr : list Event) : Prop :=
  forall pre ev post, tr = pre ++ ev :: post -> precedes_ok pre ev.

(** *** Invariants of the handler's states

    [ledger0] is the ledger when the handler is called. *)

Variable svc : Service.
Variable ledger0 : list Payment.

Definition threads_shape (st : State) : Prop :=
  forall i g, goroutines st !! i = Some g ->
    unit_shape i (g_keysendInfo g) (g_pc g)
      (events_of (TGo i) (trace (world st))).

(** Only started goroutines have events. *)
Definition trace_tids (st : State) : Prop :=
  forall ev, In ev (trace (world st)) ->
    exists i, ev_tid ev = TGo i /\ i < length (goroutines st).

(** The [WaitGroup] counter is the number of goroutines still running. *)
Definition wg_counts (st : State) : Prop :=
  wg st = live (goroutines st).

(** Where the handler's own goroutine stands. *)
Definition main_ok (st : State) : Prop :=
  match main st with
  | MDecode =>
      goroutines st = [] /\ world st = {| ledger := ledger0; trace := [] |}
  | MSpawn rest =>
      exists params, json_Unmarshal svc (Params request) = Ok params /\
        Keysends params = map g_keysendInfo (goroutines st) ++ rest
  | MWait =>
      exists params, json_Unmarshal svc (Params request) = Ok params /\
        Keysends params = map g_keysendInfo (goroutines st)
  | MReturned None =>
      exists params, json_Unmarshal svc (Params request) = Ok params /\
        Keysends params = map g_keysendInfo (goroutines st) /\
        forall i g, goroutines st !! i = Some g -> g_pc g = PcExited
  | MReturned (Some err) =>
      json_Unmarshal svc (Params request) = Err err /\
      goroutines st = [] /\ world st = {| ledger := ledger0; trace := [] |}
  end.

(** Every row is an old row, a row as inserted, or a row as saved. *)
Definition ledger_rows (st : State) : Prop :=
  forall r, In r (ledger (world st)) ->
    In r ledger0 \/
    exists t, In (EvDbCreate t r None) (trace (world st)) \/
              In (EvDbSave t r None) (trace (world st)).

Definition ids_bound (st : State) : Prop :=
  forall t p, In (EvDbCreate t p None) (trace (world st)) ->
    pay_ID p < next_id (ledger (world st)).

Definition ids_distinct (st : State) : Prop :=
  forall t t' p q,
    In (EvDbCreate t p None) (trace (world st)) ->
    In (EvDbCreate t' q None) (trace (world st)) ->
    pay_ID p = pay_ID q -> t = t'.

(** A goroutine saves the record it inserted, with the preimage the
    backend returned to it. *)
Definition saves_own (st : State) : Prop :=
  forall t q err, In (EvDbSave t q err) (trace (world st)) ->
    exists p x, q = with_Preimage p x /\
      In (EvDbCreate t p None) (trace (world st)) /\
      In (EvSendKeysendRet t (Ok x)) (trace (world st)).

(** A record stays in the ledger as inserted until its goroutine saves
    it. *)
Definition pending_kept (st : State) : Prop :=
  forall t p, In (EvDbCreate t p None) (trace (world st)) ->
    (forall q, ~ In (EvDbSave t q None) (trace (world st))) ->
    In p (ledger (world st)).

Definition Inv (st : State) : Prop :=
  threads_shape st /\ trace_tids st /\ wg_counts st /\ main_ok st /\
  ordered (trace (world st)) /\ ledger_rows st /\ ids_bound st /\
  ids_distinct st /\ saves_own st /\ pending_kept st.

End Shapes.

(** ** A concrete service, for running the handlers *)

Module Demo.

Definition app : App := {| app_ID := 7; app_NostrPubkey := "a1b2" |}.

Definition requestEvent : RequestEvent :=
  {| NostrId := "ev42"; req_Content := "" |}.

Definition keysend_request (params : string) : Nip47Request :=
  {| Method := "multi_pay_keysend"; Params := params |}.

Definition sign_request (message : string) : Nip47Request :=
  {| Method := "sign_message"; Params := message |}.

Definition error_response (method code message : string) : Nip47Response :=
  {| ResultType := method;
     resp_Error := Some {| err_Code := code; err_Message := message |};
     resp_Result := None |}.

(** A budget of 50000 msat per call; a recipient [03bad] that cannot be
    reached; a signer that refuses the message [forbidden]; a payload
    [[]] (an array where an object is expected) that does not decode; a
    ledger whose inserts fail with [create_error] when one is given. *)
Definition service (create_error : option string)
    (batch : list Nip47MultiPayKeysendElement) : Service :=
  {| checkPermission := fun _ r _ _ amount =>
       if Z.ltb 50000%Z amount
       then Some (error_response (Method r) "QUOTA_EXCEEDED" "budget exceeded")
       else None;
     decodeNip47Request := fun r _ _ =>
       if String.eqb (Params r) "[]"
       then ({| smp_Message := "" |},
             Some (error_response (Method r) "BAD_REQUEST" "cannot decode"))
       else ({| smp_Message := Params r |}, None);
     json_Unmarshal := fun s =>
       if String.eqb s "[]"
       then Err "json: cannot unmarshal array into Go value"
       else Ok {| Keysends := batch |};
     lnClient_SignMessage := fun _ m =>
       if String.eqb m "forbidden" then Err "signer refused"
       else Ok (String.append "sig:" m);
     lnClient_SendKeysend := fun _ _ pubkey _ _ =>
       if String.eqb pubkey "03bad" then Err "no route"
       else Ok (String.append "pre:" pubkey);
     db_Create_Error := fun _ _ => create_error;
     db_Save_Error := fun _ _ => None |}.

Definition element (id pubkey : string) (amount : Z)
    : Nip47MultiPayKeysendElement :=
  {| ks_Id := id; ks_Pubkey := pubkey; ks_Amount := amount;
     ks_Preimage := ""; ks_TLVRecords := [] |}.

(** Element 0 is paid, element 1 is over budget, element 2 fails at the
    backend. *)
Definition batch3 : list Nip47MultiPayKeysendElement :=
  [element "" "02aa" 21000%Z; element "k2" "02bb" 90000%Z;
   element "" "03bad" 3000%Z].

Definition batch_ok : list Nip47MultiPayKeysendElement :=
  [element "" "02aa" 21000%Z; element "k3" "02cc" 3000%Z].

(** Main and the three workers take turns. *)
Definition round_robin (rounds : nat) : list Tid :=
  flat_map (fun _ => [TMain; TGo 2; TGo 0; TGo 1]) (seq 0 rounds).

Definition run (create_error : option string)
    (batch : list Nip47MultiPayKeysendElement) (params : string)
    (sched : list Tid) : State :=
  HandleMultiPayKeysendEvent (service create_error batch)
    (keysend_request params) requestEvent app [] sched.

Definition run_sign (message : string) : World :=
  snd (HandleSignMessageEvent (service None []) (sign_request message)
         requestEvent app {| ledger := []; trace := [] |}).

(** The batch of three, goroutines interleaved. *)
Definition run_batch3 : State := run None batch3 "{}" (round_robin 12).

(** Two elements within budget, one goroutine after the other. *)
Definition run_batch_ok : State :=
  run None batch_ok "{}" (sequential_schedule 2).

(** One element, and a ledger that refuses the insert. *)
Definition run_db_down : State :=
  run (Some "database is locked") [element "" "02aa" 21000%Z] "{}"
    (sequential_schedule 1).

(** One element whose recipient cannot be reached. *)
Definition run_unreachable : State :=
  run None [element "" "03bad" 3000%Z] "{}" (sequential_schedule 1).

(** A payload that does not decode. *)
Definition run_malformed : State :=
  run None batch3 "[]" (sequential_schedule 3).

Definition pending_payment (id : nat) (amount : Z) : Payment :=
  {| pay_ID := id; pay_App := app; pay_RequestEvent := requestEvent;
     pay_Amount := amount; pay_Preimage := None |}.

Definition empty_world : World := {| ledger := []; trace := [] |}.

(** One element over budget whose recipient cannot be reached. *)
Definition run_denied_unreachable : State :=
  run None [element "" "03bad" 90000%Z] "{}" (sequential_schedule 1).

(** Two elements within budget, and a ledger that refuses the inserts. *)
Definition run_db_down_two : State :=
  run (Some "database is locked") batch_ok "{}" (sequential_schedule 2).

End Demo.

(** ** Further observations of the batch handler *)

Definition is_insert (ev : Event) : bool :=
  match ev with
  | EvDbCreate _ _ _ => true
  | _ => false
  end.

(** The keys the handler hands out are new, and the rows that were in
    the ledger before it ran stay. *)
Definition old_rows_kept (ledger0 : list Payment) (st : State) : Prop :=
  next_id ledger0 <= next_id (ledger (world st)) /\
  (forall t p, In (EvDbCreate t p None) (trace (world st)) ->
     next_id ledger0 <= pay_ID p) /\
  (forall r, In r ledger0 -> In r (ledger (world st))).

(** A goroutine saves after it inserted and after its backend call
    returned with success: the record saved is the one this goroutine
    inserted, with the preimage that was returned to it. *)
Definition saves_after_insert (st : State) : Prop :=
  forall pre t q err post,
    trace (world st) = pre ++ EvDbSave t q err :: post ->
    exists p x, q = with_Preimage p x /\
      In (EvDbCreate t p None) pre /\
      In (EvSendKeysendRet t (Ok x)) pre.

(** A record saved without error is in the ledger as saved. *)
Definition saved_kept (st : State) : Prop :=
  forall t q, In (EvDbSave t q None) (trace (world st)) ->
    In q (ledger (world st)).

(** How many steps of the schedule belong to the handler's own
    goroutine. *)
Definition main_steps (sched : list Tid) : nat :=
  length (List.filter (Tid_eqb TMain) sched).

(** Where the handler's own goroutine stands after [k] of its steps on
    an empty batch. *)
Definition main_after_empty (k : nat) : MainPc :=
  match k with
  | 0 => MDecode
  | 1 => MSpawn []
  | 2 => MWait
  | _ => MReturned None
  end.

(** The steps the handler's own goroutine needs to reach [wg.Wait()] on a
    batch of [n] elements. *)
Definition steps_to_wait (n : nat) (m : MainPc) : nat :=
  match m with
  | MDecode => S (S n)
  | MSpawn rest => S (length rest)
  | MWait | MReturned _ => 0
  end.

(** ** The web front end: [AlbyOAuthService]

    The handlers of the echo server are functions of the database and of
    the request context (the session that [session.Get] returns, and the
    path, form and query parameters), to the database, the session as it
    is handed to [sess.Save], and the response. The [users] and [apps]
    tables are lists of rows; the gorm calls with a reading that the
    source fixes ([Where("user_id = ?", ...)], [Preload("Apps")],
    [Delete] by primary key) are written out, the others are
    collaborators. *)

Module Web.

(** [http.StatusOK] and [http.StatusMovedPermanently]. *)
Definition StatusOK : nat := 200.
Definition StatusMovedPermanently : nat := 301.

Record User := {
  user_ID : nat;
  AlbyIdentifier : string;
  AccessToken : string;
  RefreshToken : string;
  Expiry : Z
}.

(** The [App] struct with the columns the web handlers use. *)
Record AppRow := {
  row_ID : nat;
  row_UserId : nat;
  row_Name : string;
  row_Description : string;
  row_NostrPubkey : string
}.

(** [User{}] and [App{}]. *)
Definition zero_User : User :=
  {| user_ID := 0; AlbyIdentifier := ""; AccessToken := "";
     RefreshToken := ""; Expiry := 0%Z |}.

Definition zero_App : AppRow :=
  {| row_ID := 0; row_UserId := 0; row_Name := ""; row_Description := "";
     row_NostrPubkey := "" |}.

Record DB := {
  users : list User;
  apps : list AppRow
}.

Record Config := {
  IdentityPubkey : string;
  Relay : string;
  AlbyAPIURL : string
}.

(** A value of [sess.Values]: the handlers store [user.ID] and the empty
    string. *)
Inductive SessVal :=
| SvString (s : string)
| SvUint (n : nat).

Record Options := {
  opt_Path : string;
  opt_MaxAge : Z
}.

Record Session := {
  Values : gmap string SessVal;
  sess_Options : Options
}.

Record Context := {
  ctx_session : Session;
  Param : string -> string;
  FormValue : string -> string;
  QueryParam : string -> string
}.

(** The data handed to a template. *)
Inductive PageData :=
| NoData
| AppsIndexData (NostrWalletConnect : string) (Apps : list AppRow)
    (user : User)
| AppsShowData (app : AppRow) (user : User)
| AppsNewData (user : User).

(** A parsed template: the files it was parsed from. *)
Record Template := { parsed_files : list string }.

Record TemplateRegistry := {
  templates : gmap string Template
}.

(** What the handler gives back: a response written to the client, the
    error it returned, or a panic (here of a type assertion), which
    echo's [Recover] middleware catches. *)
Inductive Response :=
| Redirect (code : nat) (url : string)
| HTMLBlob (code : nat) (html : string)
| Blob (code : nat) (contentType : string) (b : string)
| ReturnedError (err : string)
| Panicked.

Record Result := {
  res_db : DB;
  res_session : Session;
  res_response : Response
}.

Record Token := {
  tok_AccessToken : string;
  tok_RefreshToken : string;
  tok_Expiry : Z
}.

Record PayRequest := { Invoice : string }.

Record PayResponse := {
  pr_Preimage : string;
  pr_PaymentHash : string
}.

Record HttpRequest := {
  req_url : string;
  req_token : Token;
  req_contentType : string;
  req_payload : PayRequest
}.

Record HttpResponse := {
  StatusCode : Z;
  Body : string
}.

Record AlbyMe := {
  Identifier : string;
  NPub : string;
  LightningAddress : string
}.

(** The second result of [nip19.Decode] is an [any]: a string for an
    [npub], something else for the other prefixes. *)
Inductive Nip19Value :=
| NvString (s : string)
| NvOther.

(** ** Collaborators of the web front end

    - [find_user]: [db.First(&user, userID)], where [userID] is whatever
      the session holds.
    - [inline_primary_key]: how gorm reads the inline argument of
      [First(&app, c.Param("id"))]: the primary key when the text is a
      number, and otherwise ([None]) the text goes into the query as
      SQL.
    - [First_app_by_sql]: what the query finds in that case.
    - [Delete_blank]: [db.Delete(&app)] on a struct whose primary key
      is blank.
    - [Append_without_owner]: [Association("Apps").Append] on a [User]
      that was not found.
    - [Append_Error], [Delete_Error]: whether the write fails (the
      handlers ignore the error).
    - [First_app_by_pubkey]: [db.Preload("User").First(&app,
      &App{NostrPubkey: ...})] with its [Error].
    - [ExecuteTemplate]: the bytes written and the error.
    - [QueryEscape], [AuthCodeURL], [qrcode_Encode], [client_Post],
      [json_Decode_PayResponse], [Exchange], [client_Get],
      [json_Decode_AlbyMe], [nip19_Decode]: the libraries of the same
      names.
    - [FirstOrInit_user], [Save_user], [FirstOrInit_app], [Save_app]:
      the gorm calls of [CallbackHandler]; [Save_user] also gives the
      struct back, with the key the database assigned. *)
Record Deps := {
  find_user : DB -> SessVal -> option User;
  inline_primary_key : string -> option nat;
  First_app_by_sql : DB -> User -> string -> option AppRow;
  Delete_blank : DB -> DB;
  Append_without_owner : DB -> string -> string -> DB;
  Append_Error : DB -> bool;
  Delete_Error : DB -> bool;
  First_app_by_pubkey : DB -> string -> GoResult (AppRow * User);
  ExecuteTemplate : Template -> string -> PageData -> string * option string;
  QueryEscape : string -> string;
  AuthCodeURL : string -> string;
  qrcode_Encode : string -> GoResult string;
  client_Post : HttpRequest -> GoResult HttpResponse;
  json_Decode_PayResponse : string -> GoResult PayResponse;
  Exchange : string -> GoResult Token;
  client_Get : Token -> string -> GoResult string;
  json_Decode_AlbyMe : string -> GoResult AlbyMe;
  nip19_Decode : string -> GoResult Nip19Value;
  FirstOrInit_user : DB -> string -> User;
  Save_user : DB -> User -> DB * User;
  FirstOrInit_app : DB -> nat -> string -> AppRow;
  Save_app : DB -> AppRow -> DB
}.

Record AlbyOAuthService := {
  cfg : Config;
  e_Renderer : TemplateRegistry
}.

(** *** gorm on the [apps] table *)

(** The first row, in the order of the primary key, that satisfies
    [P]. *)
Fixpoint first_by_pk (P : AppRow -> bool) (rows : list AppRow)
    : option AppRow :=
  match rows with
  | [] => None
  | r :: rows' =>
      let rest := first_by_pk P rows' in
      if P r then
        match rest with
        | Some r' => if Nat.ltb (row_ID r') (row_ID r) then Some r'
                     else Some r
        | None => Some r
        end
      else rest
  end.

(** [Preload("Apps")]: the rows whose [user_id] is the user's key. *)
Definition Preload_Apps (db : DB) (user : User) : list AppRow :=
  List.filter (fun a => Nat.eqb (row_UserId a) (user_ID user)) (apps db).

Definition next_app_id (rows : list AppRow) : nat :=
  S (fold_right Nat.max 0 (map row_ID rows)).

(** [db.Delete(&app)]: the rows with the key of [app] go; a blank key
    gives gorm no row to delete by. *)
Definition db_Delete (deps : Deps) (db : DB) (app : AppRow) : DB :=
  if Delete_Error deps db then db
  else if Nat.eqb (row_ID app) 0 then Delete_blank deps db
  else {| users := users db;
          apps := List.filter
                    (fun a => negb (Nat.eqb (row_ID a) (row_ID app)))
                    (apps db) |}.

Section Handlers.

Variable deps : Deps.
Variable svc : AlbyOAuthService.

(** [TemplateRegistry.Render]: the bytes written to [w] and the
    error. *)
Definition Render (t : TemplateRegistry) (name : string) (data : PageData)
    : string * option string :=
  match templates t !! name with
  | None => ("", Some (String.append "Template not found -> " name))
  | Some tmpl => ExecuteTemplate deps tmpl "layout.html" data
  end.

(** echo's [c.Render]: render into a buffer, then write it with the
    status code; on error nothing is written. *)
Definition c_Render (code : nat) (name : string) (data : PageData)
    : Response :=
  match Render (e_Renderer svc) name data with
  | (_, Some err) => ReturnedError err
  | (html, None) => HTMLBlob code html
  end.

Definition respond (db : DB) (c : Context) (r : Response) : Result :=
  {| res_db := db; res_session := ctx_session c; res_response := r |}.

(** The user of the session and, with [Preload("Apps")], their apps;
    [User{}] without apps when [First] finds nothing. *)
Definition load_user (db : DB) (userID : SessVal) : User :=
  match find_user deps db userID with
  | Some u => u
  | None => zero_User
  end.

Definition load_apps (db : DB) (userID : SessVal) : list AppRow :=
  match find_user deps db userID with
  | Some u => Preload_Apps db u
  | None => []
  end.

(** [svc.db.Where("user_id = ?", user.ID).First(&app, c.Param("id"))];
    [App{}] stays as it is when nothing is found. *)
Definition load_app (db : DB) (user : User) (id : string) : AppRow :=
  let found :=
    match inline_primary_key deps id with
    | Some n =>
        first_by_pk
          (fun a => Nat.eqb (row_UserId a) (user_ID user) &&
                    Nat.eqb (row_ID a) n) (apps db)
    | None => First_app_by_sql deps db user id
    end in
  match found with
  | Some a => a
  | None => zero_App
  end.

Definition IndexHandler (db : DB) (c : Context) : Result :=
  respond db c (c_Render StatusOK "index.html" NoData).

Definition LogoutHandler (db : DB) (c : Context) : Result :=
  let sess := ctx_session c in
  let values := delete "user_id" (<["user_id" := SvString ""]> (Values sess)) in
  {| res_db := db;
     res_session := {| Values := values;
                       sess_Options := {| opt_Path := "";
                                          opt_MaxAge := (-1)%Z |} |};
     res_response := Redirect StatusMovedPermanently "/" |}.

Definition AppsListHandler (db : DB) (c : Context) : Result :=
  match Values (ctx_session c) !! "user_id" with
  | None => respond db c (Redirect StatusMovedPermanently "/alby/auth")
  | Some userID =>
      let user := load_user db userID in
      let apps := load_apps db userID in
      respond db c
        (c_Render StatusOK "apps/index.html"
           (AppsIndexData
              (String.append (IdentityPubkey (cfg svc))
                 (String.append "?relay="
                    (QueryEscape deps (Relay (cfg svc)))))
              apps user))
  end.

Definition AppsShowHandler (db : DB) (c : Context) : Result :=
  match Values (ctx_session c) !! "user_id" with
  | None => respond db c (Redirect StatusMovedPermanently "/alby/auth")
  | Some userID =>
      let user := load_user db userID in
      let app := load_app db user (Param c "id") in
      respond db c (c_Render StatusOK "apps/show.html" (AppsShowData app user))
  end.

Definition AppsNewHandler (db : DB) (c : Context) : Result :=
  match Values (ctx_session c) !! "user_id" with
  | None => respond db c (Redirect StatusMovedPermanently "/alby/auth")
  | Some userID =>
      let user := load_user db userID in
      respond db c (c_Render StatusOK "apps/new.html" (AppsNewData user))
  end.

(** [Association("Apps").Append(&App{Name: ..., NostrPubkey: ...})]: the
    new row gets the user's key as [user_id]. *)
Definition Association_Apps_Append (db : DB) (userID : SessVal)
    (name pubkey : string) : DB :=
  match find_user deps db userID with
  | None => Append_without_owner deps db name pubkey
  | Some user =>
      if Append_Error deps db then db
      else {| users := users db;
              apps := apps db ++
                [{| row_ID := next_app_id (apps db);
                    row_UserId := user_ID user;
                    row_Name := name;
                    row_Description := "";
                    row_NostrPubkey := pubkey |}] |}
  end.

Definition AppsCreateHandler (db : DB) (c : Context) : Result :=
  match Values (ctx_session c) !! "user_id" with
  | None => respond db c (Redirect StatusMovedPermanently "/alby/auth")
  | Some userID =>
      let db' := Association_Apps_Append db userID (FormValue c "name")
                   (FormValue c "pubkey") in
      respond db' c (Redirect StatusMovedPermanently "/apps")
  end.

Definition AppsDeleteHandler (db : DB) (c : Context) : Result :=
  match Values (ctx_session c) !! "user_id" with
  | None => respond db c (Redirect StatusMovedPermanently "/alby/auth")
  | Some userID =>
      let user := load_user db userID in
      let app := load_app db user (Param c "id") in
      respond (db_Delete deps db app) c
        (Redirect StatusMovedPermanently "/apps")
  end.

Definition AuthHandler (db : DB) (c : Context) : Result :=
  respond db c (Redirect StatusMovedPermanently (AuthCodeURL deps "")).

Definition QRHandler (db : DB) (c : Context) : Result :=
  match qrcode_Encode deps
          (String.append "nostrwalletconnect://"
             (String.append (IdentityPubkey (cfg svc))
                (String.append "?relay=" (Relay (cfg svc))))) with
  | Err err => respond db c (ReturnedError err)
  | Ok img => respond db c (Blob StatusOK "img/png" img)
  end.

(** [SendPaymentSync]: the preimage and the error it returns, and the
    HTTP requests it made. *)
Definition SendPaymentSync (db : DB) (senderPubkey payReq : string)
    : (string * option string) * list HttpRequest :=
  match First_app_by_pubkey deps db senderPubkey with
  | Err err => (("", Some err), [])
  | Ok (app, user) =>
      let req :=
        {| req_url := String.append (AlbyAPIURL (cfg svc)) "/payments/bolt11";
           req_token := {| tok_AccessToken := AccessToken user;
                           tok_RefreshToken := RefreshToken user;
                           tok_Expiry := Expiry user |};
           req_contentType := "application/json";
           req_payload := {| Invoice := payReq |} |} in
      match client_Post deps req with
      | Err err => (("", Some err), [req])
      | Ok resp =>
          match json_Decode_PayResponse deps (Body resp) with
          | Err err => (("", Some err), [req])
          | Ok responsePayload =>
              if Z.ltb (StatusCode resp) 300
              then ((pr_Preimage responsePayload, None), [req])
              else (("", Some "Failed"), [req])
          end
      end
  end.

(** [CallbackHandler]: the four calls that can fail come first; the
    type assertion [pubkey.(string)] panics when the decoded value is not
    a string, after the user has been saved. *)
Definition CallbackHandler (db : DB) (c : Context) : Result :=
  let code := QueryParam c "code" in
  match Exchange deps code with
  | Err err => respond db c (ReturnedError err)
  | Ok tok =>
      match client_Get deps tok
              (String.append (AlbyAPIURL (cfg svc)) "/user/me") with
      | Err err => respond db c (ReturnedError err)
      | Ok body =>
          match json_Decode_AlbyMe deps body with
          | Err err => respond db c (ReturnedError err)
          | Ok me =>
              match nip19_Decode deps (NPub me) with
              | Err err => respond db c (ReturnedError err)
              | Ok pubkey =>
                  let user := FirstOrInit_user deps db (Identifier me) in
                  let user :=
                    {| user_ID := user_ID user;
                       AlbyIdentifier := AlbyIdentifier user;
                       AccessToken := tok_AccessToken tok;
                       RefreshToken := tok_RefreshToken tok;
                       Expiry := tok_Expiry tok |} in
                  let (db1, user) := Save_user deps db user in
                  match pubkey with
                  | NvOther => respond db1 c Panicked
                  | NvString pubkey =>
                      let app :=
                        FirstOrInit_app deps db1 (user_ID user) pubkey in
                      let app :=
                        {| row_ID := row_ID app;
                           row_UserId := row_UserId app;
                           row_Name := LightningAddress me;
                           row_Description :=
                             "All apps with your private key";
                           row_NostrPubkey := row_NostrPubkey app |} in
                      let db2 := Save_app deps db1 app in
                      {| res_db := db2;
                         res_session :=
                           {| Values := <["user_id" := SvUint (user_ID user)]>
                                          (Values (ctx_session c));
                              sess_Options := {| opt_Path := "/";
                                                 opt_MaxAge := 0%Z |} |};
                         res_response :=
                           Redirect StatusMovedPermanently "/apps" |}
                  end
              end
          end
      end
  end.

End Handlers.

(** The template map that [NewAlbyOauthService] builds. *)
Definition parse (view : string) : Template :=
  {| parsed_files := [view; "views/layout.html"] |}.

Definition NewAlbyOauthService_templates : gmap string Template :=
  <["index.html" := parse "views/index.html"]>
    (<["apps/show.html" := parse "views/apps/show.html"]>
       (<["apps/new.html" := parse "views/apps/new.html"]>
          (<["apps/index.html" := parse "views/apps/index.html"]> ∅))).

(** The handlers of this file that [NewAlbyOauthService] routes to. *)
Inductive HandlerId :=
| HIndex | HAuth | HCallback | HAppsList | HAppsNew | HQR | HAppsShow
| HAppsCreate | HAppsDelete | HLogout.

(** The routes ([/public/*] serves the embedded assets and is not one
    of them). *)
Definition routes : list (string * string * HandlerId) :=
  [("GET", "/", HIndex);
   ("GET", "/alby/auth", HAuth);
   ("GET", "/alby/callback", HCallback);
   ("GET", "/apps", HAppsList);
   ("GET", "/apps/new", HAppsNew);
   ("GET", "/qr", HQR);
   ("GET", "/apps/:id", HAppsShow);
   ("POST", "/apps", HAppsCreate);
   ("POST", "/apps/delete/:id", HAppsDelete);
   ("GET", "/logout", HLogout)].

Definition NewAlbyOauthService (config : Config) : AlbyOAuthService :=
  {| cfg := config;
     e_Renderer := {| templates := NewAlbyOauthService_templates |} |}.

(** The handler behind a route. *)
Definition handler_of (deps : Deps) (svc : AlbyOAuthService) (h : HandlerId)
    : option (DB -> Context -> Result) :=
  match h with
  | HIndex => Some (IndexHandler deps svc)
  | HAuth => Some (AuthHandler deps)
  | HCallback => Some (CallbackHandler deps svc)
  | HAppsList => Some (AppsListHandler deps svc)
  | HAppsNew => Some (AppsNewHandler deps svc)
  | HQR => Some (QRHandler deps svc)
  | HAppsShow => Some (AppsShowHandler deps svc)
  | HAppsCreate => Some (AppsCreateHandler deps)
  | HAppsDelete => Some (AppsDeleteHandler deps)
  | HLogout => Some LogoutHandler
  end.

(** A concrete front end, for running the handlers: two users, three
    apps, user 1 logged in. *)
Module Sample.

Definition alice : User :=
  {| user_ID := 1; AlbyIdentifier := "alice"; AccessToken := "at-alice";
     RefreshToken := "rt-alice"; Expiry := 1700000000%Z |}.

Definition bob : User :=
  {| user_ID := 2; AlbyIdentifier := "bob"; AccessToken := "at-bob";
     RefreshToken := "rt-bob"; Expiry := 1700000000%Z |}.

Definition app_row (id owner : nat) (name pubkey : string) : AppRow :=
  {| row_ID := id; row_UserId := owner; row_Name := name;
     row_Description := ""; row_NostrPubkey := pubkey |}.

Definition db : DB :=
  {| users := [alice; bob];
     apps := [app_row 1 1 "wallet" "a1"; app_row 2 2 "shop" "b2";
              app_row 3 1 "game" "a3"] |}.

Definition parse_id (s : string) : nat :=
  if String.eqb s "1" then 1 else if String.eqb s "2" then 2
  else if String.eqb s "3" then 3 else 0.

(** The database finds a user by key and reads [1], [2] and [3] as
    keys; the API pays every invoice but [lnbc-expired]. *)
Definition deps : Deps :=
  {| find_user := fun db v =>
       match v with
       | SvUint n => List.find (fun u => Nat.eqb (user_ID u) n) (users db)
       | SvString _ => None
       end;
     inline_primary_key := fun id =>
       match parse_id id with
       | 0 => None
       | n => Some n
       end;
     First_app_by_sql := fun _ _ _ => None;
     Delete_blank := fun db => db;
     Append_without_owner := fun db _ _ => db;
     Append_Error := fun _ => false;
     Delete_Error := fun _ => false;
     First_app_by_pubkey := fun db pubkey =>
       match List.find (fun a => String.eqb (row_NostrPubkey a) pubkey)
               (apps db) with
       | None => Err "record not found"
       | Some a =>
           match List.find (fun u => Nat.eqb (user_ID u) (row_UserId a))
                   (users db) with
           | Some u => Ok (a, u)
           | None => Ok (a, zero_User)
           end
       end;
     ExecuteTemplate := fun tmpl layout _ =>
       (String.append "<html>" (String.concat "," (parsed_files tmpl)), None);
     QueryEscape := fun s => s;
     AuthCodeURL := fun _ => "https://getalby.example/oauth";
     qrcode_Encode := fun s => Ok (String.append "png:" s);
     client_Post := fun req =>
       if String.eqb (Invoice (req_payload req)) "lnbc-expired"
       then Ok {| StatusCode := 400%Z; Body := "expired" |}
       else Ok {| StatusCode := 200%Z; Body := "paid" |};
     json_Decode_PayResponse := fun body =>
       Ok {| pr_Preimage := String.append "pre:" body;
             pr_PaymentHash := "hash" |};
     Exchange := fun code =>
       if String.eqb code "stale" then Err "oauth2: cannot fetch token"
       else Ok {| tok_AccessToken := String.append "at:" code;
                  tok_RefreshToken := String.append "rt:" code;
                  tok_Expiry := 1800000000%Z |};
     client_Get := fun _ _ => Ok "me";
     json_Decode_AlbyMe := fun _ =>
       Ok {| Identifier := "alice"; NPub := "npub1alice";
             LightningAddress := "alice@getalby.example" |};
     nip19_Decode := fun _ => Ok (NvString "a1");
     FirstOrInit_user := fun db identifier =>
       match List.find (fun u => String.eqb (AlbyIdentifier u) identifier)
               (users db) with
       | Some u => u
       | None => {| user_ID := 0; AlbyIdentifier := identifier;
                    AccessToken := ""; RefreshToken := ""; Expiry := 0%Z |}
       end;
     Save_user := fun db u =>
       ({| users := map (fun v => if Nat.eqb (user_ID v) (user_ID u) then u
                                  else v) (users db);
           apps := apps db |}, u);
     FirstOrInit_app := fun db owner pubkey =>
       match List.find (fun a => Nat.eqb (row_UserId a) owner &&
                                 String.eqb (row_NostrPubkey a) pubkey)
               (apps db) with
       | Some a => a
       | None => {| row_ID := 0; row_UserId := owner; row_Name := "";
                    row_Description := ""; row_NostrPubkey := pubkey |}
       end;
     Save_app := fun db a =>
       {| users := users db;
          apps := map (fun b => if Nat.eqb (row_ID b) (row_ID a) then a
                                else b) (apps db) |} |}.

Definition config : Config :=
  {| IdentityPubkey := "c0ffee"; Relay := "wss://relay.example";
     AlbyAPIURL := "https://api.example" |}.

Definition svc : AlbyOAuthService := NewAlbyOauthService config.

Definition session_of (v : option SessVal) : Session :=
  {| Values := match v with
               | Some v => <["user_id" := v]> ∅
               | None => ∅
               end;
     sess_Options := {| opt_Path := "/"; opt_MaxAge := 0%Z |} |}.

Definition context (v : option SessVal) (id : string) : Context :=
  {| ctx_session := session_of v;
     Param := fun k => if String.eqb k "id" then id else "";
     FormValue := fun k =>
       if String.eqb k "name" then "new app"
       else if String.eqb k "pubkey" then "a9" else "";
     QueryParam := fun _ => "" |}.

(** The request that comes back from the login page with [code]. *)
Definition callback_context (code : string) : Context :=
  {| ctx_session := session_of None;
     Param := fun _ => "";
     FormValue := fun _ => "";
     QueryParam := fun k => if String.eqb k "code" then code else "" |}.

End Sample.

End Web.

(** * Properties *)

(** ** Traces *)

Lemma published_app (a b : list Event) :
  published (a ++ b) = published a ++ published b.
Proof.
  induction a as [|ev a IH]; simpl; [reflexivity|].
  destruct ev; simpl; rewrite ?IH; reflexivity.
Qed.

Lemma events_of_app (t : Tid) (a b : list Event) :
  events_of t (a ++ b) = events_of t a ++ events_of t b.
Proof. unfold events_of. apply List.filter_app. Qed.

Lemma Tid_eqb_eq (a b : Tid) : Tid_eqb a b = true <-> a = b.
Proof.
  destruct a, b; simpl; try (split; congruence).
  rewrite Nat.eqb_eq. split; congruence.
Qed.

Lemma Tid_eqb_refl (a : Tid) : Tid_eqb a a = true.
Proof. apply Tid_eqb_eq. reflexivity. Qed.

Lemma Tid_eqb_neq (a b : Tid) : a <> b -> Tid_eqb a b = false.
Proof.
  intros H. destruct (Tid_eqb a b) eqn:E; [|reflexivity].
  apply Tid_eqb_eq in E. contradiction.
Qed.

Lemma events_of_In (t : Tid) (ev : Event) (tr : list Event) :
  In ev (events_of t tr) <-> In ev tr /\ ev_tid ev = t.
Proof. unfold events_of. rewrite List.filter_In, Tid_eqb_eq. tauto. Qed.

(** ** sign_message *)

Section SignMessage.

Variable svc : Service.
Variable nip47Request : Nip47Request.
Variable requestEvent : RequestEvent.
Variable app : App.

(** What [HandleSignMessageEvent] adds to the trace, by the gate at
    which it publishes. *)
Lemma HandleSignMessageEvent_trace (w : World) :
  let w' := snd (HandleSignMessageEvent svc nip47Request requestEvent app w) in
  let dec := decodeNip47Request svc nip47Request requestEvent app in
  let chk := checkPermission svc w nip47Request
               (ByNostrId (NostrId requestEvent)) app 0%Z in
  ledger w' = ledger w /\
  exists new, trace w' = trace w ++ new /\
    match snd dec, chk with
    | Some r, _ => new = [EvPublish TMain r []]
    | None, Some r =>
        new = [EvCheckPermission TMain 0%Z (Some r); EvPublish TMain r []]
    | None, None =>
        exists res r,
          new = [EvCheckPermission TMain 0%Z None;
                 EvSignMessageCall TMain (smp_Message (fst dec));
                 EvSignMessageRet TMain res;
                 EvPublish TMain r []] /\
          ResultType r = Method nip47Request /\
          match res with
          | Err err =>
              resp_Error r = Some {| err_Code := NIP_47_ERROR_INTERNAL;
                                     err_Message := err |} /\
              resp_Result r = None
          | Ok signature =>
              resp_Error r = None /\
              resp_Result r = Some (Nip47SignMessageResponse
                                      (smp_Message (fst dec)) signature)
          end
    end.
Proof.
  unfold HandleSignMessageEvent. cbv zeta.
  destruct (decodeNip47Request svc nip47Request requestEvent app)
    as [signParams [r|]]; simpl.
  - split; [reflexivity|]. eexists; split; reflexivity.
  - unfold bind, svc_checkPermission. simpl.
    destruct (checkPermission svc w nip47Request
                (ByNostrId (NostrId requestEvent)) app 0%Z) as [r|]; simpl.
    + split; [reflexivity|]. eexists; split;
        [rewrite <- app_assoc; reflexivity | reflexivity].
    + match goal with
      | |- context [lnClient_SignMessage svc ?w0 ?m] =>
          destruct (lnClient_SignMessage svc w0 m) as [sig|err] eqn:E
      end; simpl; (split; [reflexivity|]);
        eexists; (split; [rewrite <- !app_assoc; simpl; reflexivity|]);
        do 2 eexists; (split; [rewrite ?E; reflexivity|]); simpl; auto.
Qed.

End SignMessage.

(** ** multi_pay_keysend: one goroutine *)

Section Batch.

Variable svc : Service.
Variable request : Nip47Request.
Variable requestEvent : RequestEvent.
Variable app : App.
Variable ledger0 : list Payment.

Local Abbreviation gstep := (goroutine_step svc request requestEvent app).
Local Abbreviation stepf := (step svc request requestEvent app).
Local Abbreviation shape := (unit_shape request requestEvent app).
Local Abbreviation handler :=
  (HandleMultiPayKeysendEvent svc request requestEvent app).

Ltac unfold_ops :=
  unfold bind, ret, svc_checkPermission, publishResponse, SendKeysend_call,
    SendKeysend_return, db_Create, db_Save, EventLogger_Log, emit in *.

Ltac split_oracles :=
  repeat match goal with
  | |- context [checkPermission svc ?w ?r ?x ?a ?n] =>
      destruct (checkPermission svc w r x a n) eqn:?; simpl
  | |- context [db_Create_Error svc ?w ?p] =>
      destruct (db_Create_Error svc w p) eqn:?; simpl
  | |- context [db_Save_Error svc ?w ?p] =>
      destruct (db_Save_Error svc w p) eqn:?; simpl
  | |- context [lnClient_SendKeysend svc ?w ?a ?b ?c ?d] =>
      destruct (lnClient_SendKeysend svc w a b c d) eqn:?; simpl
  end.

Ltac gstep_cases pc := destruct pc; simpl; unfold_ops; simpl; split_oracles.

(** A step appends at most one event, labelled with the goroutine. *)
Lemma gstep_trace i e pc w :
  exists evs, trace (snd (gstep i e pc w)) = trace w ++ evs /\
    Forall (fun ev => ev_tid ev = TGo i) evs /\ length evs <= 1.
Proof.
  gstep_cases pc;
    first [ exists []; split;
              [symmetry; apply app_nil_r | split; [constructor | simpl; lia]]
          | eexists; split;
              [reflexivity | split; [repeat constructor | simpl; lia]] ].
Qed.

Lemma gstep_events_of_other i j e pc w :
  i <> j ->
  events_of (TGo j) (trace (snd (gstep i e pc w))) = events_of (TGo j) (trace w).
Proof.
  intros Hij. destruct (gstep_trace i e pc w) as (evs & -> & Hall & _).
  rewrite events_of_app.
  assert (events_of (TGo j) evs = []) as ->; [|apply app_nil_r].
  induction Hall as [|ev evs Hev _ IH]; simpl; [reflexivity|].
  rewrite Hev. simpl. destruct (Nat.eqb_spec i j); [contradiction|exact IH].
Qed.

Lemma created_with_ID e n :
  created requestEvent app e (with_ID (new_payment requestEvent app e) n).
Proof. reflexivity. Qed.

(** The events of a goroutine follow its program point. *)
Lemma gstep_shape i e pc w :
  shape i e pc (events_of (TGo i) (trace w)) ->
  shape i e (fst (gstep i e pc w))
    (events_of (TGo i) (trace (snd (gstep i e pc w)))).
Proof.
  intros H. revert H.
  gstep_cases pc; intros H; rewrite ?events_of_app; simpl;
    rewrite ?Nat.eqb_refl; simpl.
  all: try (rewrite H; simpl).
  all: repeat match goal with
       | H : exists _, _ |- _ => destruct H as [? H]
       | H : _ /\ _ |- _ => destruct H as [? H]
       end.
  all: try (rewrite H; simpl; rewrite <- ?app_assoc; simpl).
  all: first
    [ reflexivity
    | assumption
    | exists None; reflexivity
    | refine (ex_intro _ (Some _) eq_refl)
    | refine (ex_intro _ _ (conj _ eq_refl));
        first [apply created_with_ID | eassumption]
    | refine (ex_intro _ _ (ex_intro _ _ (conj _ eq_refl))); eassumption
    | refine (ex_intro _ _ (ex_intro _ _ (ex_intro _ _ (conj _ eq_refl))));
        eassumption
    | refine (ex_intro _ _ (ex_intro _ (InsertFailed _) (conj I eq_refl)))
    | refine (ex_intro _ _ (ex_intro _ (BackendFailed _ _) (conj _ eq_refl)));
        simpl; eassumption
    | refine (ex_intro _ _ (ex_intro _ (Paid _ _ _) (conj _ eq_refl)));
        simpl; eassumption
    | refine (ex_intro _ _ (ex_intro _ _ (conj _ _))); eassumption ].
Qed.


Lemma created_pending e p :
  created requestEvent app e p -> pay_Preimage p = None.
Proof. intros ->. reflexivity. Qed.

Lemma events_of_suffix_In t tr a b ev :
  events_of t tr = a ++ b -> In ev b -> In ev tr.
Proof.
  intros H Hin. apply (events_of_In t). rewrite H.
  apply in_or_app. right. exact Hin.
Qed.

(** What a step does to the world: the event it appends and the ledger
    write that goes with it. *)
Lemma gstep_effect i e pc w :
  shape i e pc (events_of (TGo i) (trace w)) ->
  let w' := snd (gstep i e pc w) in
  w' = w \/
  exists ev, trace w' = trace w ++ [ev] /\ ev_tid ev = TGo i /\
    match ev with
    | EvDbCreate _ p None =>
        p = with_ID (new_payment requestEvent app e) (next_id (ledger w)) /\
        ledger w' = ledger w ++ [p]
    | EvDbSave _ q err =>
        ledger w' = match err with
                    | None => upsert q (ledger w)
                    | Some _ => ledger w
                    end /\
        exists p x, q = with_Preimage p x /\
          In (EvDbCreate (TGo i) p None) (trace w) /\
          In (EvSendKeysendRet (TGo i) (Ok x)) (trace w)
    | EvSendKeysendCall _ _ _ _ _ =>
        ledger w' = ledger w /\
        exists p, In (EvDbCreate (TGo i) p None) (trace w) /\
          pay_Preimage p = None
    | _ => ledger w' = ledger w
    end.
Proof.
  intros H. revert H.
  gstep_cases pc; intros H; try (left; reflexivity); right;
    (eexists; split; [reflexivity|]; split; [reflexivity|]); simpl;
    try reflexivity;
    repeat match goal with
    | H : exists _, _ |- _ => destruct H as [? H]
    | H : _ /\ _ |- _ => destruct H as [? H]
    end.
  - split; reflexivity.
  - split; [reflexivity|]. eexists. split.
    + eapply events_of_suffix_In; [exact H|simpl; auto].
    + eapply created_pending; eassumption.
  - split; [reflexivity|]. do 2 eexists. split; [reflexivity|]. split;
      (eapply events_of_suffix_In; [exact H|simpl; auto]).
  - split; [reflexivity|]. do 2 eexists. split; [reflexivity|]. split;
      (eapply events_of_suffix_In; [exact H|simpl; auto]).
Qed.

(** The program point after a step. *)
Lemma gstep_exited i e pc w :
  is_exited (fst (gstep i e pc w)) = is_defer_done pc || is_exited pc.
Proof. gstep_cases pc; reflexivity. Qed.

Lemma gstep_rank i e pc w :
  rank (fst (gstep i e pc w)) <= Nat.pred (rank pc).
Proof. gstep_cases pc; simpl; lia. Qed.

(** ** Lists of goroutines *)

Lemma live_app gs g :
  live (gs ++ [g]) = live gs + Nat.b2n (negb (is_exited (g_pc g))).
Proof.
  unfold live. rewrite List.filter_app, length_app. simpl.
  destruct (is_exited (g_pc g)); reflexivity.
Qed.

Lemma live_insert gs i g g' :
  gs !! i = Some g ->
  live (<[i := g']> gs) + Nat.b2n (negb (is_exited (g_pc g))) =
  live gs + Nat.b2n (negb (is_exited (g_pc g'))).
Proof.
  unfold live. revert i. induction gs as [|h gs IH]; intros [|i] Hi;
    simpl in *; try discriminate.
  - injection Hi as ->.
    destruct (is_exited (g_pc g)), (is_exited (g_pc g')); simpl; lia.
  - specialize (IH i Hi).
    destruct (is_exited (g_pc h)); simpl; lia.
Qed.

Lemma map_insert_same {A B} (f : A -> B) (l : list A) i x y :
  l !! i = Some x -> f y = f x -> map f (<[i := y]> l) = map f l.
Proof.
  revert i. induction l as [|h l IH]; intros [|i] Hi Hf; simpl in *;
    try discriminate.
  - injection Hi as ->. rewrite Hf. reflexivity.
  - rewrite (IH i Hi Hf). reflexivity.
Qed.

(** ** The ledger *)

Lemma In_lt_next_id r l : In r l -> pay_ID r < next_id l.
Proof.
  unfold next_id. induction l as [|h l IH]; simpl; [tauto|].
  intros [->|Hin]; [lia|]. specialize (IH Hin). lia.
Qed.

Lemma next_id_app l p : next_id l <= next_id (l ++ [p]).
Proof.
  unfold next_id. induction l as [|h l IH]; simpl in *; lia.
Qed.

Lemma next_id_app_new l p : pay_ID p < next_id (l ++ [p]).
Proof. apply In_lt_next_id, in_or_app. right. simpl. auto. Qed.

Lemma next_id_upsert q l : next_id l <= next_id (upsert q l).
Proof.
  unfold upsert.
  destruct (existsb _ l) eqn:E; [|apply next_id_app].
  clear E. unfold next_id. induction l as [|h l IH]; simpl in *; [lia|].
  destruct (Nat.eqb_spec (pay_ID h) (pay_ID q)); lia.
Qed.

Lemma In_upsert r q l : In r (upsert q l) -> r = q \/ In r l.
Proof.
  unfold upsert. destruct (existsb _ l).
  - rewrite in_map_iff. intros (r0 & Hr & Hin).
    destruct (Nat.eqb (pay_ID r0) (pay_ID q)); subst; auto.
  - rewrite in_app_iff. simpl. intros [H|[H|[]]]; auto.
Qed.

Lemma In_upsert_other r q l :
  In r l -> pay_ID r <> pay_ID q -> In r (upsert q l).
Proof.
  intros Hin Hne. unfold upsert. destruct (existsb _ l).
  - apply in_map_iff. exists r. split; [|exact Hin].
    destruct (Nat.eqb_spec (pay_ID r) (pay_ID q)); [contradiction|reflexivity].
  - apply in_or_app. auto.
Qed.

Lemma In_upsert_self q l : In q (upsert q l).
Proof.
  unfold upsert. destruct (existsb _ l) eqn:E.
  - apply existsb_exists in E as (r & Hin & Hr).
    apply in_map_iff. exists r. rewrite Hr. auto.
  - apply in_or_app. right. simpl. auto.
Qed.

(** ** Order of events *)

Lemma ordered_nil : ordered [].
Proof. intros [|? ?] ev post H; discriminate. Qed.

Lemma ordered_snoc tr ev :
  ordered tr -> precedes_ok tr ev -> ordered (tr ++ [ev]).
Proof.
  intros Ho Hev pre ev' post Heq.
  destruct post as [|y post0].
  - apply app_inj_tail in Heq as [-> ->]. exact Hev.
  - destruct (@exists_last _ (y :: post0)) as (post' & x & Hx);
      [discriminate|].
    rewrite Hx in Heq.
    change (pre ++ ev' :: post' ++ [x]) with (pre ++ (ev' :: post') ++ [x])
      in Heq.
    rewrite app_assoc in Heq. apply app_inj_tail in Heq as [Heq _].
    exact (Ho _ _ _ Heq).
Qed.


(** ** The invariant holds in every state of the handler *)

Local Abbreviation Inv' := (Inv request requestEvent app svc ledger0).

Lemma events_of_none t tr :
  (forall ev, In ev tr -> ev_tid ev <> t) -> events_of t tr = [].
Proof.
  intros H. induction tr as [|ev tr IH]; [reflexivity|].
  unfold events_of in *. simpl.
  rewrite Tid_eqb_neq by (apply H; simpl; auto).
  apply IH. intros ev' Hin. apply H. simpl. auto.
Qed.

Lemma is_exited_true pc : is_exited pc = true -> pc = PcExited.
Proof. destruct pc; simpl; congruence. Qed.

Lemma live_zero gs i g :
  live gs = 0 -> gs !! i = Some g -> g_pc g = PcExited.
Proof.
  unfold live. revert i. induction gs as [|h gs IH]; intros i Hl Hi;
    [destruct i; discriminate|].
  simpl in Hl. destruct (is_exited (g_pc h)) eqn:Eh; simpl in Hl;
    [|discriminate].
  destruct i as [|i]; simpl in Hi.
  - injection Hi as <-. apply is_exited_true, Eh.
  - exact (IH i Hl Hi).
Qed.

Lemma Inv_init : Inv' (init ledger0).
Proof.
  unfold Inv, init. repeat split; simpl.
  - intros i g H. destruct i; discriminate.
  - intros ev [].
  - apply ordered_nil.
  - intros r H. left. exact H.
  - intros t p [].
  - intros t t' p q [].
  - intros t q err [].
  - intros t p [].
Qed.

Lemma step_main_world st : world (stepf TMain st) = world st.
Proof.
  unfold step. destruct (main st) as [|[|k rest]| |err]; try reflexivity.
  - destruct (json_Unmarshal svc (Params request)); reflexivity.
  - destruct (Nat.eqb (wg st) 0); reflexivity.
Qed.

Lemma Inv_step_main st : Inv' st -> Inv' (stepf TMain st).
Proof.
  intros (Hsh & Htid & Hwg & Hmain & Hrest).
  assert (Hw := step_main_world st).
  unfold Inv.
  assert (threads_shape request requestEvent app (stepf TMain st) /\
          trace_tids (stepf TMain st) /\ wg_counts (stepf TMain st) /\
          main_ok request svc ledger0 (stepf TMain st)) as (H1 & H2 & H3 & H4).
  { unfold threads_shape, trace_tids, wg_counts, main_ok in *.
    rewrite Hw. unfold step.
    destruct (main st) as [|[|k rest]| |err] eqn:Em.
    - destruct Hmain as [Hgs Hwd].
      destruct (json_Unmarshal svc (Params request)) as [params|err] eqn:Ej;
        simpl; repeat split; auto.
      exists params. rewrite Hgs. auto.
    - simpl. repeat split; auto.
      destruct Hmain as (params & Hj & Hk). exists params.
      rewrite app_nil_r in Hk. auto.
    - simpl. repeat split.
      + intros i g Hg. apply lookup_app_Some in Hg as [Hg|[Hlen Hg]];
          [exact (Hsh i g Hg)|].
        apply list_lookup_singleton_Some in Hg as [Hi <-]. simpl.
        apply events_of_none. intros ev Hin Hev.
        destruct (Htid ev Hin) as (j & Hj & Hlt).
        rewrite Hj in Hev. injection Hev as ->. lia.
      + intros ev Hin. destruct (Htid ev Hin) as (j & Hj & Hlt).
        exists j. rewrite length_app. simpl. split; [exact Hj|lia].
      + rewrite live_app. simpl. lia.
      + destruct Hmain as (params & Hj & Hk). exists params.
        split; [exact Hj|]. rewrite map_app. simpl.
        rewrite <- app_assoc. exact Hk.
    - destruct (Nat.eqb_spec (wg st) 0) as [Hz|Hz]; simpl.
      + repeat split; auto.
        destruct Hmain as (params & Hj & Hk). exists params.
        repeat split; auto. intros i g Hg.
        apply (live_zero (goroutines st) i); [lia|exact Hg].
      + rewrite Em. repeat split; auto.
    - rewrite Em. repeat split; auto. }
  repeat split; try assumption; destruct Hrest as (H5 & H6 & H7 & H8 & H9 & H10);
    unfold ledger_rows, ids_bound, ids_distinct, saves_own, pending_kept in *;
    rewrite Hw; assumption.
Qed.


Lemma In_snoc {A} (x y : A) (l : list A) :
  In x (l ++ [y]) <-> In x l \/ x = y.
Proof. rewrite in_app_iff. simpl. intuition congruence. Qed.

Lemma Inv_step_go i st : Inv' st -> Inv' (stepf (TGo i) st).
Proof.
  intros (Hsh & Htid & Hwg & Hmain & Hord & Hrows & Hbound & Hdist & Hown
          & Hkept).
  unfold step. destruct (goroutines st !! i) as [g|] eqn:Hg;
    [|repeat split; assumption].
  pose proof (Hsh i g Hg) as Hshape.
  pose proof (gstep_shape _ _ _ _ Hshape) as Hshape'.
  pose proof (gstep_effect _ _ _ _ Hshape) as Heff.
  pose proof (gstep_trace i (g_keysendInfo g) (g_pc g) (world st)) as Htr.
  pose proof (gstep_exited i (g_keysendInfo g) (g_pc g) (world st)) as Hex.
  pose proof (fun j => gstep_events_of_other i j (g_keysendInfo g) (g_pc g)
                         (world st)) as Hother.
  pose proof (lookup_lt_Some _ _ _ Hg) as Hlt.
  remember (gstep i (g_keysendInfo g) (g_pc g) (world st)) as r eqn:Er.
  destruct r as [pc' w']. simpl in *. clear Er.
  unfold Inv, threads_shape, trace_tids, wg_counts, main_ok, ledger_rows,
    ids_bound, ids_distinct, saves_own, pending_kept in *. simpl.
  split; [|split; [|split; [|split]]].
  - intros j gj Hj. destruct (Nat.eq_dec i j) as [<-|Hne].
    + rewrite list_lookup_insert_eq in Hj by exact Hlt.
      injection Hj as <-. exact Hshape'.
    + rewrite list_lookup_insert_ne in Hj by exact Hne.
      rewrite Hother by exact Hne. exact (Hsh j gj Hj).
  - intros ev Hin. rewrite length_insert.
    destruct Htr as (evs & Hevs & Hall & _). rewrite Hevs in Hin.
    apply in_app_or in Hin as [Hin|Hin]; [exact (Htid ev Hin)|].
    exists i. split; [|exact Hlt].
    rewrite Forall_forall in Hall. apply Hall.
    apply list_elem_of_In. exact Hin.
  - pose proof (live_insert (goroutines st) i g
                  {| g_keysendInfo := g_keysendInfo g; g_pc := pc' |} Hg)
      as Hl.
    simpl in Hl. rewrite Hex in Hl.
    destruct (g_pc g); simpl in *; lia.
  - destruct (main st) as [|rest| |[err|]].
    + destruct Hmain as [Hgs _]. rewrite Hgs in Hg. discriminate.
    + destruct Hmain as (params & Hj & Hk). exists params.
      split; [exact Hj|].
      rewrite (map_insert_same g_keysendInfo _ _ _ _ Hg) by reflexivity.
      exact Hk.
    + destruct Hmain as (params & Hj & Hk). exists params.
      split; [exact Hj|].
      rewrite (map_insert_same g_keysendInfo _ _ _ _ Hg) by reflexivity.
      exact Hk.
    + destruct Hmain as (_ & Hgs & _). rewrite Hgs in Hg. discriminate.
    + destruct Hmain as (params & Hj & Hk & Hdone). exists params.
      split; [exact Hj|]. split.
      * rewrite (map_insert_same g_keysendInfo _ _ _ _ Hg) by reflexivity.
        exact Hk.
      * intros j gj Hgj. destruct (Nat.eq_dec i j) as [<-|Hne].
        -- rewrite list_lookup_insert_eq in Hgj by exact Hlt.
           injection Hgj as <-. simpl. apply is_exited_true.
           rewrite Hex, (Hdone i g Hg). reflexivity.
        -- rewrite list_lookup_insert_ne in Hgj by exact Hne.
           exact (Hdone j gj Hgj).
  - destruct Heff as [->|(ev & Hev & Hevt & Hm)];
      [repeat split; assumption|].
    rewrite Hev.
    assert (Hmono : next_id (ledger (world st)) <= next_id (ledger w')).
    { destruct ev as [| | | |t p [e|]| | |t q [e|]|]; try (rewrite Hm; lia);
        try (destruct Hm as [-> _]; first [lia|apply next_id_upsert]).
      destruct Hm as [_ ->]. apply next_id_app. }
    split; [|split; [|split; [|split; [|split]]]].
    + apply ordered_snoc; [exact Hord|].
      destruct ev as [| | | |t p [e|]| | |t q e|]; simpl in *; try exact I.
      * destruct Hm as [-> _]. reflexivity.
      * subst t. destruct Hm as (_ & p & Hin & Hp). eauto.
      * subst t. destruct Hm as (_ & p & x & -> & Hc & Hr).
        intros x' Hx'. simpl in Hx'. injection Hx' as <-. exact Hr.
    + intros r Hin.
      assert (Hcase : In r (ledger (world st)) \/
                exists t, ev = EvDbCreate t r None \/ ev = EvDbSave t r None).
      { destruct ev as [| | | |t p [e|]| | |t q [e|]|];
          try (rewrite Hm in Hin; auto; fail).
        - destruct Hm as [_ Hl]. rewrite Hl in Hin.
          apply In_snoc in Hin as [Hin| ->]; eauto.
        - destruct Hm as [Hl _]. rewrite Hl in Hin. auto.
        - destruct Hm as [Hl _]. rewrite Hl in Hin. auto.
        - destruct Hm as [Hl _]. rewrite Hl in Hin.
          apply In_upsert in Hin as [->|Hin]; eauto. }
      destruct Hcase as [Hold|(t & [->| ->])].
      * destruct (Hrows r Hold) as [H0|(t & [H1|H1])]; [left; exact H0| |];
          right; exists t; rewrite !In_snoc; auto.
      * right. exists t. rewrite !In_snoc. auto.
      * right. exists t. rewrite !In_snoc. auto.
    + intros t p Hin. apply In_snoc in Hin as [Hin|Hin].
      * specialize (Hbound t p Hin). lia.
      * subst ev. destruct Hm as [Hp ->]. apply next_id_app_new.
    + intros t t' p q H1 H2 Hid.
      apply In_snoc in H1 as [H1|H1]; apply In_snoc in H2 as [H2|H2].
      * exact (Hdist t t' p q H1 H2 Hid).
      * subst ev. destruct Hm as [Hq _]. specialize (Hbound t p H1).
        rewrite Hq in Hid. simpl in Hid. lia.
      * subst ev. destruct Hm as [Hp _]. specialize (Hbound t' q H2).
        rewrite Hp in Hid. simpl in Hid. lia.
      * subst ev. congruence.
    + intros t q err Hin. apply In_snoc in Hin as [Hin|Hin].
      * destruct (Hown t q err Hin) as (p & x & Hq & Hc & Hr).
        exists p, x. rewrite !In_snoc. auto.
      * subst ev. simpl in Hevt. subst t.
        destruct Hm as (_ & p & x & Hq & Hc & Hr).
        exists p, x. rewrite !In_snoc. auto.
    + intros t p Hin Hno. apply In_snoc in Hin as [Hin|Hin].
      * assert (Hp : In p (ledger (world st))).
        { apply (Hkept t p Hin). intros q Hq. apply (Hno q).
          apply In_snoc. auto. }
        destruct ev as [| | | |t0 p0 [e|]| | |t0 q [e|]|];
          try (rewrite Hm; exact Hp).
        -- destruct Hm as [_ ->]. apply in_or_app. auto.
        -- destruct Hm as [-> _]. exact Hp.
        -- destruct Hm as [-> _]. exact Hp.
        -- destruct Hm as (-> & p0 & x & Hq & Hc & Hr).
           simpl in Hevt. subst t0.
           apply In_upsert_other; [exact Hp|].
           intros Hid. apply (Hno q). apply In_snoc. right.
           assert (t = TGo i) as ->; [|reflexivity].
           apply (Hdist t (TGo i) p p0 Hin Hc).
           rewrite Hid, Hq. reflexivity.
      * subst ev. destruct Hm as [_ ->]. apply in_or_app. right.
        simpl. auto.
Qed.

Lemma Inv_step t st : Inv' st -> Inv' (stepf t st).
Proof. destruct t; [apply Inv_step_main|apply Inv_step_go]. Qed.

Lemma Inv_run_from sched st :
  Inv' st -> Inv' (fold_left (fun st t => stepf t st) sched st).
Proof.
  revert st. induction sched as [|t sched IH]; intros st H;
    [exact H|]. simpl. apply IH, Inv_step, H.
Qed.

Lemma Inv_handler sched : Inv' (handler ledger0 sched).
Proof. apply Inv_run_from, Inv_init. Qed.


(** ** Goroutines and their elements *)

Lemma lookup_map {A B} (f : A -> B) (l : list A) i :
  map f l !! i = option_map f (l !! i).
Proof.
  revert i. induction l as [|h l IH]; intros [|i]; simpl; auto.
Qed.

(** Goroutine [i] works on element [i] of the batch. *)
Lemma thread_element st params i g :
  Inv' st -> json_Unmarshal svc (Params request) = Ok params ->
  goroutines st !! i = Some g ->
  Keysends params !! i = Some (g_keysendInfo g).
Proof.
  intros (_ & _ & _ & Hmain & _) Hj Hg. unfold main_ok in Hmain.
  assert (Hm : map g_keysendInfo (goroutines st) !! i
               = Some (g_keysendInfo g))
    by (rewrite lookup_map, Hg; reflexivity).
  destruct (main st) as [|rest| |[err|]].
  - destruct Hmain as [Hgs _]. rewrite Hgs in Hg. destruct i; discriminate.
  - destruct Hmain as (params' & Hj' & Hk). rewrite Hj in Hj'.
    injection Hj' as <-. rewrite Hk. apply lookup_app_l_Some. exact Hm.
  - destruct Hmain as (params' & Hj' & Hk). rewrite Hj in Hj'.
    injection Hj' as <-. rewrite Hk. exact Hm.
  - destruct Hmain as (Hj' & _). congruence.
  - destruct Hmain as (params' & Hj' & Hk & _). rewrite Hj in Hj'.
    injection Hj' as <-. rewrite Hk. exact Hm.
Qed.

(** An event of goroutine [i] belongs to a started goroutine, whose
    events have the shape of its program point. *)
Lemma event_thread st ev i :
  Inv' st -> In ev (trace (world st)) -> ev_tid ev = TGo i ->
  exists g, goroutines st !! i = Some g /\
    shape i (g_keysendInfo g) (g_pc g)
      (events_of (TGo i) (trace (world st))) /\
    In ev (events_of (TGo i) (trace (world st))).
Proof.
  intros (Hsh & Htid & _) Hin Hev.
  destruct (Htid ev Hin) as (j & Hj & Hlt).
  rewrite Hev in Hj. injection Hj as <-.
  destruct (lookup_lt_is_Some_2 _ _ Hlt) as [g Hg].
  exists g. split; [exact Hg|]. split; [exact (Hsh i g Hg)|].
  apply events_of_In. auto.
Qed.

(** The events of a goroutine are always the beginning of a complete
    run of the body. *)
Lemma shape_prefix i e pc evs :
  shape i e pc evs ->
  exists chk o rest, outcome_ok requestEvent app e o /\
    denial_events i e chk ++ outcome_events request requestEvent app i e o
    = evs ++ rest.
Proof.
  destruct pc; simpl; intros H;
    repeat match goal with
    | H : exists _, _ |- _ => destruct H as [? H]
    | H : _ /\ _ |- _ => destruct H as [? H]
    end; subst evs.
  - exists None, (InsertFailed ""), (denial_events i e None ++
      outcome_events request requestEvent app i e (InsertFailed "")).
    split; [exact I|reflexivity].
  - exists (Some resp), (InsertFailed ""). eexists. split; [exact I|].
    simpl. reflexivity.
  - exists x, (InsertFailed ""). eexists. split; [exact I|reflexivity].
  - exists x, (BackendFailed payment ""). eexists. split; [assumption|].
    rewrite <- app_assoc. simpl. reflexivity.
  - exists x, (BackendFailed payment ""). eexists. split; [assumption|].
    rewrite <- app_assoc. simpl. reflexivity.
  - exists x, (BackendFailed x0 err). eexists. split; [assumption|].
    rewrite <- app_assoc. simpl. reflexivity.
  - exists x, (BackendFailed x0 err). eexists. split; [assumption|].
    rewrite <- app_assoc. simpl. reflexivity.
  - exists x, (Paid payment preimage None). eexists. split; [assumption|].
    rewrite <- app_assoc. simpl. reflexivity.
  - exists x, (Paid x0 preimage x1). eexists. split; [assumption|].
    rewrite <- app_assoc. simpl. reflexivity.
  - exists x, (Paid x0 preimage x1). eexists. split; [assumption|].
    rewrite <- app_assoc. simpl. reflexivity.
  - exists x, x0, []. split; [assumption|]. rewrite app_nil_r. reflexivity.
  - exists x, x0, []. split; [assumption|]. rewrite app_nil_r. reflexivity.
Qed.

(** Every event of goroutine [i] occurs in a complete run of the body on
    its element. *)
Lemma event_in_complete_run st params ev i e :
  Inv' st -> json_Unmarshal svc (Params request) = Ok params ->
  Keysends params !! i = Some e ->
  In ev (trace (world st)) -> ev_tid ev = TGo i ->
  exists chk o, outcome_ok requestEvent app e o /\
    In ev (denial_events i e chk ++
           outcome_events request requestEvent app i e o).
Proof.
  intros HI Hj Hk Hin Hev.
  destruct (event_thread st ev i HI Hin Hev) as (g & Hg & Hsh & Hin').
  pose proof (thread_element st params i g HI Hj Hg) as Hk'.
  rewrite Hk in Hk'. injection Hk' as ->.
  destruct (shape_prefix _ _ _ _ Hsh) as (chk & o & rest & Ho & Heq).
  exists chk, o. split; [exact Ho|]. rewrite Heq.
  apply in_or_app. auto.
Qed.


Lemma complete_run_In i e chk o ev :
  In ev (denial_events i e chk ++
         outcome_events request requestEvent app i e o) ->
  ev = EvCheckPermission (TGo i) (ks_Amount e) chk \/
  (exists r, chk = Some r /\ ev = EvPublish (TGo i) r [dTag e]) \/
  In ev (outcome_events request requestEvent app i e o).
Proof.
  intros H. apply in_app_or in H as [H|H]; [|auto].
  destruct chk as [r|]; simpl in H.
  - destruct H as [H|[H|[]]]; eauto.
  - destruct H as [H|[]]; auto.
Qed.

Ltac run_cases H o :=
  apply complete_run_In in H;
  destruct H as [H|[(? & ? & H)|H]];
  [ | | destruct o; simpl in H;
        repeat match type of H with _ \/ _ => destruct H as [H|H] end;
        try contradiction ];
  try discriminate H.

Lemma uint_div_nonneg a :
  (0 <= a < 2 ^ 63)%Z -> uint (go_div a 1000) = (a / 1000)%Z.
Proof.
  intros Ha. unfold uint, go_div.
  rewrite Z.quot_div_nonneg by lia.
  apply Z.mod_small.
  assert (0 <= a / 1000 <= a)%Z; [|lia].
  split; [apply Z.div_pos; lia|].
  apply Z.div_le_upper_bound; lia.
Qed.

Lemma created_amount e p :
  created requestEvent app e p ->
  pay_Amount p = uint (go_div (ks_Amount e) 1000).
Proof. intros ->. reflexivity. Qed.

Lemma insert_amount st params i e p err :
  Inv' st -> json_Unmarshal svc (Params request) = Ok params ->
  Keysends params !! i = Some e ->
  In (EvDbCreate (TGo i) p err) (trace (world st)) ->
  pay_Amount p = uint (go_div (ks_Amount e) 1000).
Proof.
  intros HI Hj Hk Hin.
  destruct (event_in_complete_run st params _ i e HI Hj Hk Hin eq_refl)
    as (chk & o & Ho & Hrun).
  run_cases Hrun o; injection Hrun as <- <-; try reflexivity;
    apply created_amount; exact Ho.
Qed.

(** C5, amended: the amount stored in the Payment record of a batch
    element is the element's amount in millisatoshi divided by 1000
    (Go's integer division, then the conversion to [uint]); for an amount
    in the non-negative [int64] range that is the whole number of
    satoshi, [Amount / 1000]. The same holds for every row the handler
    leaves in the ledger. *)
Theorem payment_amount_is_msat_div_1000 (sched : list Tid)
    (params : Nip47MultiPayKeysendParams) :
  json_Unmarshal svc (Params request) = Ok params ->
  let st := handler ledger0 sched in
  (forall i e p err,
     Keysends params !! i = Some e ->
     In (EvDbCreate (TGo i) p err) (trace (world st)) ->
     pay_Amount p = uint (go_div (ks_Amount e) 1000) /\
     ((0 <= ks_Amount e < 2 ^ 63)%Z ->
      pay_Amount p = (ks_Amount e / 1000)%Z)) /\
  (forall r, In r (ledger (world st)) ->
     In r ledger0 \/
     exists i e, Keysends params !! i = Some e /\
       pay_Amount r = uint (go_div (ks_Amount e) 1000)).
Proof.
  intros Hj st. pose proof (Inv_handler sched) as HI. fold st in HI.
  assert (Hamt : forall t p err, In (EvDbCreate t p err) (trace (world st)) ->
            exists i e, Keysends params !! i = Some e /\
              pay_Amount p = uint (go_div (ks_Amount e) 1000)).
  { intros t p err Hin.
    destruct HI as (Hsh & Htid & Hrest).
    destruct (Htid _ Hin) as (i & Hi & Hlt). simpl in Hi. subst t.
    destruct (lookup_lt_is_Some_2 _ _ Hlt) as [g Hg].
    assert (HI : Inv' st) by (split; [|split]; assumption).
    pose proof (thread_element st params i g HI Hj Hg) as Hk.
    exists i, (g_keysendInfo g). split; [exact Hk|].
    exact (insert_amount st params i _ p err HI Hj Hk Hin). }
  split.
  - intros i e p err Hk Hin.
    pose proof (insert_amount st params i e p err HI Hj Hk Hin) as Ha.
    split; [exact Ha|]. intros Hr. rewrite Ha. apply uint_div_nonneg, Hr.
  - intros r Hr.
    destruct HI as (_ & _ & _ & _ & _ & Hrows & _ & _ & Hown & _).
    destruct (Hrows r Hr) as [H0|(t & [Hc|Hs])]; [left; exact H0| |]; right.
    + exact (Hamt t r None Hc).
    + destruct (Hown t r None Hs) as (p & x & -> & Hc & _).
      exact (Hamt t p None Hc).
Qed.

(** The state in which the handler has returned. *)
Lemma returned_units (sched : list Tid) :
  let st := handler ledger0 sched in
  main st = MReturned None ->
  exists params,
    json_Unmarshal svc (Params request) = Ok params /\
    length (goroutines st) = length (Keysends params) /\
    forall i e, Keysends params !! i = Some e ->
      goroutines st !! i = Some {| g_keysendInfo := e; g_pc := PcExited |} /\
      exists chk o, outcome_ok requestEvent app e o /\
        events_of (TGo i) (trace (world st)) =
        denial_events i e chk ++
        outcome_events request requestEvent app i e o.
Proof.
  intros st Hret.
  destruct (Inv_handler sched) as (Hsh & _ & _ & Hmain & _).
  fold st in Hsh, Hmain. unfold main_ok in Hmain. rewrite Hret in Hmain.
  destruct Hmain as (params & Hj & Hk & Hdone).
  exists params. split; [exact Hj|]. split.
  - rewrite Hk. rewrite length_map. reflexivity.
  - intros i e He. rewrite Hk, lookup_map in He.
    destruct (goroutines st !! i) as [g|] eqn:Hg; [|discriminate].
    simpl in He. injection He as <-.
    pose proof (Hdone i g Hg) as Hpc.
    pose proof (Hsh i g Hg) as Hshape. rewrite Hpc in Hshape.
    split; [|exact Hshape].
    destruct g as [e pc]. simpl in *. rewrite Hpc. reflexivity.
Qed.


(** ** Failed backend calls *)

Ltac explicit_in H :=
  repeat first
    [ apply in_app_or in H; destruct H as [H|H]
    | match type of H with
      | In _ (denial_events _ _ ?c) => is_var c; destruct c
      end
    | match type of H with
      | In _ (outcome_events _ _ _ _ _ ?o) => is_var o; destruct o
      end
    | progress simpl in H
    | match type of H with _ \/ _ => destruct H as [H|H] end
    | match type of H with False => destruct H end ];
  try discriminate H.

Ltac open_shape H :=
  repeat match type of H with
  | exists _, _ => let x := fresh "x" in destruct H as [x H]
  | _ /\ _ => let H1 := fresh "Hc" in destruct H as [H1 H]
  end.

(** Once the backend call of a goroutine has failed, its events are the
    permission check followed by the first [k], [3 <= k <= 5], events of the
    failed-payment run: insert, call, failed return, then the analytics
    log and the published error. *)
Lemma backend_failed_shape i e pc evs err :
  shape i e pc evs -> In (EvSendKeysendRet (TGo i) (Err err)) evs ->
  exists chk p k, created requestEvent app e p /\ 3 <= k <= 5 /\
    (is_exited pc = true -> k = 5) /\
    evs = denial_events i e chk ++
          firstn k (outcome_events request requestEvent app i e
                      (BackendFailed p err)).
Proof.
  intros H Hin.
  destruct pc; simpl in H; open_shape H; subst evs; explicit_in Hin;
    injection Hin as <-.
  - exists x, x0, 3. repeat split; try assumption; try lia; discriminate.
  - exists x, x0, 4. repeat split; try assumption; try lia; discriminate.
  - exists x, p, 5. repeat split; try assumption; lia.
  - exists x, p, 5. repeat split; try assumption; lia.
Qed.

Lemma after_return_denial i e chk rest :
  after_return (TGo i) (denial_events i e chk ++ rest) =
  after_return (TGo i) rest.
Proof. destruct chk; reflexivity. Qed.

Lemma In_events_of_trace t ev tr :
  In ev (events_of t tr) -> In ev tr.
Proof. intros H. apply events_of_In in H. tauto. Qed.

(** C6, amended: when the backend call of a batch element returns an
    error, the goroutine writes nothing to the ledger afterwards, and the
    Payment record it inserted is still in the ledger exactly as
    inserted, without preimage: the failed payment is the row left
    pending, there is no separate failed mark. *)
Theorem failed_payment_is_kept_as_inserted (sched : list Tid) (i : nat)
    (err : string) :
  let st := handler ledger0 sched in
  In (EvSendKeysendRet (TGo i) (Err err)) (trace (world st)) ->
  writes_after_return (TGo i) (trace (world st)) = [] /\
  exists p, In (EvDbCreate (TGo i) p None) (trace (world st)) /\
    pay_Preimage p = None /\ In p (ledger (world st)).
Proof.
  intros st Hin. pose proof (Inv_handler sched) as HI. fold st in HI.
  destruct (event_thread st _ i HI Hin eq_refl) as (g & Hg & Hsh & Hin').
  destruct (backend_failed_shape _ _ _ _ _ Hsh Hin')
    as (chk & p & k & Hp & Hk & _ & Hevs).
  assert (Hk' : k = 3 \/ k = 4 \/ k = 5) by lia.
  split.
  - unfold writes_after_return. rewrite Hevs, after_return_denial.
    destruct Hk' as [->|[->| ->]]; simpl; rewrite ?Nat.eqb_refl;
      reflexivity.
  - exists p. split; [|split].
    + apply (In_events_of_trace (TGo i)). rewrite Hevs.
      apply in_or_app. right.
      destruct Hk' as [->|[->| ->]]; simpl; auto.
    + exact (created_pending _ _ Hp).
    + destruct HI as (_ & _ & _ & _ & _ & _ & _ & _ & _ & Hkept).
      apply (Hkept (TGo i)).
      * apply (In_events_of_trace (TGo i)). rewrite Hevs.
        apply in_or_app. right.
        destruct Hk' as [->|[->| ->]]; simpl; auto.
      * intros q Hq.
        assert (Hq' : In (EvDbSave (TGo i) q None)
                        (events_of (TGo i) (trace (world st))))
          by (apply events_of_In; auto).
        rewrite Hevs in Hq'.
        apply in_app_or in Hq' as [Hq'|Hq'].
        -- destruct chk; simpl in Hq'; explicit_in Hq'.
        -- destruct Hk' as [->|[->| ->]]; simpl in Hq'; explicit_in Hq'.
Qed.


(** ** Counting the responses *)

Lemma list_sum_zeros {A} (l : list A) : list_sum (map (fun _ => 0) l) = 0.
Proof. induction l; simpl; auto. Qed.

Lemma list_sum_ones {A} (f : A -> nat) (l : list A) :
  (forall x, In x l -> f x = 1) -> list_sum (map f l) = length l.
Proof.
  induction l as [|h l IH]; intros H; simpl; [reflexivity|].
  rewrite (H h) by (simpl; auto). rewrite IH; [reflexivity|].
  intros x Hx. apply H. simpl. auto.
Qed.

Lemma list_sum_bump (f : nat -> nat) c j a n :
  list_sum (map (fun i => (if Nat.eqb j i then c else 0) + f i) (seq a n)) =
  (if Nat.leb a j && Nat.ltb j (a + n) then c else 0) + list_sum (map f (seq a n)).
Proof.
  revert a. induction n as [|n IH]; intros a; simpl.
  - destruct (Nat.leb_spec a j), (Nat.ltb_spec j (a + 0)); simpl; lia.
  - rewrite IH.
    destruct (Nat.eqb_spec j a), (Nat.leb_spec a j),
      (Nat.ltb_spec j (a + S n)), (Nat.leb_spec (S a) j),
      (Nat.ltb_spec j (S a + n)); simpl; lia.
Qed.

Lemma published_cons_length ev tr :
  length (published (ev :: tr)) =
  length (published [ev]) + length (published tr).
Proof.
  change (ev :: tr) with ([ev] ++ tr).
  rewrite published_app, length_app. reflexivity.
Qed.

(** The responses of a trace are those of its goroutines, taken
    together. *)
Lemma published_partition n tr :
  (forall ev, In ev tr -> exists i, ev_tid ev = TGo i /\ i < n) ->
  length (published tr) =
  list_sum (map (fun i => length (published (events_of (TGo i) tr)))
              (seq 0 n)).
Proof.
  induction tr as [|ev tr IH]; intros H.
  - simpl. rewrite list_sum_zeros. reflexivity.
  - destruct (H ev (or_introl eq_refl)) as (j & Hj & Hlt).
    rewrite (map_ext _
      (fun i => (if Nat.eqb j i then length (published [ev]) else 0)
                + length (published (events_of (TGo i) tr)))).
    + rewrite list_sum_bump, published_cons_length.
      rewrite <- IH by (intros ev' Hin; apply H; simpl; auto).
      destruct (Nat.leb_spec 0 j), (Nat.ltb_spec j (0 + n)); simpl; lia.
    + intros i. unfold events_of. simpl. rewrite Hj. simpl.
      destruct (Nat.eqb j i); [|reflexivity].
      apply published_cons_length.
Qed.

(** C4, amended: once the handler of a well-formed batch has returned,
    (1) every response published for element [i] carries the tag
    [["d", Id]], or [["d", Pubkey]] when [Id] is empty; (2) an element
    that the permission check allowed and whose Payment record was
    inserted has exactly one response; (3) an element that was allowed
    and whose insert failed has none; (4) when every element was allowed
    and inserted, the batch of N elements has exactly N responses. This
    holds for every interleaving of the goroutines. *)
Theorem batch_one_tagged_response_per_inserted_element
    (sched : list Tid) (params : Nip47MultiPayKeysendParams) :
  json_Unmarshal svc (Params request) = Ok params ->
  let st := handler ledger0 sched in
  let tr := trace (world st) in
  main st = MReturned None ->
  (forall i e r tags,
     Keysends params !! i = Some e -> In (EvPublish (TGo i) r tags) tr ->
     tags = [["d"; if String.eqb (ks_Id e) "" then ks_Pubkey e
                   else ks_Id e]]) /\
  (forall i e p,
     Keysends params !! i = Some e ->
     In (EvCheckPermission (TGo i) (ks_Amount e) None) tr ->
     In (EvDbCreate (TGo i) p None) tr ->
     exists r, published (events_of (TGo i) tr) = [(r, [dTag e])]) /\
  (forall i e p err,
     Keysends params !! i = Some e ->
     In (EvCheckPermission (TGo i) (ks_Amount e) None) tr ->
     In (EvDbCreate (TGo i) p (Some err)) tr ->
     published (events_of (TGo i) tr) = []) /\
  ((forall i e, Keysends params !! i = Some e ->
      In (EvCheckPermission (TGo i) (ks_Amount e) None) tr /\
      exists p, In (EvDbCreate (TGo i) p None) tr) ->
   length (published tr) = length (Keysends params)).
Proof.
  intros Hj st tr Hret.
  pose proof (Inv_handler sched) as HI. fold st in HI.
  destruct (returned_units sched Hret) as (params' & Hj' & Hlen & Hunits).
  fold st in Hlen, Hunits. fold tr in Hunits.
  rewrite Hj in Hj'. injection Hj' as <-.
  assert (H2 : forall i e p,
     Keysends params !! i = Some e ->
     In (EvCheckPermission (TGo i) (ks_Amount e) None) tr ->
     In (EvDbCreate (TGo i) p None) tr ->
     exists r, published (events_of (TGo i) tr) = [(r, [dTag e])]).
  { intros i e p He Hchk Hcr.
    destruct (Hunits i e He) as (_ & chk & o & Ho & Hevs).
    assert (Hchk' : In (EvCheckPermission (TGo i) (ks_Amount e) None)
                      (events_of (TGo i) tr)) by (apply events_of_In; auto).
    assert (Hcr' : In (EvDbCreate (TGo i) p None) (events_of (TGo i) tr))
      by (apply events_of_In; auto).
    rewrite Hevs in *. clear Hevs.
    destruct chk as [d|]; [exfalso; explicit_in Hchk'|].
    destruct o; [exfalso; explicit_in Hcr'| |]; simpl; eauto. }
  split; [|split; [exact H2|split]].
  - intros i e r tags He Hin.
    destruct (event_in_complete_run st params _ i e HI Hj He Hin eq_refl)
      as (chk & o & Ho & Hrun).
    explicit_in Hrun; injection Hrun as _ <-; reflexivity.
  - intros i e p err He Hchk Hcr.
    destruct (Hunits i e He) as (_ & chk & o & Ho & Hevs).
    assert (Hchk' : In (EvCheckPermission (TGo i) (ks_Amount e) None)
                      (events_of (TGo i) tr)) by (apply events_of_In; auto).
    assert (Hcr' : In (EvDbCreate (TGo i) p (Some err))
                     (events_of (TGo i) tr)) by (apply events_of_In; auto).
    rewrite Hevs in *. clear Hevs.
    destruct chk as [d|]; [exfalso; explicit_in Hchk'|].
    destruct o; [reflexivity| |]; exfalso; explicit_in Hcr'.
  - intros Hall.
    destruct HI as (_ & Htid & _).
    rewrite (published_partition (length (goroutines st)) tr Htid).
    rewrite list_sum_ones; [rewrite length_seq; exact Hlen|].
    intros i Hi. apply in_seq in Hi. rewrite Hlen in Hi.
    destruct (lookup_lt_is_Some_2 (Keysends params) i) as [e He]; [lia|].
    destruct (Hall i e He) as (Hchk & p & Hcr).
    destruct (H2 i e p He Hchk Hcr) as (r & ->). reflexivity.
Qed.


(** ** Backend errors reach the caller *)

(** C7: a unit whose backend call fails. For sign_message the
    [INTERNAL] response with the text of the backend error is the only
    response of the request. For a batch element it is the only response
    published after the backend call returned, and the only response of
    the element when the permission check allowed it. When the check
    denied the element, the goroutine has gone on after publishing the
    denial (that branch does not return), and the element has two error
    responses: the denial, then the [INTERNAL] one. Among them the
    [INTERNAL] one is the only one with that code, provided the
    permission policy does not itself answer with it. *)
Theorem failed_backend_call_of_denied_element_publishes_two_errors :
  (forall w err new,
     trace (snd (HandleSignMessageEvent svc request requestEvent app w))
       = trace w ++ new ->
     In (EvSignMessageRet TMain (Err err)) new ->
     published new =
       [({| ResultType := Method request;
            resp_Error := Some {| err_Code := NIP_47_ERROR_INTERNAL;
                                  err_Message := err |};
            resp_Result := None |}, [])]) /\
  (forall sched i e err,
     let st := handler ledger0 sched in
     let tr := trace (world st) in
     let failure :=
       ({| ResultType := Method request;
           resp_Error := Some {| err_Code := NIP_47_ERROR_INTERNAL;
                                 err_Message := err |};
           resp_Result := None |}, [dTag e]) in
     goroutines st !! i = Some {| g_keysendInfo := e; g_pc := PcExited |} ->
     In (EvSendKeysendRet (TGo i) (Err err)) tr ->
     published (after_return (TGo i) (events_of (TGo i) tr)) = [failure] /\
     (In (EvCheckPermission (TGo i) (ks_Amount e) None) tr ->
      published (events_of (TGo i) tr) = [failure]) /\
     ((forall d, In (EvCheckPermission (TGo i) (ks_Amount e) (Some d)) tr ->
                 is_internal_error d = false) ->
      List.filter (fun rt => is_internal_error (fst rt))
        (published (events_of (TGo i) tr)) = [failure]) /\
     (forall d, In (EvCheckPermission (TGo i) (ks_Amount e) (Some d)) tr ->
        published (events_of (TGo i) tr) = [(d, [dTag e]); failure])).
Proof.
  split.
  - intros w err new Htr Hin.
    destruct (HandleSignMessageEvent_trace svc request requestEvent app w)
      as (_ & new' & Htr' & Hcase).
    rewrite Htr in Htr'. apply app_inv_head in Htr'. subst new'.
    destruct (snd (decodeNip47Request svc request requestEvent app))
      as [r|].
    { subst new. explicit_in Hin. }
    destruct (checkPermission svc w request
                (ByNostrId (NostrId requestEvent)) app 0%Z) as [r|].
    { subst new. explicit_in Hin. }
    destruct Hcase as (res & r & -> & Hrt & Hres).
    explicit_in Hin. injection Hin as ->.
    destruct Hres as [He Hr]. destruct r as [rt re rr]. simpl in *.
    subst. reflexivity.
  - intros sched i e err st tr failure Hg Hin.
    pose proof (Inv_handler sched) as HI. fold st in HI.
    destruct HI as (Hsh & _).
    pose proof (Hsh i _ Hg) as Hshape. simpl in Hshape.
    assert (Hin' : In (EvSendKeysendRet (TGo i) (Err err))
                     (events_of (TGo i) tr)) by (apply events_of_In; auto).
    destruct (backend_failed_shape i e PcExited _ err Hshape Hin')
      as (chk & p & k & Hp & _ & Hk & Hevs).
    rewrite (Hk eq_refl) in Hevs. simpl in Hevs. fold tr in Hevs.
    split; [|split; [|split]].
    + rewrite Hevs, after_return_denial. simpl. rewrite Nat.eqb_refl.
      reflexivity.
    + intros Hchk.
      assert (Hchk' : In (EvCheckPermission (TGo i) (ks_Amount e) None)
                        (events_of (TGo i) tr))
        by (apply events_of_In; auto).
      rewrite Hevs in *. destruct chk as [d|]; [|reflexivity].
      exfalso. explicit_in Hchk'.
    + intros Hpol. rewrite Hevs. destruct chk as [d|]; [|reflexivity].
      simpl. rewrite (Hpol d); [reflexivity|].
      apply (In_events_of_trace (TGo i)). fold tr. rewrite Hevs.
      simpl. auto.
    + intros d Hd.
      assert (Hd' : In (EvCheckPermission (TGo i) (ks_Amount e) (Some d))
                      (events_of (TGo i) tr))
        by (apply events_of_In; auto).
      rewrite Hevs in *. destruct chk as [d'|].
      * explicit_in Hd'; injection Hd' as ->; reflexivity.
      * exfalso. explicit_in Hd'.
Qed.

(** ** A payload that does not decode *)

Lemma step_keeps_decoded t st :
  main st <> MDecode -> main (stepf t st) <> MDecode.
Proof.
  intros H. destruct t as [|i]; unfold step.
  - destruct (main st) as [|[|k rest]| |err] eqn:Em; simpl; try congruence.
    destruct (Nat.eqb (wg st) 0); simpl; congruence.
  - destruct (goroutines st !! i) as [g|]; [|exact H].
    destruct (gstep i (g_keysendInfo g) (g_pc g) (world st)). exact H.
Qed.

Lemma step_main_decodes st : main (stepf TMain st) <> MDecode.
Proof.
  destruct (main st) as [|rest| |err] eqn:Em.
  - unfold step. rewrite Em.
    destruct (json_Unmarshal svc (Params request)); discriminate.
  - apply step_keeps_decoded. congruence.
  - apply step_keeps_decoded. congruence.
  - apply step_keeps_decoded. congruence.
Qed.

Lemma run_decodes sched st :
  main st <> MDecode \/ In TMain sched ->
  main (fold_left (fun st t => stepf t st) sched st) <> MDecode.
Proof.
  revert st. induction sched as [|t sched IH]; intros st H; simpl.
  - destruct H as [H|[]]. exact H.
  - apply IH. destruct H as [H|[->|H]]; auto.
    + left. apply step_keeps_decoded, H.
    + left. apply step_main_decodes.
Qed.

(** C2, the batch handler at a payload that does not decode: whatever
    the schedule, nothing is published, nothing is written to the ledger,
    no goroutine is started and no backend call is made; the handler
    returns the decoding error to its caller. *)
Theorem malformed_batch_payload_gets_no_response (sched : list Tid)
    (err : string) :
  json_Unmarshal svc (Params request) = Err err ->
  let st := handler ledger0 sched in
  world st = {| ledger := ledger0; trace := [] |} /\
  published (trace (world st)) = [] /\
  goroutines st = [] /\
  (In TMain sched -> main st = MReturned (Some err)).
Proof.
  intros Hj st.
  destruct (Inv_handler sched) as (_ & _ & _ & Hmain & _).
  fold st in Hmain. unfold main_ok in Hmain.
  pose proof (run_decodes sched (init ledger0)) as Hdec.
  change (fold_left _ sched (init ledger0)) with st in Hdec.
  destruct (main st) as [|rest| |[err'|]].
  - destruct Hmain as [Hgs Hw]. rewrite Hw. repeat split; auto.
    intros Hin. exfalso. apply Hdec; auto.
  - destruct Hmain as (params & Hj' & _). congruence.
  - destruct Hmain as (params & Hj' & _). congruence.
  - destruct Hmain as (Hj' & Hgs & Hw). rewrite Hw. repeat split; auto.
    congruence.
  - destruct Hmain as (params & Hj' & _). congruence.
Qed.


(** ** The handler returns *)

Local Abbreviation run_from :=
  (fun st sched => fold_left (fun st t => stepf t st) sched st).

Lemma rank_le_9 pc : rank pc <= 9.
Proof. destruct pc; simpl; lia. Qed.

Lemma rank_zero pc : rank pc = 0 -> pc = PcExited.
Proof. destruct pc; simpl; congruence. Qed.

Lemma step_go_rank i st :
  main (stepf (TGo i) st) = main st /\
  length (goroutines (stepf (TGo i) st)) = length (goroutines st) /\
  rank_at (stepf (TGo i) st) i <= Nat.pred (rank_at st i) /\
  forall j, rank_at (stepf (TGo i) st) j <= rank_at st j.
Proof.
  unfold step, rank_at.
  destruct (goroutines st !! i) as [g|] eqn:Hg.
  - pose proof (gstep_rank i (g_keysendInfo g) (g_pc g) (world st)) as Hr.
    pose proof (lookup_lt_Some _ _ _ Hg) as Hlt.
    destruct (gstep i (g_keysendInfo g) (g_pc g) (world st)) as [pc' w'].
    simpl in *. rewrite length_insert.
    rewrite list_lookup_insert_eq by exact Hlt. simpl.
    repeat split; auto. intros j.
    destruct (Nat.eq_dec i j) as [<-|Hne].
    + rewrite list_lookup_insert_eq by exact Hlt. rewrite Hg. simpl. lia.
    + rewrite list_lookup_insert_ne by exact Hne. lia.
  - rewrite Hg. repeat split; auto.
Qed.

Lemma repeat_go_rank i k st :
  let st' := run_from st (repeat (TGo i) k) in
  main st' = main st /\
  length (goroutines st') = length (goroutines st) /\
  rank_at st' i <= rank_at st i - k /\
  forall j, rank_at st' j <= rank_at st j.
Proof.
  revert st. induction k as [|k IH]; intros st; cbn [repeat fold_left].
  - repeat split; auto. lia.
  - destruct (step_go_rank i st) as (Hm & Hl & Hi & Hj).
    destruct (IH (stepf (TGo i) st)) as (Hm' & Hl' & Hi' & Hj').
    repeat split; try congruence; [lia|].
    intros j. specialize (Hj j). specialize (Hj' j). lia.
Qed.

Lemma workers_run_to_end l st :
  let st' := run_from st
               (flat_map (fun i => repeat (TGo i) worker_steps) l) in
  main st' = main st /\
  length (goroutines st') = length (goroutines st) /\
  (forall j, rank_at st' j <= rank_at st j) /\
  forall j, In j l -> rank_at st' j = 0.
Proof.
  revert st. induction l as [|i l IH]; intros st; cbn [flat_map].
  - cbn [fold_left]. repeat split; auto. intros j [].
  - rewrite fold_left_app.
    destruct (repeat_go_rank i worker_steps st) as (Hm & Hl & Hi & Hj).
    destruct (IH (run_from st (repeat (TGo i) worker_steps)))
      as (Hm' & Hl' & Hj' & Hz).
    repeat split; try congruence.
    + intros j. specialize (Hj j). specialize (Hj' j). lia.
    + intros j [<-|Hin]; [|exact (Hz j Hin)].
      specialize (Hj' i).
      assert (Hw : worker_steps = 9) by reflexivity.
      assert (rank_at st i <= 9); [|cbv beta in *; lia].
      unfold rank_at. destruct (goroutines st !! i); [apply rank_le_9|lia].
Qed.

Lemma spawn_steps rest st :
  main st = MSpawn rest ->
  main (run_from st (repeat TMain (length rest))) = MSpawn [].
Proof.
  revert st. induction rest as [|k rest IH]; intros st Hm;
    cbn [length repeat fold_left]; [exact Hm|].
  apply IH. unfold step. rewrite Hm. reflexivity.
Qed.

Lemma live_all_exited gs :
  (forall i g, gs !! i = Some g -> g_pc g = PcExited) -> live gs = 0.
Proof.
  unfold live. induction gs as [|h gs IH]; intros H; [reflexivity|].
  simpl. rewrite (H 0 h eq_refl). simpl.
  apply IH. intros i g Hg. exact (H (S i) g Hg).
Qed.

(** Under the sequential schedule the handler of a well-formed batch
    returns [nil]. *)
Lemma sequential_schedule_returns params :
  json_Unmarshal svc (Params request) = Ok params ->
  main (handler ledger0 (sequential_schedule (length (Keysends params))))
  = MReturned None.
Proof.
  intros Hj. unfold HandleMultiPayKeysendEvent, sequential_schedule.
  set (n := length (Keysends params)).
  rewrite !fold_left_app.
  set (st1 := run_from (init ledger0) (repeat TMain (S (S n)))).
  assert (Hm1 : main st1 = MWait).
  { unfold st1.
    change (repeat TMain (S (S n))) with (TMain :: (TMain :: repeat TMain n)).
    rewrite repeat_cons. cbn [fold_left]. rewrite fold_left_app.
    cbn [fold_left].
    assert (Hs : main (run_from (stepf TMain (init ledger0))
                         (repeat TMain n)) = MSpawn []).
    { apply spawn_steps. unfold step, init. cbn [main]. rewrite Hj.
      reflexivity. }
    unfold step at 1. rewrite Hs. reflexivity. }
  set (st2 := run_from st1 (flat_map (fun i => repeat (TGo i) worker_steps)
                              (seq 0 n))).
  destruct (workers_run_to_end (seq 0 n) st1) as (Hm2 & Hl2 & _ & Hz).
  fold st2 in Hm2, Hl2, Hz.
  assert (HI : Inv' st2).
  { unfold st2, st1. rewrite <- fold_left_app. apply Inv_handler. }
  destruct HI as (_ & _ & Hwg & Hmain & _).
  unfold main_ok in Hmain. rewrite Hm2, Hm1 in Hmain.
  destruct Hmain as (params' & Hj' & Hk). rewrite Hj in Hj'.
  injection Hj' as <-.
  assert (Hlive : live (goroutines st2) = 0).
  { apply live_all_exited. intros i g Hg. apply rank_zero.
    assert (Hi : In i (seq 0 n)).
    { apply in_seq. pose proof (lookup_lt_Some _ _ _ Hg) as Hlt.
      unfold n. rewrite Hk, length_map. lia. }
    specialize (Hz i Hi). unfold rank_at in Hz. rewrite Hg in Hz.
    exact Hz. }
  cbn [fold_left]. unfold step. rewrite Hm2, Hm1.
  unfold wg_counts in Hwg. rewrite Hwg, Hlive. reflexivity.
Qed.

(** C9: when the batch handler has returned, the [WaitGroup] counter
    is zero, every element of the batch has its goroutine, every
    goroutine has run to its end, and its events are a complete run of
    the body: the permission check, then the insert and, unless the
    insert failed, the backend call, its return and the published
    response, which is the last thing the goroutine did. A goroutine
    whose insert failed has finished too, and did nothing after the
    failed insert: it has published no response of its own. *)
Theorem handler_returns_after_all_goroutines_finish (sched : list Tid) :
  let st := handler ledger0 sched in
  main st = MReturned None ->
  wg st = 0 /\
  exists params,
    json_Unmarshal svc (Params request) = Ok params /\
    length (goroutines st) = length (Keysends params) /\
    forall i e, Keysends params !! i = Some e ->
      goroutines st !! i = Some {| g_keysendInfo := e; g_pc := PcExited |} /\
      (exists chk o, outcome_ok requestEvent app e o /\
         events_of (TGo i) (trace (world st)) =
         denial_events i e chk ++
         outcome_events request requestEvent app i e o) /\
      (forall p, In (EvDbCreate (TGo i) p None) (trace (world st)) ->
         exists r, last (events_of (TGo i) (trace (world st)))
                   = Some (EvPublish (TGo i) r [dTag e])) /\
      (forall p err,
         In (EvDbCreate (TGo i) p (Some err)) (trace (world st)) ->
         exists chk,
           events_of (TGo i) (trace (world st)) =
           denial_events i e chk ++ [EvDbCreate (TGo i) p (Some err)]).
Proof.
  intros st Hret.
  destruct (returned_units sched Hret) as (params & Hj & Hlen & Hunits).
  fold st in Hlen, Hunits.
  split.
  - destruct (Inv_handler sched) as (_ & _ & Hwg & Hmain & _).
    fold st in Hwg, Hmain. unfold wg_counts in Hwg. rewrite Hwg.
    unfold main_ok in Hmain. rewrite Hret in Hmain.
    destruct Hmain as (_ & _ & _ & Hdone).
    apply live_all_exited. exact Hdone.
  - exists params. split; [exact Hj|]. split; [exact Hlen|].
    intros i e He. destruct (Hunits i e He) as (Hg & chk & o & Ho & Hevs).
    split; [exact Hg|]. split; [eauto|]. split.
    { intros p Hin.
      assert (Hin' : In (EvDbCreate (TGo i) p None)
                       (events_of (TGo i) (trace (world st))))
        by (apply events_of_In; auto).
      rewrite Hevs in *. clear Hevs.
      destruct o as [err|p' err|p' x se].
      + exfalso. explicit_in Hin'.
      + destruct chk; simpl; eauto.
      + destruct chk; simpl; eauto. }
    intros p err Hin.
    assert (Hin' : In (EvDbCreate (TGo i) p (Some err))
                     (events_of (TGo i) (trace (world st))))
      by (apply events_of_In; auto).
    rewrite Hevs in *. clear Hevs. exists chk.
    destruct o as [err'|p' err'|p' x se].
    + destruct chk; explicit_in Hin'; injection Hin' as <- <-;
        reflexivity.
    + exfalso. destruct chk; explicit_in Hin'.
    + exfalso. destruct chk; explicit_in Hin'.
Qed.

(** A denied element is not stopped: when the permission check of
    element [i] answered with the denial [d], the goroutine published
    [d] and then went through the insert like any other element. *)
Lemma denied_element_goes_on (sched : list Tid) i e d :
  let st := handler ledger0 sched in
  goroutines st !! i = Some {| g_keysendInfo := e; g_pc := PcExited |} ->
  In (EvCheckPermission (TGo i) (ks_Amount e) (Some d)) (trace (world st)) ->
  exists o, outcome_ok requestEvent app e o /\
    events_of (TGo i) (trace (world st)) =
    [EvCheckPermission (TGo i) (ks_Amount e) (Some d);
     EvPublish (TGo i) d [dTag e]] ++
    outcome_events request requestEvent app i e o.
Proof.
  intros st Hg Hin.
  destruct (Inv_handler sched) as (Hsh & _). fold st in Hsh.
  destruct (Hsh i _ Hg) as (chk & o & Ho & Hevs). simpl in Ho, Hevs.
  assert (Hin' : In (EvCheckPermission (TGo i) (ks_Amount e) (Some d))
                   (events_of (TGo i) (trace (world st))))
    by (apply events_of_In; auto).
  exists o. split; [exact Ho|]. rewrite Hevs in *.
  destruct chk as [d'|].
  - explicit_in Hin'; injection Hin' as ->; reflexivity.
  - exfalso. explicit_in Hin'.
Qed.

(** ** One element, one payment *)

Lemma filter_length_app_le {A} (f : A -> bool) (a b : list A) :
  length (List.filter f a) <= length (List.filter f (a ++ b)).
Proof. rewrite List.filter_app, length_app. lia. Qed.

(** The events of goroutine [i], started or not, begin a complete run. *)
Lemma events_prefix_of_run st i :
  Inv' st ->
  events_of (TGo i) (trace (world st)) = [] \/
  exists g chk o rest,
    goroutines st !! i = Some g /\
    outcome_ok requestEvent app (g_keysendInfo g) o /\
    denial_events i (g_keysendInfo g) chk ++
    outcome_events request requestEvent app i (g_keysendInfo g) o
    = events_of (TGo i) (trace (world st)) ++ rest.
Proof.
  intros (Hsh & Htid & _).
  destruct (goroutines st !! i) as [g|] eqn:Hg.
  - right. destruct (shape_prefix _ _ _ _ (Hsh i g Hg))
      as (chk & o & rest & Ho & Heq).
    exists g, chk, o, rest. auto.
  - left. apply events_of_none. intros ev Hin Hev.
    destruct (Htid ev Hin) as (j & Hj & Hlt). rewrite Hev in Hj.
    injection Hj as <-. apply lookup_ge_None in Hg. lia.
Qed.

(** X1: in every interleaving a batch element makes at most one
    [SendKeysend] call and at most one insert into the ledger. *)
Theorem element_pays_at_most_once (sched : list Tid) (i : nat) :
  let tr := trace (world (handler ledger0 sched)) in
  length (List.filter is_backend_call (events_of (TGo i) tr)) <= 1 /\
  length (List.filter is_insert (events_of (TGo i) tr)) <= 1.
Proof.
  intros tr.
  destruct (events_prefix_of_run _ i (Inv_handler sched))
    as [Hnil|(g & chk & o & rest & _ & _ & Heq)]; fold tr in Hnil || fold tr in Heq.
  - rewrite Hnil. simpl. lia.
  - split.
    + etransitivity; [apply (filter_length_app_le _ _ rest)|].
      rewrite <- Heq. destruct chk, o; simpl; lia.
    + etransitivity; [apply (filter_length_app_le _ _ rest)|].
      rewrite <- Heq. destruct chk, o; simpl; lia.
Qed.

(** X2: the backend is asked to pay what the element says: the amount
    in millisatoshi as given, the recipient, the preimage and the TLV
    records of element [i]. *)
Theorem backend_call_carries_element_arguments (sched : list Tid)
    (params : Nip47MultiPayKeysendParams) (i : nat)
    (e : Nip47MultiPayKeysendElement) (amount : Z) (pubkey preimage : string)
    (tlv : list TLVRecord) :
  json_Unmarshal svc (Params request) = Ok params ->
  Keysends params !! i = Some e ->
  In (EvSendKeysendCall (TGo i) amount pubkey preimage tlv)
     (trace (world (handler ledger0 sched))) ->
  amount = ks_Amount e /\ pubkey = ks_Pubkey e /\
  preimage = ks_Preimage e /\ tlv = ks_TLVRecords e.
Proof.
  intros Hj He Hin.
  destruct (event_in_complete_run _ params _ i e (Inv_handler sched) Hj He
              Hin eq_refl) as (chk & o & Ho & Hrun).
  explicit_in Hrun; injection Hrun as <- <- <- <-; auto.
Qed.

(** X3: an element whose insert failed goes no further: its goroutine
    never calls the backend, and the only response it can have published
    is the denial of the permission check. *)
Theorem failed_insert_blocks_backend_call (sched : list Tid) (i : nat)
    (p : Payment) (err : string) :
  let tr := trace (world (handler ledger0 sched)) in
  In (EvDbCreate (TGo i) p (Some err)) tr ->
  (forall amount pubkey preimage tlv,
     ~ In (EvSendKeysendCall (TGo i) amount pubkey preimage tlv) tr) /\
  (forall r tags, In (EvPublish (TGo i) r tags) tr ->
     exists amount, In (EvCheckPermission (TGo i) amount (Some r)) tr).
Proof.
  intros tr Hin.
  destruct (event_thread _ _ i (Inv_handler sched) Hin eq_refl)
    as (g & Hg & Hsh & Hin').
  fold tr in Hsh, Hin'.
  assert (Hevs : exists chk,
            events_of (TGo i) tr
            = denial_events i (g_keysendInfo g) chk ++
              [EvDbCreate (TGo i) p (Some err)]).
  { destruct (g_pc g); simpl in Hsh; open_shape Hsh; rewrite Hsh in Hin';
      explicit_in Hin'; injection Hin' as <- <-; eexists; exact Hsh. }
  destruct Hevs as [chk Hevs]. split.
  - intros a pk pr tlv Hcall.
    assert (H : In (EvSendKeysendCall (TGo i) a pk pr tlv)
                  (events_of (TGo i) tr)) by (apply events_of_In; auto).
    rewrite Hevs in H. explicit_in H.
  - intros r tags Hpub.
    assert (H : In (EvPublish (TGo i) r tags) (events_of (TGo i) tr))
      by (apply events_of_In; auto).
    rewrite Hevs in H. explicit_in H. injection H as <- _.
    exists (ks_Amount (g_keysendInfo g)).
    apply (In_events_of_trace (TGo i)). fold tr. rewrite Hevs.
    simpl. auto.
Qed.

(** ** More invariants of the handler's states *)

Lemma invariant_with_Inv (J : State -> Prop) :
  J (init ledger0) ->
  (forall t st, Inv' st -> J st -> J (stepf t st)) ->
  forall sched, J (handler ledger0 sched).
Proof.
  intros H0 Hstep sched. unfold HandleMultiPayKeysendEvent.
  assert (H : forall st, Inv' st -> J st ->
            J (fold_left (fun st t => stepf t st) sched st)).
  { induction sched as [|t sched IH]; intros st HI HJ; [exact HJ|].
    cbn [fold_left]. apply IH; [apply Inv_step, HI|apply Hstep; assumption]. }
  apply H; [apply Inv_init|exact H0].
Qed.

Lemma step_go_world i st :
  Inv' st ->
  stepf (TGo i) st = st \/
  exists g, goroutines st !! i = Some g /\
    shape i (g_keysendInfo g) (g_pc g)
      (events_of (TGo i) (trace (world st))) /\
    world (stepf (TGo i) st)
    = snd (gstep i (g_keysendInfo g) (g_pc g) (world st)).
Proof.
  intros (Hsh & _). unfold step.
  destruct (goroutines st !! i) as [g|] eqn:Hg; [right|left; reflexivity].
  exists g. split; [reflexivity|]. split; [exact (Hsh i g Hg)|].
  destruct (gstep i (g_keysendInfo g) (g_pc g) (world st)). reflexivity.
Qed.

(** A goroutine that saves has not saved before. *)
Lemma gstep_save_first i e pc w q err :
  shape i e pc (events_of (TGo i) (trace w)) ->
  trace (snd (gstep i e pc w)) = trace w ++ [EvDbSave (TGo i) q err] ->
  forall q' err', ~ In (EvDbSave (TGo i) q' err') (trace w).
Proof.
  intros Hsh Heq q' err' Hin.
  assert (Hin' : In (EvDbSave (TGo i) q' err') (events_of (TGo i) (trace w)))
    by (apply events_of_In; auto).
  clear Hin. revert Hsh Heq Hin'.
  gstep_cases pc; intros Hsh Heq Hin';
    try (apply app_inv_head in Heq; discriminate Heq);
    try (apply (f_equal (@length Event)) in Heq; rewrite length_app in Heq;
         simpl in Heq; lia);
    open_shape Hsh; rewrite Hsh in Hin'; explicit_in Hin'.
Qed.

Lemma old_rows_kept_handler (sched : list Tid) :
  old_rows_kept ledger0 (handler ledger0 sched).
Proof.
  apply invariant_with_Inv.
  { unfold old_rows_kept, init. simpl. repeat split; auto. intros t p []. }
  intros t st HI (Hn & Hfresh & Hold). unfold old_rows_kept.
  destruct t as [|i]; [rewrite step_main_world; auto|].
  destruct (step_go_world i st HI) as [->|(g & Hg & Hsh & ->)]; [auto|].
  destruct (gstep_effect _ _ _ _ Hsh) as [->|(ev & Hev & Hevt & Hm)];
    [auto|].
  rewrite Hev.
  destruct ev as [| | | |t p [e|]| | |t q [e|]|];
    try (rewrite Hm; repeat split; auto; intros t' p' Hin;
         apply In_snoc in Hin as [Hin|Hin]; [exact (Hfresh t' p' Hin)
                                            |discriminate Hin]).
  - destruct Hm as [Hp ->]. repeat split.
    + pose proof (next_id_app (ledger (world st)) p). lia.
    + intros t' p' Hin. apply In_snoc in Hin as [Hin|Hin];
        [exact (Hfresh t' p' Hin)|]. injection Hin as _ ->.
      rewrite Hp. simpl. exact Hn.
    + intros r Hr. apply in_or_app. auto.
  - destruct Hm as [-> _]. repeat split; auto. intros t' p' Hin.
    apply In_snoc in Hin as [Hin|Hin]; [exact (Hfresh t' p' Hin)
                                       |discriminate Hin].
  - destruct Hm as [-> _]. repeat split; auto. intros t' p' Hin.
    apply In_snoc in Hin as [Hin|Hin]; [exact (Hfresh t' p' Hin)
                                       |discriminate Hin].
  - destruct Hm as (-> & p & x & -> & Hc & _). repeat split.
    + pose proof (next_id_upsert (with_Preimage p x) (ledger (world st))).
      lia.
    + intros t' p' Hin. apply In_snoc in Hin as [Hin|Hin];
        [exact (Hfresh t' p' Hin)|discriminate Hin].
    + intros r Hr. apply In_upsert_other; [exact (Hold r Hr)|].
      pose proof (In_lt_next_id r ledger0 Hr).
      pose proof (Hfresh _ _ Hc). simpl. lia.
Qed.

Lemma saved_kept_handler (sched : list Tid) :
  saved_kept (handler ledger0 sched).
Proof.
  apply invariant_with_Inv.
  { intros t q []. }
  intros t st HI Hkept. unfold saved_kept.
  destruct t as [|i]; [rewrite step_main_world; auto|].
  destruct (step_go_world i st HI) as [->|(g & Hg & Hsh & ->)]; [auto|].
  pose proof (gstep_save_first i (g_keysendInfo g) (g_pc g) (world st))
    as Hfirst.
  destruct (gstep_effect _ _ _ _ Hsh) as [->|(ev & Hev & Hevt & Hm)];
    [auto|].
  rewrite Hev in *.
  destruct HI as (_ & _ & _ & _ & _ & _ & _ & Hdist & Hown & _).
  intros t q Hin. apply In_snoc in Hin as [Hin|Hin].
  - pose proof (Hkept t q Hin) as Hq.
    destruct ev as [| | | |t0 p0 [e|]| | |t0 q0 [e|]|];
      try (rewrite Hm; exact Hq).
    + destruct Hm as [_ ->]. apply in_or_app. auto.
    + destruct Hm as [-> _]. exact Hq.
    + destruct Hm as [-> _]. exact Hq.
    + destruct Hm as (-> & p0 & x0 & -> & Hc0 & _).
      simpl in Hevt. subst t0.
      apply In_upsert_other; [exact Hq|]. intros Hid.
      destruct (Hown t q None Hin) as (p & x & -> & Hc & _).
      simpl in Hid.
      assert (t = TGo i) as -> by exact (Hdist _ _ _ _ Hc Hc0 Hid).
      exact (Hfirst _ _ Hsh eq_refl _ _ Hin).
  - subst ev. destruct Hm as [-> _]. apply In_upsert_self.
Qed.

(** ** Pending before the call, preimage after its success *)

Lemma split_snoc {A} (tr pre post : list A) (ev a : A) :
  tr ++ [ev] = pre ++ a :: post ->
  (post = [] /\ pre = tr /\ a = ev) \/
  exists post', post = post' ++ [ev] /\ tr = pre ++ a :: post'.
Proof.
  intros Heq. destruct post as [|y post0].
  - apply app_inj_tail in Heq as [-> ->]. auto.
  - right. destruct (@exists_last _ (y :: post0)) as (post' & x & Hx);
      [discriminate|].
    rewrite Hx in Heq.
    change (pre ++ a :: post' ++ [x]) with (pre ++ (a :: post') ++ [x])
      in Heq.
    rewrite app_assoc in Heq. apply app_inj_tail in Heq as [Heq ->].
    exists post'. auto.
Qed.

Lemma saves_after_insert_handler (sched : list Tid) :
  saves_after_insert (handler ledger0 sched).
Proof.
  apply invariant_with_Inv.
  { intros [|? ?] t q err post H; discriminate H. }
  intros t st HI Hsaves. unfold saves_after_insert.
  destruct t as [|i]; [rewrite step_main_world; auto|].
  destruct (step_go_world i st HI) as [->|(g & Hg & Hsh & ->)]; [auto|].
  destruct (gstep_effect _ _ _ _ Hsh) as [->|(ev & Hev & Hevt & Hm)];
    [auto|].
  rewrite Hev. intros pre t q err post Heq.
  apply split_snoc in Heq as [(_ & -> & Hsave)|(post' & _ & Heq)].
  - subst ev. simpl in Hevt. subst t.
    destruct Hm as (_ & p & x & Hq & Hc & Hr). exists p, x. auto.
  - exact (Hsaves _ _ _ _ _ Heq).
Qed.

(** C3: in every interleaving, (1) a [SendKeysend] call is issued only
    after the same goroutine inserted a Payment record without preimage;
    (2) a record is inserted without preimage; (3) the record a
    goroutine saves is the record this same goroutine inserted before,
    with the preimage that its own backend call returned before; (4) a
    row of the ledger with a preimage is a row that was there before the
    handler ran, or it is the record that a goroutine inserted, saved by
    this goroutine with the preimage that the backend returned to it;
    (5) a record is saved by no goroutine but the one that inserted
    it. *)
Theorem payment_pending_before_send_preimage_after_success
    (sched : list Tid) :
  let st := handler ledger0 sched in
  let tr := trace (world st) in
  (forall pre post t amount pubkey preimage tlv,
     tr = pre ++ EvSendKeysendCall t amount pubkey preimage tlv :: post ->
     exists p, In (EvDbCreate t p None) pre /\ pay_Preimage p = None) /\
  (forall pre post t p,
     tr = pre ++ EvDbCreate t p None :: post -> pay_Preimage p = None) /\
  (forall pre post t q err,
     tr = pre ++ EvDbSave t q err :: post ->
     exists p x, q = with_Preimage p x /\
       In (EvDbCreate t p None) pre /\
       In (EvSendKeysendRet t (Ok x)) pre) /\
  (forall r x,
     In r (ledger (world st)) -> pay_Preimage r = Some x ->
     In r ledger0 \/
     exists t p, r = with_Preimage p x /\
       In (EvDbCreate t p None) tr /\
       In (EvSendKeysendRet t (Ok x)) tr /\
       In (EvDbSave t r None) tr) /\
  (forall t t' p q err,
     In (EvDbCreate t p None) tr -> In (EvDbSave t' q err) tr ->
     pay_ID q = pay_ID p -> t' = t).
Proof.
  intros st tr.
  destruct (Inv_handler sched)
    as (_ & _ & _ & _ & Hord & Hrows & _ & Hdist & Hown & _).
  fold st in Hord, Hrows, Hdist, Hown. fold tr in Hord, Hrows, Hdist, Hown.
  split; [|split; [|split; [|split]]].
  - intros pre post t a pk pr tlv Heq. exact (Hord _ _ _ Heq).
  - intros pre post t p Heq. exact (Hord _ _ _ Heq).
  - intros pre post t q err Heq.
    exact (saves_after_insert_handler sched _ _ _ _ _ Heq).
  - intros r x Hr Hx.
    destruct (Hrows r Hr) as [H0|(t & [Hc|Hs])]; [left; exact H0| |].
    + apply in_split in Hc as (pre & post & Heq).
      pose proof (Hord _ _ _ Heq) as Hp. simpl in Hp. congruence.
    + destruct (Hown t r None Hs) as (p & x' & Hq & Hc & Hret).
      right. exists t, p. rewrite Hq in Hx. simpl in Hx.
      injection Hx as ->. auto.
  - intros t t' p q err Hc Hs Hid.
    destruct (Hown t' q err Hs) as (p' & x & -> & Hc' & _).
    simpl in Hid. exact (Hdist _ _ _ _ Hc' Hc Hid).
Qed.

(** X4: the handler leaves the rows that were in the ledger before it
    ran where they are; the rows it inserts get keys that no old row
    has, and two elements never get the same key. *)
Theorem old_payments_are_untouched (sched : list Tid) :
  let st := handler ledger0 sched in
  (forall r, In r ledger0 -> In r (ledger (world st))) /\
  (forall t p r, In (EvDbCreate t p None) (trace (world st)) ->
     In r ledger0 -> pay_ID r < pay_ID p) /\
  (forall i j p q,
     In (EvDbCreate (TGo i) p None) (trace (world st)) ->
     In (EvDbCreate (TGo j) q None) (trace (world st)) ->
     pay_ID p = pay_ID q -> i = j).
Proof.
  intros st.
  destruct (old_rows_kept_handler sched) as (_ & Hfresh & Hold).
  destruct (Inv_handler sched) as (_ & _ & _ & _ & _ & _ & _ & Hdist & _).
  fold st in Hfresh, Hold, Hdist.
  split; [exact Hold|]. split.
  - intros t p r Hc Hr. pose proof (Hfresh t p Hc).
    pose proof (In_lt_next_id r ledger0 Hr). lia.
  - intros i j p q Hp Hq Hid.
    pose proof (Hdist _ _ _ _ Hp Hq Hid) as H. congruence.
Qed.

(** X5: when the backend call of element [i] succeeded with preimage
    [x], the goroutine saved its record with [x] and published the
    success response with [x] under the element's tag. If the save went
    through, the row with the preimage is in the ledger; if the save
    failed (its error is ignored), the caller is told of the success all
    the same and the row stays as inserted, without preimage. *)
Theorem successful_payment_is_recorded (sched : list Tid) (i : nat)
    (e : Nip47MultiPayKeysendElement) (x : string) :
  let st := handler ledger0 sched in
  let tr := trace (world st) in
  goroutines st !! i = Some {| g_keysendInfo := e; g_pc := PcExited |} ->
  In (EvSendKeysendRet (TGo i) (Ok x)) tr ->
  exists p save_err,
    created requestEvent app e p /\
    In (EvDbSave (TGo i) (with_Preimage p x) save_err) tr /\
    In (EvPublish (TGo i)
          {| ResultType := Method request; resp_Error := None;
             resp_Result := Some (Nip47PayResponse x) |} [dTag e]) tr /\
    match save_err with
    | None => In (with_Preimage p x) (ledger (world st))
    | Some _ => In p (ledger (world st))
    end.
Proof.
  intros st tr Hg Hin.
  pose proof (Inv_handler sched) as HI. fold st in HI.
  pose proof HI as (Hsh & _).
  pose proof (Hsh i _ Hg) as (chk & o & Ho & Hevs).
  simpl in Ho, Hevs. fold tr in Hevs.
  assert (Hin' : In (EvSendKeysendRet (TGo i) (Ok x)) (events_of (TGo i) tr))
    by (apply events_of_In; auto).
  rewrite Hevs in Hin'.
  destruct o as [err|p err|p x' se];
    [exfalso; explicit_in Hin'|exfalso; explicit_in Hin'|].
  assert (x' = x) as -> by (explicit_in Hin'; congruence).
  assert (Hall : forall ev,
            In ev (outcome_events request requestEvent app i e (Paid p x se))
            -> In ev tr).
  { intros ev Hev. apply (In_events_of_trace (TGo i)). rewrite Hevs.
    apply in_or_app. auto. }
  exists p, se. split; [exact Ho|]. split; [apply Hall; simpl; auto|].
  split; [apply Hall; simpl; auto 10|].
  destruct se as [serr|].
  - destruct HI as (_ & _ & _ & _ & _ & _ & _ & _ & _ & Hkept).
    apply (Hkept (TGo i)); [apply Hall; simpl; auto|].
    intros q Hq.
    assert (Hq' : In (EvDbSave (TGo i) q None) (events_of (TGo i) tr))
      by (apply events_of_In; auto).
    rewrite Hevs in Hq'. explicit_in Hq'.
  - apply (saved_kept_handler sched (TGo i)). apply Hall. simpl. auto.
Qed.

(** ** The empty batch *)

Lemma empty_batch_state params :
  json_Unmarshal svc (Params request) = Ok params ->
  Keysends params = [] ->
  forall sched,
    let st := handler ledger0 sched in
    world st = {| ledger := ledger0; trace := [] |} /\
    goroutines st = [] /\ wg st = 0.
Proof.
  intros Hj Hk.
  apply (invariant_with_Inv
           (fun st => world st = {| ledger := ledger0; trace := [] |} /\
                      goroutines st = [] /\ wg st = 0)).
  { repeat split. }
  intros t st HI (Hw & Hg & Hwg).
  destruct t as [|i].
  - rewrite step_main_world. split; [exact Hw|].
    destruct HI as (_ & _ & _ & Hmain & _). unfold main_ok in Hmain.
    unfold step. destruct (main st) as [|[|k rest]| |err]; simpl; auto.
    + destruct (json_Unmarshal svc (Params request)); simpl; auto.
    + destruct Hmain as (params' & Hj' & Hk'). rewrite Hj in Hj'.
      injection Hj' as <-. rewrite Hk, Hg in Hk'. discriminate Hk'.
    + destruct (Nat.eqb (wg st) 0); simpl; auto.
  - unfold step. rewrite Hg. simpl. auto.
Qed.

Lemma handler_snoc sched t :
  handler ledger0 (sched ++ [t]) = stepf t (handler ledger0 sched).
Proof.
  unfold HandleMultiPayKeysendEvent. rewrite fold_left_app. reflexivity.
Qed.

Lemma main_steps_snoc sched t :
  main_steps (sched ++ [t])
  = main_steps sched + (if Tid_eqb TMain t then 1 else 0).
Proof.
  unfold main_steps. rewrite List.filter_app, length_app. simpl.
  destruct t; reflexivity.
Qed.

(** X6: on a batch without elements the handler publishes nothing,
    starts no goroutine and leaves the ledger alone, and its third own
    step returns [nil]. *)
Theorem empty_batch_does_nothing (sched : list Tid)
    (params : Nip47MultiPayKeysendParams) :
  json_Unmarshal svc (Params request) = Ok params ->
  Keysends params = [] ->
  let st := handler ledger0 sched in
  world st = {| ledger := ledger0; trace := [] |} /\
  goroutines st = [] /\
  main st = main_after_empty (main_steps sched).
Proof.
  intros Hj Hk st.
  destruct (empty_batch_state params Hj Hk sched) as (Hw & Hg & _).
  split; [exact Hw|]. split; [exact Hg|]. clear Hw Hg. subst st.
  induction sched as [|t sched IH] using rev_ind; [reflexivity|].
  rewrite handler_snoc, main_steps_snoc.
  destruct (empty_batch_state params Hj Hk sched) as (_ & Hg & Hwg).
  destruct t as [|i]; simpl.
  - unfold step. rewrite IH, Nat.add_1_r.
    destruct (main_steps sched) as [|[|[|k]]]; simpl.
    + rewrite Hj, Hk. reflexivity.
    + reflexivity.
    + rewrite Hwg. reflexivity.
    + exact IH.
  - rewrite Nat.add_0_r. unfold step. rewrite Hg. exact IH.
Qed.

(** ** No deadlock *)

Lemma main_reaches_wait params k st :
  json_Unmarshal svc (Params request) = Ok params ->
  Inv' st ->
  steps_to_wait (length (Keysends params)) (main st) <= k ->
  let st' := run_from st (repeat TMain k) in
  main st' = MWait \/ main st' = MReturned None.
Proof.
  intros Hj. revert st. induction k as [|k IH]; intros st HI Hk;
    cbn [repeat fold_left].
  - destruct HI as (_ & _ & _ & Hmain & _). unfold main_ok in Hmain.
    destruct (main st) as [|rest| |[err|]]; simpl in Hk; try lia; auto.
    destruct Hmain as [Hj' _]. congruence.
  - apply IH; [apply Inv_step, HI|].
    pose proof HI as (_ & _ & _ & Hmain & _). unfold main_ok in Hmain.
    unfold step.
    destruct (main st) as [|[|e rest]| |err] eqn:Em; simpl in *;
      rewrite ?Em; simpl; try lia.
    + rewrite Hj. simpl. lia.
    + destruct (Nat.eqb (wg st) 0); simpl; rewrite ?Em; simpl; lia.
Qed.

(** X7: the handler of a well-formed batch cannot get stuck: from
    every state it can be in, letting its own goroutine run, then each
    worker, then its own goroutine once more makes it return [nil]. *)
Theorem handler_can_always_return (sched : list Tid)
    (params : Nip47MultiPayKeysendParams) :
  json_Unmarshal svc (Params request) = Ok params ->
  main (handler ledger0
          (sched ++ sequential_schedule (length (Keysends params))))
  = MReturned None.
Proof.
  intros Hj. unfold HandleMultiPayKeysendEvent, sequential_schedule.
  set (n := length (Keysends params)).
  rewrite !fold_left_app.
  set (st0 := run_from (init ledger0) sched).
  assert (HI0 : Inv' st0) by apply Inv_handler.
  set (st1 := run_from st0 (repeat TMain (S (S n)))).
  assert (HI1 : Inv' st1) by (apply Inv_run_from, HI0).
  assert (Hm1 : main st1 = MWait \/ main st1 = MReturned None).
  { apply (main_reaches_wait params); [exact Hj|exact HI0|].
    fold n. destruct HI0 as (_ & _ & _ & Hmain & _).
    unfold main_ok in Hmain.
    destruct (main st0) as [|rest| |err]; simpl; try lia.
    destruct Hmain as (params' & Hj' & Hk). rewrite Hj in Hj'.
    injection Hj' as <-. unfold n. rewrite Hk, length_app. lia. }
  set (st2 := run_from st1 (flat_map (fun i => repeat (TGo i) worker_steps)
                              (seq 0 n))).
  destruct (workers_run_to_end (seq 0 n) st1) as (Hm2 & Hl2 & _ & Hz).
  fold st2 in Hm2, Hl2, Hz.
  assert (HI2 : Inv' st2) by (apply Inv_run_from, HI1).
  cbn [fold_left]. unfold step. rewrite Hm2.
  destruct Hm1 as [Hm1|Hm1]; rewrite Hm1; [|exact (eq_trans Hm2 Hm1)].
  destruct HI2 as (_ & _ & Hwg & Hmain & _).
  unfold main_ok in Hmain. rewrite Hm2, Hm1 in Hmain.
  destruct Hmain as (params' & Hj' & Hk). rewrite Hj in Hj'.
  injection Hj' as <-.
  assert (Hlive : live (goroutines st2) = 0).
  { apply live_all_exited. intros i g Hg. apply rank_zero.
    assert (Hi : In i (seq 0 n)).
    { apply in_seq. pose proof (lookup_lt_Some _ _ _ Hg) as Hlt.
      unfold n. rewrite Hk, length_map. lia. }
    specialize (Hz i Hi). unfold rank_at in Hz. rewrite Hg in Hz.
    exact Hz. }
  unfold wg_counts in Hwg. rewrite Hwg, Hlive. reflexivity.
Qed.

End Batch.

(** * sign_message, and the handlers at concrete requests *)

(** C8: a sign_message request that decodes gets exactly one response,
    published without tags; when the permission check allows the request,
    its [result_type] is the method of the request, whether the signer
    succeeded or failed. *)
Theorem sign_message_publishes_one_untagged_response
    (svc : Service) (nip47Request : Nip47Request)
    (requestEvent : RequestEvent) (app : App) (w : World) :
  snd (decodeNip47Request svc nip47Request requestEvent app) = None ->
  exists new r,
    trace (snd (HandleSignMessageEvent svc nip47Request requestEvent app w))
      = trace w ++ new /\
    published new = [(r, [])] /\
    (checkPermission svc w nip47Request (ByNostrId (NostrId requestEvent))
       app 0%Z = None ->
     ResultType r = Method nip47Request).
Proof.
  intros Hdec.
  destruct (HandleSignMessageEvent_trace svc nip47Request requestEvent app w)
    as (_ & new & Htr & Hcase).
  rewrite Hdec in Hcase. exists new.
  destruct (checkPermission svc w nip47Request
              (ByNostrId (NostrId requestEvent)) app 0%Z) as [d|].
  - exists d. subst new. repeat split; [exact Htr|discriminate].
  - destruct Hcase as (res & r & -> & Hrt & _). exists r.
    repeat split; [exact Htr|]. intros _. exact Hrt.
Qed.

Lemma sign_message_publishes_one_untagged_response_witness :
  snd (decodeNip47Request (Demo.service None []) (Demo.sign_request "hello")
         Demo.requestEvent Demo.app) = None /\
  exists new r,
    trace (Demo.run_sign "hello") = trace Demo.empty_world ++ new /\
    published new = [(r, [])] /\
    (checkPermission (Demo.service None []) Demo.empty_world
       (Demo.sign_request "hello") (ByNostrId (NostrId Demo.requestEvent))
       Demo.app 0%Z = None ->
     ResultType r = Method (Demo.sign_request "hello")).
Proof.
  split; [reflexivity|].
  apply (sign_message_publishes_one_untagged_response (Demo.service None [])
           (Demo.sign_request "hello") Demo.requestEvent Demo.app
           Demo.empty_world).
  reflexivity.
Defined.

(** A sign_message request that does not decode: the decoder's response
    is published, alone and without tags; no backend call, no ledger
    write. *)
Lemma sign_message_decode_failure (svc : Service)
    (nip47Request : Nip47Request) (requestEvent : RequestEvent) (app : App)
    (w : World) (r : Nip47Response) :
  snd (decodeNip47Request svc nip47Request requestEvent app) = Some r ->
  snd (HandleSignMessageEvent svc nip47Request requestEvent app w)
  = {| ledger := ledger w; trace := trace w ++ [EvPublish TMain r []] |}.
Proof.
  intros Hdec. unfold HandleSignMessageEvent.
  destruct (decodeNip47Request svc nip47Request requestEvent app)
    as [signParams resp]. simpl in Hdec. subst resp. reflexivity.
Qed.

(** C10: whatever the request, the permission policy and the signer do,
    [HandleSignMessageEvent] leaves the ledger as it found it, and none
    of the calls it makes is a ledger write. *)
Theorem sign_message_leaves_ledger_unchanged
    (svc : Service) (nip47Request : Nip47Request)
    (requestEvent : RequestEvent) (app : App) (w : World) :
  ledger (snd (HandleSignMessageEvent svc nip47Request requestEvent app w))
  = ledger w /\
  exists new,
    trace (snd (HandleSignMessageEvent svc nip47Request requestEvent app w))
      = trace w ++ new /\
    List.filter is_ledger_write new = [].
Proof.
  destruct (HandleSignMessageEvent_trace svc nip47Request requestEvent app w)
    as (Hl & new & Htr & Hcase).
  split; [exact Hl|]. exists new. split; [exact Htr|].
  destruct (snd (decodeNip47Request svc nip47Request requestEvent app));
    [subst new; reflexivity|].
  destruct (checkPermission svc w nip47Request
              (ByNostrId (NostrId requestEvent)) app 0%Z);
    [subst new; reflexivity|].
  destruct Hcase as (res & r & -> & _). reflexivity.
Qed.

(** After the denial is published the goroutine goes on to the insert:
    the body has no [return] there. *)
Lemma denial_does_not_return (svc : Service) (request : Nip47Request)
    (requestEvent : RequestEvent) (app : App) (i : nat)
    (e : Nip47MultiPayKeysendElement) (resp : Nip47Response) (w : World) :
  goroutine_step svc request requestEvent app i e (PcPublishDenied resp) w
  = (PcDbCreate, emit (EvPublish (TGo i) resp [dTag e]) w).
Proof. reflexivity. Qed.

(** C1, at the batch of three of section 8 of the specification
    (element 1, tagged [k2], is over budget): the handler returns; the
    permission check denied element 1; two responses were published for
    it, the denial and then a success with a preimage; its goroutine
    called [SendKeysend]; its Payment record is in the ledger, with the
    preimage; the batch of three got four responses. *)
Theorem denied_element_is_paid_all_the_same :
  main Demo.run_batch3 = MReturned None /\
  In (EvCheckPermission (TGo 1) 90000%Z
        (Some (Demo.error_response "multi_pay_keysend" "QUOTA_EXCEEDED"
                 "budget exceeded")))
     (trace (world Demo.run_batch3)) /\
  published (events_of (TGo 1) (trace (world Demo.run_batch3))) =
    [(Demo.error_response "multi_pay_keysend" "QUOTA_EXCEEDED"
        "budget exceeded", [["d"; "k2"]]);
     ({| ResultType := "multi_pay_keysend"; resp_Error := None;
         resp_Result := Some (Nip47PayResponse "pre:02bb") |},
      [["d"; "k2"]])] /\
  List.filter is_backend_call
    (events_of (TGo 1) (trace (world Demo.run_batch3))) =
    [EvSendKeysendCall (TGo 1) 90000%Z "02bb" "" []] /\
  In (with_Preimage (Demo.pending_payment 3 90%Z) "pre:02bb")
     (ledger (world Demo.run_batch3)) /\
  length (published (trace (world Demo.run_batch3))) = 4.
Proof. vm_compute. repeat split; auto 30. Qed.

(** C2, witness: the payload [[]] does not decode; the batch handler
    publishes nothing and returns the error. *)
Lemma malformed_batch_payload_gets_no_response_witness :
  json_Unmarshal (Demo.service None Demo.batch3)
    (Params (Demo.keysend_request "[]"))
  = Err "json: cannot unmarshal array into Go value" /\
  published (trace (world Demo.run_malformed)) = [] /\
  main Demo.run_malformed
  = MReturned (Some "json: cannot unmarshal array into Go value").
Proof.
  split; [reflexivity|].
  destruct (malformed_batch_payload_gets_no_response
              (Demo.service None Demo.batch3) (Demo.keysend_request "[]")
              Demo.requestEvent Demo.app [] (sequential_schedule 3)
              "json: cannot unmarshal array into Go value" eq_refl)
    as (_ & Hp & _ & Hm).
  split; [exact Hp|]. apply Hm. simpl. auto.
Defined.

(** C4 as stated fails when the insert of the Payment record fails: the
    handler returns and the batch of one element has no response. *)
Lemma batch_insert_failure_gets_no_response :
  main Demo.run_db_down = MReturned None /\
  length (goroutines Demo.run_db_down) = 1 /\
  length (published (trace (world Demo.run_db_down))) <> 1.
Proof. vm_compute. repeat split. discriminate. Qed.

Lemma batch_one_tagged_response_per_inserted_element_witness :
  json_Unmarshal (Demo.service None Demo.batch_ok)
    (Params (Demo.keysend_request "{}"))
  = Ok {| Keysends := Demo.batch_ok |} /\
  main Demo.run_batch_ok = MReturned None /\
  length (published (trace (world Demo.run_batch_ok)))
  = length Demo.batch_ok.
Proof.
  split; [reflexivity|]. split; [reflexivity|].
  destruct (batch_one_tagged_response_per_inserted_element
              (Demo.service None Demo.batch_ok) (Demo.keysend_request "{}")
              Demo.requestEvent Demo.app [] (sequential_schedule 2)
              {| Keysends := Demo.batch_ok |} eq_refl eq_refl)
    as (_ & _ & _ & H).
  apply H. intros i e He.
  destruct i as [|[|i]]; simpl in He; [| |discriminate];
    injection He as <-.
  - split; [vm_compute; auto 30|].
    exists (Demo.pending_payment 1 21%Z). vm_compute. auto 30.
  - split; [vm_compute; auto 30|].
    exists (Demo.pending_payment 2 3%Z). vm_compute. auto 30.
Defined.

(** C5 as stated fails: element 0 of the batch asks for 21000 and its
    Payment record holds 21. *)
Lemma stored_amount_differs_from_input_amount :
  ~ (forall i e p err,
       Demo.batch3 !! i = Some e ->
       In (EvDbCreate (TGo i) p err) (trace (world Demo.run_batch3)) ->
       pay_Amount p = ks_Amount e).
Proof.
  intros H.
  specialize (H 0 (Demo.element "" "02aa" 21000%Z)
                (Demo.pending_payment 1 21%Z) None eq_refl).
  assert (Hin : In (EvDbCreate (TGo 0) (Demo.pending_payment 1 21%Z) None)
                  (trace (world Demo.run_batch3)))
    by (vm_compute; auto 30).
  specialize (H Hin). discriminate H.
Qed.

Lemma payment_amount_is_msat_div_1000_witness :
  json_Unmarshal (Demo.service None Demo.batch3)
    (Params (Demo.keysend_request "{}"))
  = Ok {| Keysends := Demo.batch3 |} /\
  pay_Amount (Demo.pending_payment 1 21%Z) = uint (go_div 21000 1000) /\
  pay_Amount (Demo.pending_payment 1 21%Z) = (21000 / 1000)%Z.
Proof.
  split; [reflexivity|].
  destruct (payment_amount_is_msat_div_1000
              (Demo.service None Demo.batch3) (Demo.keysend_request "{}")
              Demo.requestEvent Demo.app [] (Demo.round_robin 12)
              {| Keysends := Demo.batch3 |} eq_refl) as [H _].
  destruct (H 0 (Demo.element "" "02aa" 21000%Z)
              (Demo.pending_payment 1 21%Z) None eq_refl) as [H1 H2].
  - vm_compute. auto 30.
  - split; [exact H1|]. apply H2. simpl. lia.
Defined.

(** C6 as stated fails: the backend call of the only element fails;
    afterwards its goroutine writes nothing to the ledger, and the ledger
    holds the record exactly as it was inserted. *)
Lemma failed_payment_is_left_as_inserted :
  In (EvSendKeysendRet (TGo 0) (Err "no route"))
     (trace (world Demo.run_unreachable)) /\
  In (EvDbCreate (TGo 0) (Demo.pending_payment 1 3%Z) None)
     (trace (world Demo.run_unreachable)) /\
  main Demo.run_unreachable = MReturned None /\
  writes_after_return (TGo 0) (trace (world Demo.run_unreachable)) = [] /\
  ledger (world Demo.run_unreachable) = [Demo.pending_payment 1 3%Z].
Proof. vm_compute. repeat split; auto 30. Qed.

Lemma failed_payment_is_kept_as_inserted_witness :
  In (EvSendKeysendRet (TGo 0) (Err "no route"))
     (trace (world Demo.run_unreachable)) /\
  writes_after_return (TGo 0) (trace (world Demo.run_unreachable)) = [] /\
  exists p, In (EvDbCreate (TGo 0) p None)
              (trace (world Demo.run_unreachable)) /\
    pay_Preimage p = None /\ In p (ledger (world Demo.run_unreachable)).
Proof.
  assert (Hin : In (EvSendKeysendRet (TGo 0) (Err "no route"))
                  (trace (world Demo.run_unreachable)))
    by (vm_compute; auto 30).
  split; [exact Hin|].
  apply (failed_payment_is_kept_as_inserted
           (Demo.service None [Demo.element "" "03bad" 3000%Z])
           (Demo.keysend_request "{}") Demo.requestEvent Demo.app []
           (sequential_schedule 1) 0 "no route").
  exact Hin.
Defined.

Lemma failed_backend_call_of_denied_element_publishes_two_errors_witness :
  goroutines Demo.run_denied_unreachable !! 0
  = Some {| g_keysendInfo := Demo.element "" "03bad" 90000%Z;
            g_pc := PcExited |} /\
  In (EvSendKeysendRet (TGo 0) (Err "no route"))
     (trace (world Demo.run_denied_unreachable)) /\
  In (EvCheckPermission (TGo 0) 90000%Z
        (Some (Demo.error_response "multi_pay_keysend" "QUOTA_EXCEEDED"
                 "budget exceeded")))
     (trace (world Demo.run_denied_unreachable)) /\
  published (events_of (TGo 0) (trace (world Demo.run_denied_unreachable)))
  = [(Demo.error_response "multi_pay_keysend" "QUOTA_EXCEEDED"
        "budget exceeded", [["d"; "03bad"]]);
     (Demo.error_response "multi_pay_keysend" "INTERNAL" "no route",
      [["d"; "03bad"]])] /\
  goroutines Demo.run_unreachable !! 0
  = Some {| g_keysendInfo := Demo.element "" "03bad" 3000%Z;
            g_pc := PcExited |} /\
  In (EvSendKeysendRet (TGo 0) (Err "no route"))
     (trace (world Demo.run_unreachable)) /\
  published (events_of (TGo 0) (trace (world Demo.run_unreachable)))
  = [(Demo.error_response "multi_pay_keysend" "INTERNAL" "no route",
      [["d"; "03bad"]])].
Proof.
  assert (Hg : goroutines Demo.run_denied_unreachable !! 0
               = Some {| g_keysendInfo := Demo.element "" "03bad" 90000%Z;
                         g_pc := PcExited |}) by reflexivity.
  assert (Hin : In (EvSendKeysendRet (TGo 0) (Err "no route"))
                  (trace (world Demo.run_denied_unreachable)))
    by (vm_compute; auto 30).
  assert (Hd : In (EvCheckPermission (TGo 0) 90000%Z
                     (Some (Demo.error_response "multi_pay_keysend"
                              "QUOTA_EXCEEDED" "budget exceeded")))
                 (trace (world Demo.run_denied_unreachable)))
    by (vm_compute; auto 30).
  assert (Hg' : goroutines Demo.run_unreachable !! 0
                = Some {| g_keysendInfo := Demo.element "" "03bad" 3000%Z;
                          g_pc := PcExited |}) by reflexivity.
  assert (Hin' : In (EvSendKeysendRet (TGo 0) (Err "no route"))
                   (trace (world Demo.run_unreachable)))
    by (vm_compute; auto 30).
  split; [exact Hg|]. split; [exact Hin|]. split; [exact Hd|].
  split.
  - destruct (failed_backend_call_of_denied_element_publishes_two_errors
                (Demo.service None [Demo.element "" "03bad" 90000%Z])
                (Demo.keysend_request "{}") Demo.requestEvent Demo.app [])
      as [_ Hb].
    destruct (Hb (sequential_schedule 1) 0 _ "no route" Hg Hin)
      as (_ & _ & _ & Htwo).
    exact (Htwo _ Hd).
  - split; [exact Hg'|]. split; [exact Hin'|].
    destruct (failed_backend_call_of_denied_element_publishes_two_errors
                (Demo.service None [Demo.element "" "03bad" 3000%Z])
                (Demo.keysend_request "{}") Demo.requestEvent Demo.app [])
      as [_ Hb].
    destruct (Hb (sequential_schedule 1) 0 _ "no route" Hg' Hin')
      as (_ & Hone & _).
    apply Hone. vm_compute. auto 30.
Defined.

Lemma payment_pending_before_send_preimage_after_success_witness :
  let r := with_Preimage (Demo.pending_payment 1 21%Z) "pre:02aa" in
  In r (ledger (world Demo.run_batch_ok)) /\
  pay_Preimage r = Some "pre:02aa" /\
  exists t p, r = with_Preimage p "pre:02aa" /\
    In (EvDbCreate t p None) (trace (world Demo.run_batch_ok)) /\
    In (EvSendKeysendRet t (Ok "pre:02aa"))
       (trace (world Demo.run_batch_ok)) /\
    In (EvDbSave t r None) (trace (world Demo.run_batch_ok)).
Proof.
  intros r.
  assert (Hin : In r (ledger (world Demo.run_batch_ok)))
    by (vm_compute; auto).
  split; [exact Hin|]. split; [reflexivity|].
  destruct (payment_pending_before_send_preimage_after_success
              (Demo.service None Demo.batch_ok) (Demo.keysend_request "{}")
              Demo.requestEvent Demo.app [] (sequential_schedule 2))
    as (_ & _ & _ & Hrow & _).
  destruct (Hrow r "pre:02aa" Hin eq_refl) as [[]|H]. exact H.
Defined.

(** C9 as stated fails when the inserts of the Payment records fail:
    the handler returns, both goroutines have finished, and neither has
    published a response. *)
Lemma handler_returns_with_unanswered_elements :
  main Demo.run_db_down_two = MReturned None /\
  wg Demo.run_db_down_two = 0 /\
  map g_pc (goroutines Demo.run_db_down_two) = [PcExited; PcExited] /\
  published (trace (world Demo.run_db_down_two)) = [].
Proof. vm_compute. repeat split. Qed.

Lemma handler_returns_after_all_goroutines_finish_witness :
  main Demo.run_batch3 = MReturned None /\
  wg Demo.run_batch3 = 0 /\
  goroutines Demo.run_batch3 !! 2
  = Some {| g_keysendInfo := Demo.element "" "03bad" 3000%Z;
            g_pc := PcExited |} /\
  exists r, last (events_of (TGo 2) (trace (world Demo.run_batch3)))
            = Some (EvPublish (TGo 2) r [["d"; "03bad"]]).
Proof.
  split; [reflexivity|].
  destruct (handler_returns_after_all_goroutines_finish
              (Demo.service None Demo.batch3) (Demo.keysend_request "{}")
              Demo.requestEvent Demo.app [] (Demo.round_robin 12) eq_refl)
    as (Hwg & params & Hj & _ & Hunits).
  split; [exact Hwg|].
  injection Hj as <-.
  destruct (Hunits 2 (Demo.element "" "03bad" 3000%Z) eq_refl)
    as (Hg & _ & Hlast & _).
  split; [exact Hg|].
  apply (Hlast (Demo.pending_payment 2 3%Z)). vm_compute. auto 30.
Defined.

(** * More about sign_message *)

(** X8: a sign_message request that does not decode, or that the
    permission check denies, is answered with the response of the
    decoder or of the check, alone and without tags, and the signer is
    never called. *)
Theorem sign_message_refused_request_is_not_signed
    (svc : Service) (nip47Request : Nip47Request)
    (requestEvent : RequestEvent) (app : App) (w : World)
    (r : Nip47Response) :
  snd (decodeNip47Request svc nip47Request requestEvent app) = Some r \/
  (snd (decodeNip47Request svc nip47Request requestEvent app) = None /\
   checkPermission svc w nip47Request (ByNostrId (NostrId requestEvent))
     app 0%Z = Some r) ->
  exists new,
    trace (snd (HandleSignMessageEvent svc nip47Request requestEvent app w))
      = trace w ++ new /\
    published new = [(r, [])] /\
    List.filter is_backend_call new = [].
Proof.
  intros H.
  destruct (HandleSignMessageEvent_trace svc nip47Request requestEvent app w)
    as (_ & new & Htr & Hcase).
  exists new. split; [exact Htr|].
  destruct H as [Hd|[Hd Hc]]; rewrite Hd in Hcase.
  - subst new. split; reflexivity.
  - rewrite Hc in Hcase. subst new. split; reflexivity.
Qed.

(** X9: a sign_message request that decodes and is allowed calls the
    signer once, with the decoded message; when the signer succeeds, the
    one response carries that message and the signature the signer
    returned. *)
Theorem sign_message_answers_with_backend_signature
    (svc : Service) (nip47Request : Nip47Request)
    (requestEvent : RequestEvent) (app : App) (w : World) :
  snd (decodeNip47Request svc nip47Request requestEvent app) = None ->
  checkPermission svc w nip47Request (ByNostrId (NostrId requestEvent))
    app 0%Z = None ->
  let message :=
    smp_Message (fst (decodeNip47Request svc nip47Request requestEvent app)) in
  exists res new,
    trace (snd (HandleSignMessageEvent svc nip47Request requestEvent app w))
      = trace w ++ new /\
    List.filter is_backend_call new = [EvSignMessageCall TMain message] /\
    In (EvSignMessageRet TMain res) new /\
    forall signature, res = Ok signature ->
      published new =
        [({| ResultType := Method nip47Request; resp_Error := None;
             resp_Result := Some (Nip47SignMessageResponse message
                                    signature) |}, [])].
Proof.
  intros Hd Hc message.
  destruct (HandleSignMessageEvent_trace svc nip47Request requestEvent app w)
    as (_ & new & Htr & Hcase).
  rewrite Hd, Hc in Hcase. destruct Hcase as (res & r & -> & Hrt & Hres).
  exists res. eexists. split; [exact Htr|].
  split; [reflexivity|]. split; [simpl; auto|].
  intros signature ->. destruct Hres as [He Hr].
  destruct r as [rt re rr]. simpl in *. subst. reflexivity.
Qed.

(** * The web front end *)

Import Web.

Section WebProperties.

Variable deps : Deps.

(** ** Templates *)

Lemma registered_templates (name : string) :
  NewAlbyOauthService_templates !! name =
  if String.eqb name "index.html" then Some (parse "views/index.html")
  else if String.eqb name "apps/show.html"
       then Some (parse "views/apps/show.html")
  else if String.eqb name "apps/new.html"
       then Some (parse "views/apps/new.html")
  else if String.eqb name "apps/index.html"
       then Some (parse "views/apps/index.html")
  else None.
Proof.
  unfold NewAlbyOauthService_templates.
  repeat match goal with
  | |- context [String.eqb name ?k] =>
      destruct (String.eqb_spec name k) as [->|?];
      [rewrite ?lookup_insert_ne by discriminate;
       rewrite lookup_insert_eq; reflexivity
      |rewrite (lookup_insert_ne _ k name) by congruence]
  end.
  apply lookup_empty.
Qed.

(** X10: on the registry that [NewAlbyOauthService] builds, [Render]
    executes the layout of the template parsed from [views/<name>] for
    the four page names the handlers use, and for every other name it
    writes nothing and fails with [Template not found -> <name>]. *)
Theorem Render_finds_exactly_the_registered_templates
    (config : Config) (name : string) (data : PageData) :
  let t := e_Renderer (NewAlbyOauthService config) in
  (In name ["index.html"; "apps/index.html"; "apps/new.html";
            "apps/show.html"] ->
   Render deps t name data =
   ExecuteTemplate deps (parse (String.append "views/" name)) "layout.html"
     data) /\
  (~ In name ["index.html"; "apps/index.html"; "apps/new.html";
              "apps/show.html"] ->
   Render deps t name data =
   ("", Some (String.append "Template not found -> " name))).
Proof.
  intros t. unfold Render, t. simpl templates.
  rewrite registered_templates. split.
  - intros [<-|[<-|[<-|[<-|[]]]]]; reflexivity.
  - intros Hn. simpl in Hn.
    repeat match goal with
    | |- context [String.eqb name ?k] =>
        destruct (String.eqb_spec name k) as [->|?]; [exfalso; tauto|]
    end.
    reflexivity.
Qed.

(** X11: the pages of the service are rendered from templates that
    are registered: the response of [IndexHandler], and of the list, show
    and new-app handlers for a logged-in session, is what echo makes of
    [ExecuteTemplate] on the page's own template, never the
    [Template not found] error. *)
Theorem handlers_render_registered_templates
    (config : Config) (db : DB) (c : Context) (userID : SessVal) :
  let svc := NewAlbyOauthService config in
  let page (view : string) (data : PageData) :=
    match ExecuteTemplate deps (parse view) "layout.html" data with
    | (_, Some err) => ReturnedError err
    | (html, None) => HTMLBlob 200 html
    end in
  res_response (IndexHandler deps svc db c)
  = page "views/index.html" NoData /\
  (Values (ctx_session c) !! "user_id" = Some userID ->
   (exists data, res_response (AppsListHandler deps svc db c)
                 = page "views/apps/index.html" data) /\
   (exists data, res_response (AppsShowHandler deps svc db c)
                 = page "views/apps/show.html" data) /\
   (exists data, res_response (AppsNewHandler deps svc db c)
                 = page "views/apps/new.html" data)).
Proof.
  intros svc page. split.
  - unfold IndexHandler, c_Render, Render. simpl.
    rewrite registered_templates. reflexivity.
  - intros Hu. unfold AppsListHandler, AppsShowHandler, AppsNewHandler.
    rewrite Hu. unfold c_Render, Render. simpl.
    rewrite !registered_templates. simpl. repeat split; eexists; reflexivity.
Qed.

(** ** The login gate *)

Lemma gated_handlers_redirect (svc : AlbyOAuthService) (h : HandlerId)
    (handler : DB -> Context -> Result) (db : DB) (c : Context) :
  In h [HAppsList; HAppsNew; HAppsShow; HAppsCreate; HAppsDelete] ->
  handler_of deps svc h = Some handler ->
  Values (ctx_session c) !! "user_id" = None ->
  handler db c =
  {| res_db := db; res_session := ctx_session c;
     res_response := Redirect 301 "/alby/auth" |}.
Proof.
  intros Hin Hh Hnone.
  repeat (destruct Hin as [<-|Hin]; [injection Hh as <-|]);
    try destruct Hin.
  - unfold AppsListHandler. rewrite Hnone. reflexivity.
  - unfold AppsNewHandler. rewrite Hnone. reflexivity.
  - unfold AppsShowHandler. rewrite Hnone. reflexivity.
  - unfold AppsCreateHandler. rewrite Hnone. reflexivity.
  - unfold AppsDeleteHandler. rewrite Hnone. reflexivity.
Qed.

(** X12: every route under [/apps] is behind the login: a request
    whose session has no [user_id] is redirected (301) to [/alby/auth],
    and the handler leaves the database and the session as they are. *)
Theorem apps_routes_require_login (svc : AlbyOAuthService)
    (method path : string) (h : HandlerId) (db : DB) (c : Context) :
  In (method, path, h) routes ->
  String.prefix "/apps" path = true ->
  Values (ctx_session c) !! "user_id" = None ->
  exists handler,
    handler_of deps svc h = Some handler /\
    handler db c =
    {| res_db := db; res_session := ctx_session c;
       res_response := Redirect 301 "/alby/auth" |}.
Proof.
  intros Hin Hp Hnone. unfold routes in Hin. simpl in Hin.
  repeat (destruct Hin as [Hin|Hin];
          [injection Hin as <- <- <-; vm_compute in Hp;
           try discriminate Hp;
           match goal with
           | |- context [handler_of deps svc ?hh] =>
               eexists; split; [reflexivity|];
               apply (gated_handlers_redirect svc hh);
                 [simpl; auto 10|reflexivity|exact Hnone]
           end|]).
  destruct Hin.
Qed.

(** X13: [LogoutHandler] hands to [sess.Save] a session without
    [user_id] and with [MaxAge = -1], keeps the other values, leaves the
    database alone and redirects to [/]; a request that comes with the
    saved session is sent to the login by every handler behind the
    gate. *)
Theorem logout_forgets_the_user (svc : AlbyOAuthService) (db : DB)
    (c : Context) :
  let r := LogoutHandler db c in
  Values (res_session r) !! "user_id" = None /\
  (forall k, k <> "user_id" ->
     Values (res_session r) !! k = Values (ctx_session c) !! k) /\
  opt_MaxAge (sess_Options (res_session r)) = (-1)%Z /\
  res_db r = db /\
  res_response r = Redirect 301 "/" /\
  forall h handler db' c',
    In h [HAppsList; HAppsNew; HAppsShow; HAppsCreate; HAppsDelete] ->
    handler_of deps svc h = Some handler ->
    ctx_session c' = res_session r ->
    res_db (handler db' c') = db' /\
    res_response (handler db' c') = Redirect 301 "/alby/auth".
Proof.
  intros r. unfold r, LogoutHandler. simpl.
  assert (Hgone : delete "user_id"
                    (<["user_id" := SvString ""]> (Values (ctx_session c)))
                  !! "user_id" = None) by apply lookup_delete_eq.
  split; [exact Hgone|]. split.
  { intros k Hk. rewrite lookup_delete_ne by congruence.
    apply lookup_insert_ne. congruence. }
  do 3 (split; [reflexivity|]).
  intros h handler db' c' Hin Hh Hc.
  rewrite (gated_handlers_redirect svc h handler db' c' Hin Hh).
  - split; reflexivity.
  - rewrite Hc. exact Hgone.
Qed.

(** ** Apps and their owners *)

Lemma first_by_pk_Some P rows a :
  first_by_pk P rows = Some a -> In a rows /\ P a = true.
Proof.
  revert a. induction rows as [|r rows IH]; intros a H; simpl in H;
    [discriminate|].
  destruct (P r) eqn:Hr.
  - destruct (first_by_pk P rows) as [r'|].
    + destruct (Nat.ltb (row_ID r') (row_ID r)); injection H as <-.
      * destruct (IH r' eq_refl). simpl. auto.
      * simpl. auto.
    + injection H as <-. simpl. auto.
  - destruct (IH a H). simpl. auto.
Qed.

(** The app that the handlers load for a user under a numeric id is
    the user's app with that key, when there is one. *)
Lemma load_app_owned (db : DB) (user : User) (id : string) (n : nat) :
  inline_primary_key deps id = Some n ->
  load_app deps db user id = zero_App \/
  (In (load_app deps db user id) (apps db) /\
   row_UserId (load_app deps db user id) = user_ID user /\
   row_ID (load_app deps db user id) = n).
Proof.
  intros Hn. unfold load_app. rewrite Hn.
  destruct (first_by_pk _ (apps db)) as [a|] eqn:E; [right|left; reflexivity].
  apply first_by_pk_Some in E as [Hin HP].
  apply andb_true_iff in HP as [Hu Hk].
  apply Nat.eqb_eq in Hu. apply Nat.eqb_eq in Hk. auto.
Qed.

Lemma first_by_pk_None P rows a :
  first_by_pk P rows = None -> In a rows -> P a = false.
Proof.
  induction rows as [|r rows IH]; intros H Ha; [destruct Ha|].
  simpl in H. destruct (P r) eqn:Hr.
  - destruct (first_by_pk P rows) as [r'|]; [|discriminate].
    destruct (Nat.ltb (row_ID r') (row_ID r)); discriminate.
  - destruct Ha as [<-|Ha]; auto.
Qed.

Lemma NoDup_map_inj {A B} (f : A -> B) (l : list A) a b :
  List.NoDup (map f l) -> In a l -> In b l -> f a = f b -> a = b.
Proof.
  induction l as [|h l IH]; intros Hnd Ha Hb Hf; [destruct Ha|].
  simpl in Hnd. apply List.NoDup_cons_iff in Hnd as [Hh Hnd].
  destruct Ha as [->|Ha], Hb as [->|Hb]; auto.
  - exfalso. apply Hh. rewrite Hf. apply in_map. exact Hb.
  - exfalso. apply Hh. rewrite <- Hf. apply in_map. exact Ha.
Qed.

(** With distinct keys, the app loaded under a numeric id is the row
    with that key when the user owns it, and [App{}] when the row is
    somebody else's or there is none. *)
Lemma load_app_by_key (db : DB) (user : User) (id : string) (n : nat) :
  inline_primary_key deps id = Some n ->
  List.NoDup (map row_ID (apps db)) ->
  (forall a, In a (apps db) -> row_ID a = n ->
     row_UserId a = user_ID user -> load_app deps db user id = a) /\
  ((forall a, In a (apps db) -> row_ID a = n ->
      row_UserId a <> user_ID user) ->
   load_app deps db user id = zero_App).
Proof.
  intros Hn Hnd. split.
  - intros a Ha Hk Hown. unfold load_app. rewrite Hn.
    destruct (first_by_pk _ (apps db)) as [b|] eqn:E.
    + apply first_by_pk_Some in E as [Hb HP].
      apply andb_true_iff in HP as [_ HP]. apply Nat.eqb_eq in HP.
      apply (NoDup_map_inj row_ID (apps db)); auto. congruence.
    + pose proof (first_by_pk_None _ _ a E Ha) as Hnone. simpl in Hnone.
      rewrite Hown, Hk, !Nat.eqb_refl in Hnone. discriminate.
  - intros Hother.
    destruct (load_app_owned db user id n Hn) as [Hz|(Hin & Hown & Hk)];
      [exact Hz|].
    exfalso. exact (Hother _ Hin Hk Hown).
Qed.

(** X14: [AppsDeleteHandler] under a numeric id, the keys of the apps
    being distinct.  When the row with that key is an app of the user of
    the session, the handler deletes this app and nothing else (nothing
    at all when the delete fails), and leaves the users alone.  When the
    row is somebody else's, or there is none, the handler still calls
    [Delete], on the empty [App{}]. *)
Theorem AppsDeleteHandler_deletes_only_own_apps (db : DB) (c : Context)
    (userID : SessVal) (n : nat) :
  Values (ctx_session c) !! "user_id" = Some userID ->
  inline_primary_key deps (Param c "id") = Some n ->
  List.NoDup (map row_ID (apps db)) ->
  let user := load_user deps db userID in
  let db' := res_db (AppsDeleteHandler deps db c) in
  res_response (AppsDeleteHandler deps db c) = Redirect 301 "/apps" /\
  (forall a, In a (apps db) -> row_ID a = n -> n <> 0 ->
     row_UserId a = user_ID user ->
     users db' = users db /\
     (forall b, In b (apps db') -> In b (apps db)) /\
     (forall b, In b (apps db) -> ~ In b (apps db') -> b = a) /\
     (Delete_Error deps db = false -> ~ In a (apps db'))) /\
  ((forall a, In a (apps db) -> row_ID a = n ->
      row_UserId a <> user_ID user) ->
   db' = if Delete_Error deps db then db else Delete_blank deps db).
Proof.
  intros Hu Hn Hnd user db'. subst db'.
  unfold AppsDeleteHandler. rewrite Hu. fold user.
  cbn [respond res_db res_response].
  destruct (load_app_by_key db user (Param c "id") n Hn Hnd)
    as [Hown Hother].
  split; [reflexivity|]. split.
  - intros a Ha Hk Hn0 Ho. rewrite (Hown a Ha Hk Ho).
    unfold db_Delete.
    destruct (Delete_Error deps db);
      [split; [reflexivity|]; split; [auto|]; split;
       [intros b Hb Hgone; contradiction|discriminate]|].
    destruct (Nat.eqb_spec (row_ID a) 0) as [E|_]; [congruence|].
    cbn [users apps]. split; [reflexivity|]. split; [|split].
    + intros b Hb. apply List.filter_In in Hb. tauto.
    + intros b Hb Hgone.
      apply (NoDup_map_inj row_ID (apps db)); auto.
      destruct (Nat.eqb_spec (row_ID b) (row_ID a)) as [E|E]; [exact E|].
      exfalso. apply Hgone. apply List.filter_In. split; [exact Hb|].
      apply negb_true_iff. apply Nat.eqb_neq. exact E.
    + intros _ Hin. apply List.filter_In in Hin as [_ Hin].
      rewrite Nat.eqb_refl in Hin. discriminate.
  - intros Hno. rewrite (Hother Hno). unfold db_Delete.
    destruct (Delete_Error deps db); reflexivity.
Qed.

(** X15: what a logged-in user is shown is theirs: every app on the
    list page is a row of the database with the user's key as
    [user_id], and the app on the show page of a numeric id is a row
    with that key and the user's key as [user_id], or the empty [App{}]
    when the user has none with that key. *)
Theorem pages_show_only_own_apps (svc : AlbyOAuthService) (db : DB)
    (c : Context) (userID : SessVal) :
  Values (ctx_session c) !! "user_id" = Some userID ->
  let user := load_user deps db userID in
  (exists link listed,
     res_response (AppsListHandler deps svc db c)
     = c_Render deps svc 200 "apps/index.html"
         (AppsIndexData link listed user) /\
     forall a, In a listed -> In a (apps db) /\ row_UserId a = user_ID user)
  /\
  (forall n, inline_primary_key deps (Param c "id") = Some n ->
   exists app,
     res_response (AppsShowHandler deps svc db c)
     = c_Render deps svc 200 "apps/show.html" (AppsShowData app user) /\
     (app = zero_App \/
      (In app (apps db) /\ row_UserId app = user_ID user /\
       row_ID app = n))).
Proof.
  intros Hu user. split.
  - unfold AppsListHandler. rewrite Hu. simpl.
    eexists _, (load_apps deps db userID). split; [reflexivity|].
    intros a Ha. unfold load_apps in Ha. unfold user, load_user.
    destruct (find_user deps db userID) as [u|]; [|destruct Ha].
    unfold Preload_Apps in Ha. apply List.filter_In in Ha as [Hin Hown].
    apply Nat.eqb_eq in Hown. auto.
  - intros n Hn. unfold AppsShowHandler. rewrite Hu. simpl.
    eexists. split; [reflexivity|]. apply load_app_owned. exact Hn.
Qed.

(** X16: [AppsCreateHandler] for a logged-in user that the database
    knows leaves the users and the existing apps as they are and adds at
    most one app: it carries the key of the user of the session as
    [user_id], whatever the form says, and the name and the public key
    of the form. *)
Theorem AppsCreateHandler_adds_an_app_of_the_user (db : DB) (c : Context)
    (userID : SessVal) (user : User) :
  Values (ctx_session c) !! "user_id" = Some userID ->
  find_user deps db userID = Some user ->
  let r := AppsCreateHandler deps db c in
  res_response r = Redirect 301 "/apps" /\
  users (res_db r) = users db /\
  (res_db r = db \/
   exists a, apps (res_db r) = apps db ++ [a] /\
     row_UserId a = user_ID user /\
     row_Name a = FormValue c "name" /\
     row_NostrPubkey a = FormValue c "pubkey").
Proof.
  intros Hu Hf. unfold AppsCreateHandler. rewrite Hu. simpl.
  unfold Association_Apps_Append. rewrite Hf.
  destruct (Append_Error deps db); [auto|].
  simpl. repeat split. right. eexists. split; [reflexivity|]. simpl.
  repeat split.
Qed.

(** ** Paying through the Alby API *)

(** X18: [SendPaymentSync] returns a preimage only without an error,
    and without an error only when the API answered with a status below
    300 and a body that decodes; the preimage is then the one of the
    body. A status of 300 or more never yields a preimage: the result is
    the [Failed] error, or the decoding error when the body does not
    decode. *)
Theorem SendPaymentSync_preimage_needs_a_2xx_answer
    (svc : AlbyOAuthService) (db : DB) (senderPubkey payReq : string) :
  let result := fst (SendPaymentSync deps svc db senderPubkey payReq) in
  (snd result <> None -> fst result = "") /\
  (snd result = None ->
   exists req resp payload,
     snd (SendPaymentSync deps svc db senderPubkey payReq) = [req] /\
     client_Post deps req = Ok resp /\
     (StatusCode resp < 300)%Z /\
     json_Decode_PayResponse deps (Body resp) = Ok payload /\
     fst result = pr_Preimage payload) /\
  (forall req resp,
     snd (SendPaymentSync deps svc db senderPubkey payReq) = [req] ->
     client_Post deps req = Ok resp -> (300 <= StatusCode resp)%Z ->
     fst result = "" /\
     (snd result = Some "Failed" \/
      json_Decode_PayResponse deps (Body resp) = Err
        match snd result with Some e => e | None => "" end)).
Proof.
  unfold SendPaymentSync.
  destruct (First_app_by_pubkey deps db senderPubkey) as [[app user]|err];
    simpl.
  2: { split; [reflexivity|]. split; [discriminate|].
       intros req resp Hreq. discriminate Hreq. }
  match goal with
  | |- context [client_Post deps ?r] =>
      set (req := r); destruct (client_Post deps req) as [resp|err] eqn:Ep
  end; simpl.
  2: { split; [reflexivity|]. split; [discriminate|].
       intros req' resp' Hreq Hp. injection Hreq as <-. congruence. }
  destruct (json_Decode_PayResponse deps (Body resp)) as [payload|err] eqn:Ed;
    simpl.
  2: { split; [reflexivity|]. split; [discriminate|].
       intros req' resp' Hreq Hp _. injection Hreq as <-.
       rewrite Ep in Hp. injection Hp as <-. split; [reflexivity|].
       right. exact Ed. }
  destruct (Z.ltb_spec (StatusCode resp) 300); simpl.
  - split; [congruence|]. split.
    + intros _. exists req, resp, payload. auto.
    + intros req' resp' Hreq Hp Hs. injection Hreq as <-.
      rewrite Ep in Hp. injection Hp as <-. lia.
  - split; [reflexivity|]. split; [discriminate|].
    intros req' resp' _ _ _. split; [reflexivity|]. left. reflexivity.
Qed.

(** ** Logging in *)

(** X19: when the code exchange, the request for the user, the
    decoding of the answer or the decoding of the [npub] fails,
    [CallbackHandler] returns that error and touches neither the
    database nor the session. *)
Theorem CallbackHandler_failure_changes_nothing (svc : AlbyOAuthService)
    (db : DB) (c : Context) (err : string) :
  Exchange deps (QueryParam c "code") = Err err \/
  (exists tok,
     Exchange deps (QueryParam c "code") = Ok tok /\
     (client_Get deps tok (String.append (AlbyAPIURL (cfg svc)) "/user/me")
      = Err err \/
      exists body,
        client_Get deps tok (String.append (AlbyAPIURL (cfg svc)) "/user/me")
        = Ok body /\
        (json_Decode_AlbyMe deps body = Err err \/
         exists me, json_Decode_AlbyMe deps body = Ok me /\
                    nip19_Decode deps (NPub me) = Err err))) ->
  CallbackHandler deps svc db c =
  {| res_db := db; res_session := ctx_session c;
     res_response := ReturnedError err |}.
Proof.
  unfold CallbackHandler.
  intros [->|(tok & -> & [->|(body & -> & [->|(me & -> & ->)])])];
    reflexivity.
Qed.

(** X20: a login that goes through ends with a redirect to [/apps]
    and a session whose [user_id] is the key of the user as saved: the
    user found or initialised for the identifier that the provider
    gave, with the tokens of this exchange.  The other values of the
    session are kept; a request that comes with this session passes the
    login gate, and [LogoutHandler] on it takes the [user_id] away
    again. *)
Theorem CallbackHandler_logs_the_user_in (svc : AlbyOAuthService)
    (db : DB) (c : Context) :
  res_response (CallbackHandler deps svc db c) = Redirect 301 "/apps" ->
  let r := CallbackHandler deps svc db c in
  (exists tok body me,
     Exchange deps (QueryParam c "code") = Ok tok /\
     client_Get deps tok (String.append (AlbyAPIURL (cfg svc)) "/user/me")
     = Ok body /\
     json_Decode_AlbyMe deps body = Ok me /\
     let found := FirstOrInit_user deps db (Identifier me) in
     let user := {| user_ID := user_ID found;
                    AlbyIdentifier := AlbyIdentifier found;
                    AccessToken := tok_AccessToken tok;
                    RefreshToken := tok_RefreshToken tok;
                    Expiry := tok_Expiry tok |} in
     Values (res_session r) !! "user_id"
     = Some (SvUint (user_ID (snd (Save_user deps db user))))) /\
  (forall k, k <> "user_id" ->
     Values (res_session r) !! k = Values (ctx_session c) !! k) /\
  (forall db' c', ctx_session c' = res_session r ->
     res_response (AppsCreateHandler deps db' c') = Redirect 301 "/apps" /\
     Values (res_session (LogoutHandler db' c')) !! "user_id" = None).
Proof.
  unfold CallbackHandler.
  destruct (Exchange deps (QueryParam c "code")) as [tok|e];
    [|discriminate].
  destruct (client_Get deps tok _) as [body|e] eqn:Eget; [|discriminate].
  destruct (json_Decode_AlbyMe deps body) as [me|e] eqn:Eme; [|discriminate].
  destruct (nip19_Decode deps (NPub me)) as [pubkey|e]; [|discriminate].
  match goal with
  | |- context [Save_user deps db ?u] =>
      set (user := u); destruct (Save_user deps db user) as [db1 user1] eqn:Es
  end.
  destruct pubkey as [pubkey|]; [|discriminate].
  intros _. cbv zeta. cbn [res_session res_response Values].
  split; [|split].
  - exists tok, body, me.
    split; [reflexivity|]. split; [exact Eget|]. split; [exact Eme|].
    cbv zeta. fold user. rewrite Es. simpl. apply lookup_insert_eq.
  - intros k Hk. apply lookup_insert_ne. congruence.
  - intros db' c' Hc. split.
    + unfold AppsCreateHandler. rewrite Hc. simpl.
      rewrite lookup_insert_eq. reflexivity.
    + unfold LogoutHandler. simpl. apply lookup_delete_eq.
Qed.

End WebProperties.

(** * The further properties at concrete requests *)

Lemma backend_call_carries_element_arguments_witness :
  In (EvSendKeysendCall (TGo 0) 3000%Z "03bad" "" [])
     (trace (world Demo.run_unreachable)) /\
  (3000%Z = ks_Amount (Demo.element "" "03bad" 3000%Z) /\
   "03bad" = ks_Pubkey (Demo.element "" "03bad" 3000%Z) /\
   "" = ks_Preimage (Demo.element "" "03bad" 3000%Z) /\
   [] = ks_TLVRecords (Demo.element "" "03bad" 3000%Z)).
Proof.
  assert (H : In (EvSendKeysendCall (TGo 0) 3000%Z "03bad" "" [])
                 (trace (world Demo.run_unreachable)))
    by (vm_compute; auto 30).
  split; [exact H|].
  exact (backend_call_carries_element_arguments
           (Demo.service None [Demo.element "" "03bad" 3000%Z])
           (Demo.keysend_request "{}") Demo.requestEvent Demo.app []
           (sequential_schedule 1)
           {| Keysends := [Demo.element "" "03bad" 3000%Z] |} 0
           (Demo.element "" "03bad" 3000%Z) 3000%Z "03bad" "" []
           eq_refl eq_refl H).
Defined.

Lemma failed_insert_blocks_backend_call_witness :
  In (EvDbCreate (TGo 0) (Demo.pending_payment 0 21%Z)
        (Some "database is locked"))
     (trace (world Demo.run_db_down)) /\
  forall amount pubkey preimage tlv,
    ~ In (EvSendKeysendCall (TGo 0) amount pubkey preimage tlv)
         (trace (world Demo.run_db_down)).
Proof.
  assert (H : In (EvDbCreate (TGo 0) (Demo.pending_payment 0 21%Z)
                    (Some "database is locked"))
                 (trace (world Demo.run_db_down)))
    by (vm_compute; auto 30).
  split; [exact H|].
  exact (proj1 (failed_insert_blocks_backend_call
                  (Demo.service (Some "database is locked")
                     [Demo.element "" "02aa" 21000%Z])
                  (Demo.keysend_request "{}") Demo.requestEvent Demo.app []
                  (sequential_schedule 1) 0 (Demo.pending_payment 0 21%Z)
                  "database is locked" H)).
Defined.

Lemma successful_payment_is_recorded_witness :
  goroutines Demo.run_batch_ok !! 0
  = Some {| g_keysendInfo := Demo.element "" "02aa" 21000%Z;
            g_pc := PcExited |} /\
  In (EvSendKeysendRet (TGo 0) (Ok "pre:02aa"))
     (trace (world Demo.run_batch_ok)) /\
  exists p save_err,
    In (EvDbSave (TGo 0) (with_Preimage p "pre:02aa") save_err)
       (trace (world Demo.run_batch_ok)) /\
    match save_err with
    | None => In (with_Preimage p "pre:02aa")
                 (ledger (world Demo.run_batch_ok))
    | Some _ => In p (ledger (world Demo.run_batch_ok))
    end.
Proof.
  assert (H : In (EvSendKeysendRet (TGo 0) (Ok "pre:02aa"))
                 (trace (world Demo.run_batch_ok)))
    by (vm_compute; auto 30).
  split; [reflexivity|]. split; [exact H|].
  destruct (successful_payment_is_recorded
              (Demo.service None Demo.batch_ok) (Demo.keysend_request "{}")
              Demo.requestEvent Demo.app [] (sequential_schedule 2) 0
              (Demo.element "" "02aa" 21000%Z) "pre:02aa" eq_refl H)
    as (p & save_err & _ & Hsave & _ & Hledger).
  exists p, save_err. split; [exact Hsave|exact Hledger].
Defined.

Lemma empty_batch_does_nothing_witness :
  json_Unmarshal (Demo.service None []) (Params (Demo.keysend_request "{}"))
  = Ok {| Keysends := [] |} /\
  world (Demo.run None [] "{}" [TMain; TGo 0; TMain; TGo 1; TMain])
  = Demo.empty_world /\
  goroutines (Demo.run None [] "{}" [TMain; TGo 0; TMain; TGo 1; TMain])
  = [] /\
  main (Demo.run None [] "{}" [TMain; TGo 0; TMain; TGo 1; TMain])
  = MReturned None.
Proof.
  split; [reflexivity|].
  exact (empty_batch_does_nothing (Demo.service None [])
           (Demo.keysend_request "{}") Demo.requestEvent Demo.app []
           [TMain; TGo 0; TMain; TGo 1; TMain] {| Keysends := [] |}
           eq_refl eq_refl).
Defined.

Lemma handler_can_always_return_witness :
  json_Unmarshal (Demo.service None Demo.batch3)
    (Params (Demo.keysend_request "{}"))
  = Ok {| Keysends := Demo.batch3 |} /\
  main (Demo.run None Demo.batch3 "{}"
          (Demo.round_robin 2 ++ sequential_schedule 3))
  = MReturned None.
Proof.
  split; [reflexivity|].
  exact (handler_can_always_return (Demo.service None Demo.batch3)
           (Demo.keysend_request "{}") Demo.requestEvent Demo.app []
           (Demo.round_robin 2) {| Keysends := Demo.batch3 |} eq_refl).
Defined.

Lemma sign_message_refused_request_is_not_signed_witness :
  snd (decodeNip47Request (Demo.service None []) (Demo.sign_request "[]")
         Demo.requestEvent Demo.app)
  = Some (Demo.error_response "sign_message" "BAD_REQUEST" "cannot decode")
  /\
  exists new,
    trace (Demo.run_sign "[]") = trace Demo.empty_world ++ new /\
    published new
    = [(Demo.error_response "sign_message" "BAD_REQUEST" "cannot decode",
        [])] /\
    List.filter is_backend_call new = [].
Proof.
  split; [reflexivity|].
  apply (sign_message_refused_request_is_not_signed (Demo.service None [])
           (Demo.sign_request "[]") Demo.requestEvent Demo.app
           Demo.empty_world).
  left. reflexivity.
Defined.

Lemma sign_message_answers_with_backend_signature_witness :
  snd (decodeNip47Request (Demo.service None []) (Demo.sign_request "hello")
         Demo.requestEvent Demo.app) = None /\
  checkPermission (Demo.service None []) Demo.empty_world
    (Demo.sign_request "hello") (ByNostrId (NostrId Demo.requestEvent))
    Demo.app 0%Z = None /\
  exists res new,
    trace (Demo.run_sign "hello") = trace Demo.empty_world ++ new /\
    List.filter is_backend_call new = [EvSignMessageCall TMain "hello"] /\
    In (EvSignMessageRet TMain res) new.
Proof.
  split; [reflexivity|]. split; [reflexivity|].
  destruct (sign_message_answers_with_backend_signature
              (Demo.service None []) (Demo.sign_request "hello")
              Demo.requestEvent Demo.app Demo.empty_world eq_refl eq_refl)
    as (res & new & Htrace & Hcalls & Hret & _).
  exists res, new. split; [exact Htrace|]. split; [exact Hcalls|exact Hret].
Defined.

Lemma apps_routes_require_login_witness :
  In ("POST", "/apps/delete/:id", HAppsDelete) routes /\
  String.prefix "/apps" "/apps/delete/:id" = true /\
  Values (ctx_session (Sample.context None "3")) !! "user_id" = None /\
  exists handler,
    handler_of Sample.deps Sample.svc HAppsDelete = Some handler /\
    handler Sample.db (Sample.context None "3") =
    {| res_db := Sample.db;
       res_session := ctx_session (Sample.context None "3");
       res_response := Redirect 301 "/alby/auth" |}.
Proof.
  assert (Hin : In ("POST", "/apps/delete/:id", HAppsDelete) routes)
    by (simpl; auto 20).
  split; [exact Hin|]. split; [reflexivity|]. split; [reflexivity|].
  exact (apps_routes_require_login Sample.deps Sample.svc "POST"
           "/apps/delete/:id" HAppsDelete Sample.db (Sample.context None "3")
           Hin eq_refl eq_refl).
Defined.

Lemma AppsDeleteHandler_deletes_only_own_apps_witness :
  Values (ctx_session (Sample.context (Some (SvUint 1)) "3")) !! "user_id"
  = Some (SvUint 1) /\
  inline_primary_key Sample.deps
    (Param (Sample.context (Some (SvUint 1)) "3") "id") = Some 3 /\
  List.NoDup (map row_ID (apps Sample.db)) /\
  ~ In (Sample.app_row 3 1 "game" "a3")
       (apps (res_db (AppsDeleteHandler Sample.deps Sample.db
                        (Sample.context (Some (SvUint 1)) "3")))) /\
  res_response (AppsDeleteHandler Sample.deps Sample.db
                  (Sample.context (Some (SvUint 1)) "3"))
  = Redirect 301 "/apps".
Proof.
  assert (Hnd : List.NoDup (map row_ID (apps Sample.db))).
  { simpl. repeat (apply List.NoDup_cons; [simpl; intuition discriminate|]).
    apply List.NoDup_nil. }
  split; [reflexivity|]. split; [reflexivity|]. split; [exact Hnd|].
  destruct (AppsDeleteHandler_deletes_only_own_apps Sample.deps Sample.db
              (Sample.context (Some (SvUint 1)) "3") (SvUint 1) 3
              eq_refl eq_refl Hnd)
    as (Hr & Hown & _).
  destruct (Hown (Sample.app_row 3 1 "game" "a3")) as (_ & _ & _ & Hgone).
  - simpl. auto.
  - reflexivity.
  - discriminate.
  - reflexivity.
  - split; [exact (Hgone eq_refl)|exact Hr].
Defined.

Lemma pages_show_only_own_apps_witness :
  Values (ctx_session (Sample.context (Some (SvUint 1)) "2")) !! "user_id"
  = Some (SvUint 1) /\
  inline_primary_key Sample.deps
    (Param (Sample.context (Some (SvUint 1)) "2") "id") = Some 2 /\
  exists app,
    res_response (AppsShowHandler Sample.deps Sample.svc Sample.db
                    (Sample.context (Some (SvUint 1)) "2"))
    = c_Render Sample.deps Sample.svc 200 "apps/show.html"
        (AppsShowData app (load_user Sample.deps Sample.db (SvUint 1))) /\
    (app = zero_App \/
     (In app (apps Sample.db) /\
      row_UserId app
      = user_ID (load_user Sample.deps Sample.db (SvUint 1)) /\
      row_ID app = 2)).
Proof.
  split; [reflexivity|]. split; [reflexivity|].
  exact (proj2 (pages_show_only_own_apps Sample.deps Sample.svc Sample.db
                  (Sample.context (Some (SvUint 1)) "2") (SvUint 1)
                  eq_refl) 2 eq_refl).
Defined.

Lemma AppsCreateHandler_adds_an_app_of_the_user_witness :
  Values (ctx_session (Sample.context (Some (SvUint 1)) "")) !! "user_id"
  = Some (SvUint 1) /\
  find_user Sample.deps Sample.db (SvUint 1) = Some Sample.alice /\
  users (res_db (AppsCreateHandler Sample.deps Sample.db
                   (Sample.context (Some (SvUint 1)) "")))
  = users Sample.db /\
  res_response (AppsCreateHandler Sample.deps Sample.db
                  (Sample.context (Some (SvUint 1)) ""))
  = Redirect 301 "/apps".
Proof.
  split; [reflexivity|]. split; [reflexivity|].
  destruct (AppsCreateHandler_adds_an_app_of_the_user Sample.deps Sample.db
              (Sample.context (Some (SvUint 1)) "") (SvUint 1) Sample.alice
              eq_refl eq_refl)
    as (Hr & Hu & _).
  split; [exact Hu|exact Hr].
Defined.

Lemma CallbackHandler_failure_changes_nothing_witness :
  Exchange Sample.deps (QueryParam (Sample.callback_context "stale") "code")
  = Err "oauth2: cannot fetch token" /\
  CallbackHandler Sample.deps Sample.svc Sample.db
    (Sample.callback_context "stale")
  = {| res_db := Sample.db;
       res_session := ctx_session (Sample.callback_context "stale");
       res_response := ReturnedError "oauth2: cannot fetch token" |}.
Proof.
  split; [reflexivity|].
  apply (CallbackHandler_failure_changes_nothing Sample.deps Sample.svc
           Sample.db (Sample.callback_context "stale")
           "oauth2: cannot fetch token").
  left. reflexivity.
Defined.

Lemma CallbackHandler_logs_the_user_in_witness :
  res_response (CallbackHandler Sample.deps Sample.svc Sample.db
                  (Sample.callback_context "abc"))
  = Redirect 301 "/apps" /\
  forall db' c',
    ctx_session c'
    = res_session (CallbackHandler Sample.deps Sample.svc Sample.db
                     (Sample.callback_context "abc")) ->
    res_response (AppsCreateHandler Sample.deps db' c')
    = Redirect 301 "/apps" /\
    Values (res_session (LogoutHandler db' c')) !! "user_id" = None.
Proof.
  split; [reflexivity|].
  exact (proj2 (proj2 (CallbackHandler_logs_the_user_in Sample.deps
                         Sample.svc Sample.db
                         (Sample.callback_context "abc") eq_refl))).
Defined.

Lemma old_payments_are_untouched_witness :
  let st := HandleMultiPayKeysendEvent (Demo.service None Demo.batch_ok)
              (Demo.keysend_request "{}") Demo.requestEvent Demo.app
              [Demo.pending_payment 5 7%Z] (sequential_schedule 2) in
  In (Demo.pending_payment 5 7%Z) [Demo.pending_payment 5 7%Z] /\
  In (EvDbCreate (TGo 1) (Demo.pending_payment 7 3%Z) None)
     (trace (world st)) /\
  In (Demo.pending_payment 5 7%Z) (ledger (world st)) /\
  pay_ID (Demo.pending_payment 5 7%Z) < pay_ID (Demo.pending_payment 7 3%Z).
Proof.
  intros st.
  assert (Hold : In (Demo.pending_payment 5 7%Z)
                    [Demo.pending_payment 5 7%Z]) by (simpl; auto).
  assert (Hnew : In (EvDbCreate (TGo 1) (Demo.pending_payment 7 3%Z) None)
                    (trace (world st))) by (vm_compute; auto 30).
  destruct (old_payments_are_untouched (Demo.service None Demo.batch_ok)
              (Demo.keysend_request "{}") Demo.requestEvent Demo.app
              [Demo.pending_payment 5 7%Z] (sequential_schedule 2))
    as (Hkept & Hfresh & _).
  split; [exact Hold|]. split; [exact Hnew|].
  split; [exact (Hkept _ Hold)|exact (Hfresh _ _ _ Hnew Hold)].
Defined.

Lemma Render_finds_exactly_the_registered_templates_witness :
  In "apps/new.html" ["index.html"; "apps/index.html"; "apps/new.html";
                      "apps/show.html"] /\
  Render Sample.deps (e_Renderer (NewAlbyOauthService Sample.config))
    "apps/new.html" NoData
  = ExecuteTemplate Sample.deps (parse "views/apps/new.html") "layout.html"
      NoData /\
  ~ In "apps/edit.html" ["index.html"; "apps/index.html"; "apps/new.html";
                         "apps/show.html"] /\
  Render Sample.deps (e_Renderer (NewAlbyOauthService Sample.config))
    "apps/edit.html" NoData
  = ("", Some "Template not found -> apps/edit.html").
Proof.
  assert (Hin : In "apps/new.html"
                  ["index.html"; "apps/index.html"; "apps/new.html";
                   "apps/show.html"]) by (simpl; auto).
  assert (Hout : ~ In "apps/edit.html"
                     ["index.html"; "apps/index.html"; "apps/new.html";
                      "apps/show.html"])
    by (simpl; intuition discriminate).
  split; [exact Hin|].
  split; [exact (proj1 (Render_finds_exactly_the_registered_templates
                          Sample.deps Sample.config "apps/new.html" NoData)
                   Hin)|].
  split; [exact Hout|].
  exact (proj2 (Render_finds_exactly_the_registered_templates
                  Sample.deps Sample.config "apps/edit.html" NoData) Hout).
Defined.

Lemma handlers_render_registered_templates_witness :
  Values (ctx_session (Sample.context (Some (SvUint 1)) "1")) !! "user_id"
  = Some (SvUint 1) /\
  exists data html,
    ExecuteTemplate Sample.deps (parse "views/apps/new.html") "layout.html"
      data = (html, None) /\
    res_response (AppsNewHandler Sample.deps
                    (NewAlbyOauthService Sample.config) Sample.db
                    (Sample.context (Some (SvUint 1)) "1"))
    = HTMLBlob 200 html.
Proof.
  split; [reflexivity|].
  destruct (proj2 (handlers_render_registered_templates Sample.deps
                     Sample.config Sample.db
                     (Sample.context (Some (SvUint 1)) "1") (SvUint 1))
              eq_refl)
    as (_ & _ & data & Hnew).
  exists data, (fst (ExecuteTemplate Sample.deps
                       (parse "views/apps/new.html") "layout.html" data)).
  split; [reflexivity|exact Hnew].
Defined.

Lemma logout_forgets_the_user_witness :
  let r := LogoutHandler Sample.db (Sample.context (Some (SvUint 1)) "") in
  let c' := {| ctx_session := res_session r;
               Param := fun _ => "";
               FormValue := fun _ => "";
               QueryParam := fun _ => "" |} in
  In HAppsList [HAppsList; HAppsNew; HAppsShow; HAppsCreate; HAppsDelete] /\
  Values (ctx_session (Sample.context (Some (SvUint 1)) "")) !! "user_id"
  = Some (SvUint 1) /\
  Values (res_session r) !! "user_id" = None /\
  res_response (AppsListHandler Sample.deps Sample.svc Sample.db c')
  = Redirect 301 "/alby/auth".
Proof.
  intros r c'.
  assert (Hin : In HAppsList
                  [HAppsList; HAppsNew; HAppsShow; HAppsCreate; HAppsDelete])
    by (simpl; auto).
  destruct (logout_forgets_the_user Sample.deps Sample.svc Sample.db
              (Sample.context (Some (SvUint 1)) ""))
    as (Hgone & _ & _ & _ & _ & Hgate).
  split; [exact Hin|]. split; [reflexivity|]. split; [exact Hgone|].
  exact (proj2 (Hgate HAppsList
                  (AppsListHandler Sample.deps Sample.svc) Sample.db c'
                  Hin eq_refl eq_refl)).
Defined.

Lemma SendPaymentSync_preimage_needs_a_2xx_answer_witness :
  snd (fst (SendPaymentSync Sample.deps Sample.svc Sample.db "a1" "lnbc1"))
  = None /\
  fst (fst (SendPaymentSync Sample.deps Sample.svc Sample.db "a1" "lnbc1"))
  = "pre:paid" /\
  (exists req resp,
     snd (SendPaymentSync Sample.deps Sample.svc Sample.db "a1"
            "lnbc-expired") = [req] /\
     client_Post Sample.deps req = Ok resp /\
     (300 <= StatusCode resp)%Z) /\
  fst (fst (SendPaymentSync Sample.deps Sample.svc Sample.db "a1"
              "lnbc-expired")) = "".
Proof.
  split; [reflexivity|].
  destruct (SendPaymentSync_preimage_needs_a_2xx_answer Sample.deps
              Sample.svc Sample.db "a1" "lnbc1")
    as (_ & Hok & _).
  destruct (Hok eq_refl) as (req & resp & payload & Hreq & Hpost & _ & Hdec
                             & Hpre).
  split.
  - rewrite Hpre. injection Hreq as <-. injection Hpost as <-.
    injection Hdec as <-. reflexivity.
  - destruct (SendPaymentSync_preimage_needs_a_2xx_answer Sample.deps
                Sample.svc Sample.db "a1" "lnbc-expired")
      as (_ & _ & Hfail).
    split.
    + eexists _, _. split; [reflexivity|]. split; [reflexivity|].
      simpl. lia.
    + refine (proj1 (Hfail _ _ eq_refl eq_refl _)). simpl. lia.
Defined.
